(** * Review aspect analyzer: aspect parsing, frequency table, presence matrix

    A shallow embedding of the aspect pipeline of the dashboard:
    [parse_aspects] (pages/1_Data_Upload.py), [process_csv],
    [load_category_data], [analyze_category_aspects] and
    [create_aspect_category_matrix] (utils.py) and the summary statistics of
    pages/3_Category_Analysis.py, followed by the properties proved about
    them. *)

From Stdlib Require Import List String Ascii ZArith QArith Lia Bool Arith.
From Stdlib Require Import Permutation Sorted SpecFloat.
Import ListNotations.

Local Open Scope string_scope.
Local Open Scope Z_scope.

#[local] Set Warnings "-register-all".

(** ** Python values and exceptions *)

(** The exceptions the modelled code can meet. *)
Inductive exn : Type :=
| TypeError
| KeyError
| ValueError
| SyntaxError.

(** A computation that returns a value or raises. *)
Inductive result (A : Type) : Type :=
| Ok (a : A)
| Raise (e : exn).

Arguments Ok {A} a.
Arguments Raise {A} e.

Definition bind {A B : Type} (m : result A) (k : A -> result B) : result B :=
  match m with
  | Ok a => k a
  | Raise e => Raise e
  end.

Notation "x <- m ;; k" := (bind m (fun x => k))
  (at level 61, m at next level, right associativity).

(** [try: body  except Exception: handler]. *)
Definition try_except {A : Type} (body : result A) (handler : exn -> result A)
  : result A :=
  match body with
  | Ok a => Ok a
  | Raise e => handler e
  end.

(** The Python values that occur in parsed aspect cells: [None], integers,
    strings and lists.  On this fragment Python's [==] is structural
    equality; lists are the unhashable values. *)
Inductive pyval : Type :=
| PNone
| PInt (z : Z)
| PStr (s : string)
| PList (l : list pyval).

Fixpoint pyval_eq_dec (x y : pyval) {struct x} : {x = y} + {x <> y}.
Proof.
  decide equality.
  - apply Z.eq_dec.
  - apply string_dec.
  - apply (list_eq_dec pyval_eq_dec).
Defined.

Definition pyval_eqb (x y : pyval) : bool :=
  if pyval_eq_dec x y then true else false.

(** [hash(v)] succeeds. *)
Definition hashable (v : pyval) : bool :=
  match v with
  | PList _ => false
  | _ => true
  end.

(** [isinstance(v, list)]. *)
Definition isinstance_list (v : pyval) : bool :=
  match v with
  | PList _ => true
  | _ => false
  end.

(** [a in v] for a list [v]. *)
Definition contains (a : pyval) (l : list pyval) : bool :=
  existsb (pyval_eqb a) l.

(** ** String methods

    Characters are code points below 256. *)
Module Str.

(** [c.isspace()]: the characters [str.strip()] removes. *)
Definition isspace (c : ascii) : bool :=
  let n := nat_of_ascii c in
  (((9 <=? n) && (n <=? 13)) || ((28 <=? n) && (n <=? 32))
   || (n =? 133) || (n =? 160))%nat.

Fixpoint lstrip (s : string) : string :=
  match s with
  | EmptyString => EmptyString
  | String c s' => if isspace c then lstrip s' else s
  end.

Fixpoint rstrip (s : string) : string :=
  match s with
  | EmptyString => EmptyString
  | String c s' =>
      match rstrip s' with
      | EmptyString => if isspace c then EmptyString else String c EmptyString
      | r => String c r
      end
  end.

(** [s.strip()]. *)
Definition strip (s : string) : string := rstrip (lstrip s).

(** [s.split(sep)] for a one-character separator. *)
Fixpoint split (sep : ascii) (s : string) : list string :=
  match s with
  | EmptyString => [EmptyString]
  | String c s' =>
      if Ascii.eqb c sep then EmptyString :: split sep s'
      else match split sep s' with
           | [] => [String c EmptyString]
           | t :: ts => String c t :: ts
           end
  end.

(** [s.startswith(p)]. *)
Definition startswith (p s : string) : bool := String.prefix p s.

(** [s.endswith(p)]. *)
Definition endswith (p s : string) : bool :=
  (String.length p <=? String.length s)%nat
  && String.eqb (substring (String.length s - String.length p)
                           (String.length p) s) p.

(** Truth value of a string: non-empty. *)
Definition truthy (s : string) : bool :=
  match s with
  | EmptyString => false
  | _ => true
  end.

End Str.

(** ** [ast.literal_eval] on a fragment

    The properties below are stated for an arbitrary [literal_eval]; this
    evaluator fixes it on concrete inputs.  It decodes a list display of
    plain quoted strings (either quote, no backslash, blanks between tokens,
    optional trailing comma) and raises on everything else. *)
Module Ast.

Inductive mode : Type :=
| Item                                   (* an element or the closing bracket *)
| InStr (quote : ascii) (acc : string)   (* inside a string literal *)
| AfterItem                              (* a comma or the closing bracket *)
| Done.                                  (* after the closing bracket *)

Definition blank (c : ascii) : bool :=
  Ascii.eqb c " " || Ascii.eqb c "009".

Definition is_quote (c : ascii) : bool :=
  Ascii.eqb c "'" || Ascii.eqb c "034".

Fixpoint scan (m : mode) (items : list string) (s : string)
  : result (list string) :=
  match s with
  | EmptyString =>
      match m with
      | Done => Ok (rev items)
      | _ => Raise SyntaxError
      end
  | String c s' =>
      match m with
      | Item =>
          if blank c then scan Item items s'
          else if Ascii.eqb c "]" then scan Done items s'
          else if is_quote c then scan (InStr c EmptyString) items s'
          else if Ascii.eqb c "," then Raise SyntaxError
          else Raise ValueError
      | InStr q acc =>
          if Ascii.eqb c q then scan AfterItem (acc :: items) s'
          else if Ascii.eqb c "\" || Ascii.eqb c "010" || Ascii.eqb c "013"
               then Raise SyntaxError
          else scan (InStr q (acc ++ String c EmptyString)) items s'
      | AfterItem =>
          if blank c then scan AfterItem items s'
          else if Ascii.eqb c "," then scan Item items s'
          else if Ascii.eqb c "]" then scan Done items s'
          else Raise SyntaxError
      | Done =>
          if blank c then scan Done items s' else Raise SyntaxError
      end
  end.

Fixpoint lstrip_blank (s : string) : string :=
  match s with
  | EmptyString => EmptyString
  | String c s' => if blank c then lstrip_blank s' else s
  end.

Definition literal_eval (s : string) : result pyval :=
  match lstrip_blank s with
  | String "[" rest =>
      items <- scan Item [] rest ;; Ok (PList (map PStr items))
  | _ => Raise ValueError
  end.

End Ast.

(** ** [collections.Counter]

    A dict keeps its keys in insertion order, so a counter is an association
    list: a new key goes to the end, an old key keeps its place. *)
Module Counter.

Definition t : Type := list (pyval * Z).

(** [self[elem] = self.get(elem, 0) + 1]. *)
Fixpoint incr (k : pyval) (c : t) : t :=
  match c with
  | [] => [(k, 1)]
  | (k', n) :: c' =>
      if pyval_eqb k k' then (k', n + 1) :: c' else (k', n) :: incr k c'
  end.

(** [c.update(iterable)]: hashing an unhashable element raises. *)
Fixpoint update (c : t) (l : list pyval) : result t :=
  match l with
  | [] => Ok c
  | k :: l' => if hashable k then update (incr k c) l' else Raise TypeError
  end.

(** [sorted(l, key=key, reverse=True)]: a stable sort, so equal keys keep
    their original order. *)
Fixpoint insert_desc {A : Type} (key : A -> Z) (x : A) (l : list A) : list A :=
  match l with
  | [] => [x]
  | y :: l' => if key x <? key y then y :: insert_desc key x l' else x :: l
  end.

Fixpoint sorted_desc {A : Type} (key : A -> Z) (l : list A) : list A :=
  match l with
  | [] => []
  | x :: l' => insert_desc key x (sorted_desc key l')
  end.

(** [heapq.nlargest(n, l, key=key)]: [sorted(l, key=key, reverse=True)[:n]],
    and the empty list for [n <= 0]. *)
Definition nlargest {A : Type} (n : Z) (key : A -> Z) (l : list A) : list A :=
  if n <=? 0 then [] else firstn (Z.to_nat n) (sorted_desc key l).

(** [c.most_common(n)]; [None] stands for the call without argument. *)
Definition most_common (n : option Z) (c : t) : list (pyval * Z) :=
  match n with
  | None => sorted_desc snd c
  | Some n => nlargest n snd c
  end.

End Counter.

(** ** Data frames *)

(** A cell of the text column ['aspects'] as [pd.read_csv] yields it: the
    text, or NaN for an empty field. *)
Inductive field : Type :=
| FNaN
| FStr (s : string).

(** The dtype of a column. *)
Inductive dtype : Type :=
| object
| int64
| float64.

Definition is_object (d : dtype) : bool :=
  match d with
  | object => true
  | _ => false
  end.

(** One category record.  [aspects_parsed] is meaningful only in a frame
    whose [columns] list it. *)
Record Row : Type := {
  name : string;
  aspectsCount : Z;
  aspects : field;
  aspects_parsed : pyval
}.

(** A frame of category records.  The counts are integers; the dtype of
    their column is kept apart, since a column without rows ([pd.read_csv]
    of a file that has only its header) has the dtype [object]. *)
Record DataFrame : Type := {
  columns : list string;
  aspectsCount_dtype : dtype;
  rows : list Row
}.

(** [col in df.columns]. *)
Definition has_column (col : string) (df : DataFrame) : bool :=
  existsb (String.eqb col) (columns df).

(** [series.apply(f)]: the first exception ends the loop. *)
Fixpoint apply {A B : Type} (f : A -> result B) (l : list A) : result (list B) :=
  match l with
  | [] => Ok []
  | x :: l' => y <- f x ;; ys <- apply f l' ;; Ok (y :: ys)
  end.

(** ** pages/1_Data_Upload.py: [parse_aspects] *)
Section Parser.

Variable literal_eval : string -> result pyval.

(** [[a.strip() for a in val.split(',') if a.strip()]]. *)
Definition comma_split (val : string) : list string :=
  filter Str.truthy (map Str.strip (Str.split "," val)).

Definition parse_aspects (val : string) : result pyval :=
  try_except
    (if Str.startswith "[" val && Str.endswith "]" val
     then literal_eval val
     else Ok (PList (map PStr (comma_split val))))
    (fun _ => Ok (PList [])).

(** [lambda x: parse_aspects(str(x)) if pd.notnull(x) else []]. *)
Definition aspects_list_cell (x : field) : result pyval :=
  match x with
  | FStr s => parse_aspects s
  | FNaN => Ok (PList [])
  end.

(** [df['aspects_list'] = df['aspects'].apply(...)], under
    [if 'aspects' in df.columns]. *)
Definition aspects_list (df : DataFrame) : result (option (list pyval)) :=
  if has_column "aspects" df
  then l <- apply aspects_list_cell (map aspects (rows df)) ;; Ok (Some l)
  else Ok None.

End Parser.

(** ** utils.py: [process_csv] *)

Record Series : Type := {
  series_dtype : dtype;
  series_values : list field
}.

(** The uploaded review file: its header and its ['aspects'] column. *)
Record ReviewFrame : Type := {
  review_columns : list string;
  review_aspects : Series
}.

Definition required_columns : list string :=
  ["review_id"; "review_text"; "category"; "aspects"].

(** [.str.split(',')] keeps NaN; the lambda strips the pieces of a list and
    gives [[]] for anything else. *)
Definition split_strip (x : field) : list string :=
  match x with
  | FStr s => map Str.strip (Str.split "," s)
  | FNaN => []
  end.

(** [process_csv]: the new column ['aspects_list'], or [None] after
    [st.error].  [read] is the outcome of [pd.read_csv(uploaded_file)]. *)
Definition process_csv (read : result ReviewFrame) : option (list (list string)) :=
  match read with
  | Raise _ => None
  | Ok df =>
      let missing_columns :=
        filter (fun col => negb (existsb (String.eqb col) (review_columns df)))
               required_columns in
      match missing_columns with
      | _ :: _ => None
      | [] =>
          match series_dtype (review_aspects df) with
          | object => Some (map split_strip (series_values (review_aspects df)))
          | _ => None
          end
      end
  end.

(** ** utils.py: [load_category_data] *)
Section Load.

Variable literal_eval : string -> result pyval.

(** [pd.read_csv(file_path)]. *)
Variable read_csv : string -> result DataFrame.

(** [df.sample(n=max_rows, random_state=42)]. *)
Variable sample : Z -> DataFrame -> result DataFrame.

(** [lambda x: ast.literal_eval(x)
      if isinstance(x, str) and x.strip().startswith("[") else []]. *)
Definition parse_cell (x : field) : result pyval :=
  match x with
  | FStr s =>
      if Str.startswith "[" (Str.strip s) then literal_eval s else Ok (PList [])
  | FNaN => Ok (PList [])
  end.

Definition set_aspects_parsed (r : Row) (v : pyval) : Row :=
  {| name := name r; aspectsCount := aspectsCount r; aspects := aspects r;
     aspects_parsed := v |}.

(** [df['aspects_parsed'] = values]. *)
Definition assign_aspects_parsed (df : DataFrame) (values : list pyval)
  : DataFrame :=
  {| columns := if has_column "aspects_parsed" df then columns df
                else (columns df ++ ["aspects_parsed"])%list;
     aspectsCount_dtype := aspectsCount_dtype df;
     rows := map (fun rv => set_aspects_parsed (fst rv) (snd rv))
                 (combine (rows df) values) |}.

Definition load_category_data_body (file_path : string) (max_rows : Z)
  : result DataFrame :=
  df <- read_csv file_path ;;
  df <- (if max_rows <? Z.of_nat (List.length (rows df))
         then sample max_rows df else Ok df) ;;
  if has_column "aspects" df
  then parsed <- apply parse_cell (map aspects (rows df)) ;;
       Ok (assign_aspects_parsed df parsed)
  else Ok df.

(** The whole body runs under [try]; [except Exception] reports through
    [st.error] and returns [None]. *)
Definition load_category_data (file_path : string) (max_rows : Z)
  : result (option DataFrame) :=
  try_except (df <- load_category_data_body file_path max_rows ;; Ok (Some df))
             (fun _ => Ok None).

End Load.

(** ** utils.py: [analyze_category_aspects] *)

(** The frame with the columns ['aspect'] and ['count'], row by row. *)
Definition FreqTable : Type := list (pyval * Z).

(** The loop over [df['aspects_parsed']]: a list updates the counter, any
    other cell is skipped. *)
Fixpoint count_cells (aspect_counts : Counter.t) (cells : list pyval)
  : result Counter.t :=
  match cells with
  | [] => Ok aspect_counts
  | aspects_list :: cells' =>
      match aspects_list with
      | PList l => c <- Counter.update aspect_counts l ;; count_cells c cells'
      | _ => count_cells aspect_counts cells'
      end
  end.

Definition analyze_category_aspects (df : option DataFrame)
  : result (option FreqTable) :=
  match df with
  | None => Ok None
  | Some df =>
      if negb (has_column "aspects_parsed" df) then Ok None
      else
        aspect_counts <- count_cells [] (map aspects_parsed (rows df)) ;;
        Ok (Some (Counter.most_common None aspect_counts))
  end.

(** ** utils.py: [create_aspect_category_matrix] *)

(** A row of [matrix_data]: a dict from column name to cell. *)
Definition dict : Type := list (string * pyval).

(** [d[k] = v]. *)
Fixpoint dict_set (k : string) (v : pyval) (d : dict) : dict :=
  match d with
  | [] => [(k, v)]
  | (k', v') :: d' =>
      if String.eqb k k' then (k', v) :: d' else (k', v') :: dict_set k v d'
  end.

(** [d.get(k)]. *)
Fixpoint dict_get (k : string) (d : dict) : option pyval :=
  match d with
  | [] => None
  | (k', v) :: d' => if String.eqb k k' then Some v else dict_get k d'
  end.

Record Matrix : Type := {
  matrix_columns : list string;
  matrix_rows : list dict
}.

Definition add_column (cols : list string) (k : string) : list string :=
  if existsb (String.eqb k) cols then cols else (cols ++ [k])%list.

(** [pd.DataFrame(matrix_data)] for a list of dicts: the columns are the keys
    in the order they are first met. *)
Definition DataFrame_of_records (data : list dict) : Matrix :=
  {| matrix_columns :=
       fold_left (fun cols d => fold_left add_column (map fst d) cols) data [];
     matrix_rows := data |}.

(** [df.nlargest(n, 'aspectsCount')]: the first [n] rows by descending
    [aspectsCount], equal counts in their original order (keep='first').
    pandas looks the column up, then refuses a column of dtype [object]. *)
Definition nlargest (n : Z) (df : DataFrame) : result DataFrame :=
  if has_column "aspectsCount" df
  then if is_object (aspectsCount_dtype df) then Raise TypeError
       else Ok {| columns := columns df;
                  aspectsCount_dtype := aspectsCount_dtype df;
                  rows := Counter.nlargest n aspectsCount (rows df) |}
  else Raise KeyError.

(** [df[col]] for the column ['name']. *)
Definition column_name (df : DataFrame) : result (list string) :=
  if has_column "name" df then Ok (map name (rows df)) else Raise KeyError.

(** [df.loc[df['name'] == category, 'aspects_parsed'].values]. *)
Definition aspects_in_category (df : DataFrame) (category : string)
  : list pyval :=
  map aspects_parsed (filter (fun r => String.eqb (name r) category) (rows df)).

(** The value stored at [row[category]]. *)
Definition presence (df : DataFrame) (aspect : pyval) (category : string) : Z :=
  match aspects_in_category df category with
  | PList l :: _ => if contains aspect l then 1 else 0
  | _ => 0
  end.

(** [row = {'aspect': aspect}] followed by the loop over the category
    names. *)
Definition row_for (df : DataFrame) (names : list string) (aspect : pyval)
  : dict :=
  fold_left
    (fun row category => dict_set category (PInt (presence df aspect category)) row)
    names [("aspect", aspect)].

(** The body of [for aspect in top_aspects]. *)
Definition matrix_row (df top_categories : DataFrame) (aspect : pyval)
  : result dict :=
  names <- column_name top_categories ;;
  Ok (row_for df names aspect).

Definition create_aspect_category_matrix
  (df : option DataFrame) (max_aspects max_categories : Z)
  : result (option Matrix) :=
  match df with
  | None => Ok None
  | Some df =>
      if negb (has_column "aspects_parsed" df) then Ok None
      else
        aspect_counts <- count_cells [] (map aspects_parsed (rows df)) ;;
        let top_aspects :=
          map fst (Counter.most_common (Some max_aspects) aspect_counts) in
        top_categories <- nlargest max_categories df ;;
        matrix_data <- apply (matrix_row df top_categories) top_aspects ;;
        Ok (Some (DataFrame_of_records matrix_data))
  end.

(** The cell of the matrix in row [i] (the [i]-th selected aspect) and
    column [col]. *)
Definition cell (m : Matrix) (i : nat) (col : string) : option pyval :=
  match nth_error (matrix_rows m) i with
  | Some row => dict_get col row
  | None => None
  end.

(** ** pages/3_Category_Analysis.py *)

(** float64 arithmetic, as the IEEE 754 binary64 format specifies it:
    the operations of [SpecFloat] at 53 bits of precision, rounding to
    nearest, ties to even. *)
Module F64.

Definition prec : Z := 53.

Definition emax : Z := 1024.

(** [float(z)]. *)
Definition of_Z (z : Z) : spec_float := binary_normalize prec emax z 0 false.

Definition add : spec_float -> spec_float -> spec_float := SFadd prec emax.

Definition div : spec_float -> spec_float -> spec_float := SFdiv prec emax.

Definition zero : spec_float := S754_zero false.

(** The sum of a float64 array, added from left to right.  numpy adds
    longer arrays in blocks; the two orders give one result as long as no
    partial sum is rounded. *)
Definition sum (l : list spec_float) : spec_float := fold_left add l zero.

(** The number a finite float stands for. *)
Definition to_Q (x : spec_float) : option Q :=
  match x with
  | S754_zero _ => Some 0%Q
  | S754_finite s m e =>
      Some (inject_Z (if s then Z.neg m else Z.pos m) * Qpower 2 e)%Q
  | _ => None
  end.

End F64.

Record Summary : Type := {
  total_categories : Z;
  categories_with_aspects : Z;
  categories_without_aspects : Z;
  avg_aspects : spec_float
}.

(** [series.mean()] of a column of integers: the sum of the values as
    float64 over their number as float64, NaN for an empty series. *)
Definition mean (l : list Z) : spec_float :=
  match l with
  | [] => S754_nan
  | _ => F64.div (F64.sum (map F64.of_Z l))
                 (F64.of_Z (Z.of_nat (List.length l)))
  end.

(** The header statistics; [category_data['aspectsCount']] needs the column. *)
Definition summary (category_data : DataFrame) : result Summary :=
  if has_column "aspectsCount" category_data then
    let total := Z.of_nat (List.length (rows category_data)) in
    let with_aspects :=
      Z.of_nat (List.length (filter (fun r => 0 <? aspectsCount r)
                                    (rows category_data))) in
    Ok {| total_categories := total;
          categories_with_aspects := with_aspects;
          categories_without_aspects := total - with_aspects;
          avg_aspects := mean (map aspectsCount (rows category_data)) |}
  else Raise KeyError.

(** [aspect_freq.head(min(20, len(aspect_freq)))]. *)
Definition top_aspects (aspect_freq : FreqTable) : FreqTable :=
  firstn (Nat.min 20 (List.length aspect_freq)) aspect_freq.

(** [t.sort_values(by="count", ascending=True)].  The call leaves
    [kind='quicksort'], which pandas documents as not stable: the rows come
    out in ascending order of count, rows of equal count in an order the
    call does not fix.  So the result is a relation. *)
Definition sort_values_count (t t' : FreqTable) : Prop :=
  Permutation t t' /\ StronglySorted (fun a b => snd a <= snd b) t'.

(** [aspect_freq.sort_values(by="count", ascending=True).head(bottom_n)]. *)
Definition bottom_aspects (aspect_freq view : FreqTable) : Prop :=
  exists sorted,
    sort_values_count aspect_freq sorted
    /\ view = firstn (Nat.min 20 (List.length aspect_freq)) sorted.

(** ** The two-category example *)

Definition example_csv : DataFrame :=
  {| columns := ["name"; "aspectsCount"; "aspects"];
     aspectsCount_dtype := int64;
     rows := [ {| name := "Electronics"; aspectsCount := 2;
                  aspects := FStr "['Product/Price','Service/Staff']";
                  aspects_parsed := PNone |};
               {| name := "Food"; aspectsCount := 1;
                  aspects := FStr "Product/Price";
                  aspects_parsed := PNone |} ] |}.

(** A file whose only category has a bracketed field that is no literal. *)
Definition malformed_csv : DataFrame :=
  {| columns := ["name"; "aspectsCount"; "aspects"];
     aspectsCount_dtype := int64;
     rows := [ {| name := "Food"; aspectsCount := 2;
                  aspects := FStr "[a, b]";
                  aspects_parsed := PNone |} ] |}.

(** A frame with the parsed column, built from names, counts and cells. *)
Definition parsed_frame (l : list (string * Z * pyval)) : DataFrame :=
  {| columns := ["name"; "aspectsCount"; "aspects"; "aspects_parsed"];
     aspectsCount_dtype := int64;
     rows := map (fun x => {| name := fst (fst x); aspectsCount := snd (fst x);
                              aspects := FNaN; aspects_parsed := snd x |}) l |}.

(** The example as [load_category_data] returns it. *)
Definition example_loaded : DataFrame :=
  {| columns := ["name"; "aspectsCount"; "aspects"; "aspects_parsed"];
     aspectsCount_dtype := int64;
     rows := [ {| name := "Electronics"; aspectsCount := 2;
                  aspects := FStr "['Product/Price','Service/Staff']";
                  aspects_parsed :=
                    PList [PStr "Product/Price"; PStr "Service/Staff"] |};
               {| name := "Food"; aspectsCount := 1;
                  aspects := FStr "Product/Price";
                  aspects_parsed := PList [] |} ] |}.

(** What [load_category_data] returns for a file that has only its header:
    no rows, every column of dtype [object]. *)
Definition header_only_loaded : DataFrame :=
  {| columns := ["name"; "aspectsCount"; "aspects"; "aspects_parsed"];
     aspectsCount_dtype := object;
     rows := [] |}.

(** The frame [pd.read_csv] yields for a file that has only its header. *)
Definition header_only_csv : DataFrame :=
  {| columns := ["name"; "aspectsCount"; "aspects"];
     aspectsCount_dtype := object;
     rows := [] |}.

(** A file whose only category has no aspect: its field is empty. *)
Definition no_aspects_csv : DataFrame :=
  {| columns := ["name"; "aspectsCount"; "aspects"];
     aspectsCount_dtype := int64;
     rows := [ {| name := "Food"; aspectsCount := 0; aspects := FNaN;
                  aspects_parsed := PNone |} ] |}.

(** Three categories with 1, 1 and 2 aspects. *)
Definition thirds_csv : DataFrame :=
  {| columns := ["name"; "aspectsCount"; "aspects"];
     aspectsCount_dtype := int64;
     rows := [ {| name := "A"; aspectsCount := 1; aspects := FStr "['x']";
                  aspects_parsed := PNone |};
               {| name := "B"; aspectsCount := 1; aspects := FStr "['y']";
                  aspects_parsed := PNone |};
               {| name := "C"; aspectsCount := 2; aspects := FStr "['x', 'y']";
                  aspects_parsed := PNone |} ] |}.

(** The two categories with both aspect lists parsed. *)
Definition example_parsed : DataFrame :=
  parsed_frame
    [("Electronics", 2, PList [PStr "Product/Price"; PStr "Service/Staff"]);
     ("Food", 1, PList [PStr "Product/Price"])].

(** Two categories that share a name. *)
Definition duplicate_names_frame : DataFrame :=
  parsed_frame [("A", 3, PList [PStr "x"]);
                ("A", 2, PList [PStr "y"]);
                ("B", 1, PList [PStr "x"])].

(** One category without aspects. *)
Definition no_aspects_frame : DataFrame :=
  parsed_frame [("Food", 0, PList [])].

(** A parsed cell that holds a list inside the list. *)
Definition nested_frame : DataFrame :=
  parsed_frame [("A", 1, PList [PList []])].

(** Three categories over twenty-five aspects: "a" to "e" are listed by all
    three, "f" to "j" by two of them, "k" to "y" by the first only. *)
Definition aspects_a_e : list string := ["a"; "b"; "c"; "d"; "e"].

Definition aspects_f_j : list string := ["f"; "g"; "h"; "i"; "j"].

Definition aspects_k_y : list string :=
  ["k"; "l"; "m"; "n"; "o"; "p"; "q"; "r"; "s"; "t"; "u"; "v"; "w"; "x"; "y"].

Definition mixed_frame : DataFrame :=
  parsed_frame
    [("C1", 25, PList (map PStr (aspects_a_e ++ aspects_f_j ++ aspects_k_y)));
     ("C2", 10, PList (map PStr (aspects_a_e ++ aspects_f_j)));
     ("C3", 5, PList (map PStr aspects_a_e))].

Definition counted (n : Z) (l : list string) : FreqTable :=
  map (fun a => (PStr a, n)) l.

(** The frequency table of [mixed_frame]. *)
Definition mixed_table : FreqTable :=
  (counted 3 aspects_a_e ++ counted 2 aspects_f_j ++ counted 1 aspects_k_y)%list.

(** Two ascending arrangements of the rows of [mixed_table]: the one a
    bitonic sorting network on thirty-two places leaves when it exchanges
    two rows only if their counts are out of order, and the one a quicksort
    with median-of-three pivots and insertion sort on short ranges leaves;
    [kind='quicksort'] stands for either, by the build of numpy. *)
Definition mixed_sorted : FreqTable :=
  (counted 1 ["m"; "n"; "p"; "o"; "k"; "l"; "r"; "y"; "x"; "w"; "v"; "u";
              "t"; "s"; "q"]
   ++ counted 2 ["g"; "h"; "j"; "f"; "i"]
   ++ counted 3 ["e"; "c"; "b"; "a"; "d"])%list.

Definition mixed_sorted_quicksort : FreqTable :=
  (counted 1 ["m"; "w"; "v"; "u"; "t"; "s"; "r"; "q"; "p"; "o"; "n"; "x";
              "y"; "k"; "l"]
   ++ counted 2 ["j"; "i"; "h"; "g"; "f"]
   ++ counted 3 ["e"; "d"; "c"; "b"; "a"])%list.

(** Their first twenty rows. *)
Definition mixed_view : FreqTable := firstn 20 mixed_sorted.

Definition mixed_view_quicksort : FreqTable := firstn 20 mixed_sorted_quicksort.

(** ** Vocabulary of the statements *)

(** A string made of whitespace only. *)
Fixpoint all_space (s : string) : bool :=
  match s with
  | EmptyString => true
  | String c s' => Str.isspace c && all_space s'
  end.

(** The elements a cell feeds to the counter. *)
Definition elements (v : pyval) : list pyval :=
  match v with
  | PList l => l
  | _ => []
  end.

(** Every aspect occurrence of the frame, in the order the loop meets them. *)
Definition occurrences (df : DataFrame) : list pyval :=
  flat_map elements (map aspects_parsed (rows df)).

(** [len(v)] of a list cell. *)
Definition len (v : pyval) : Z :=
  match v with
  | PList l => Z.of_nat (List.length l)
  | _ => 0
  end.

(** Every list cell holds hashable values only (aspect strings are). *)
Definition cells_hashable (df : DataFrame) : bool :=
  forallb (fun v => forallb hashable (elements v)) (map aspects_parsed (rows df)).

(** Every cell is a list of hashable values. *)
Definition cells_are_lists (df : DataFrame) : bool :=
  forallb (fun v => isinstance_list v && forallb hashable (elements v))
          (map aspects_parsed (rows df)).

(** The counter after the loop, for cells that raise nothing. *)
Definition counter_of (s : list pyval) : Counter.t :=
  fold_left (fun c k => Counter.incr k c) s [].

Definition sum_counts (t : FreqTable) : Z :=
  fold_right (fun p acc => snd p + acc) 0 t.

(** Position of the first occurrence of [a] in [s] ([length s] if none). *)
Fixpoint first_pos (a : pyval) (s : list pyval) : nat :=
  match s with
  | [] => 0%nat
  | x :: s' => if pyval_eqb a x then 0%nat else S (first_pos a s')
  end.

(** [x] stands at an earlier position of [l] than [y]. *)
Inductive before {A : Type} : list A -> A -> A -> Prop :=
| before_here (x : A) (l : list A) (y : A) : In y l -> before (x :: l) x y
| before_later (z : A) (l : list A) (x y : A) :
    before l x y -> before (z :: l) x y.

(** Descending by [key], equal keys in the order of [l]. *)
Definition ranked {A : Type} (key : A -> Z) (l : list A) (x y : A) : Prop :=
  key y < key x \/ (key x = key y /\ before l x y).

(** Descending by count, equal counts by first occurrence in [s]. *)
Definition most_used_order (s : list pyval) (x y : pyval * Z) : Prop :=
  snd y < snd x
  \/ (snd x = snd y /\ (first_pos (fst x) s < first_pos (fst y) s)%nat).

(** Ascending by count, equal counts by first occurrence in [s]. *)
Definition least_used_order (s : list pyval) (x y : pyval * Z) : Prop :=
  snd x < snd y
  \/ (snd x = snd y /\ (first_pos (fst x) s < first_pos (fst y) s)%nat).

(** [l] without its first row equal to [x], when there is one. *)
Fixpoint take_out (x : pyval * Z) (l : FreqTable) : option FreqTable :=
  match l with
  | [] => None
  | y :: l' =>
      if pyval_eqb (fst x) (fst y) && (snd x =? snd y) then Some l'
      else option_map (cons y) (take_out x l')
  end.

(** [l'] holds the rows of [l], each as often, in some order. *)
Fixpoint rearranged (l l' : FreqTable) : bool :=
  match l with
  | [] => match l' with [] => true | _ => false end
  | x :: l0 =>
      match take_out x l' with
      | Some r => rearranged l0 r
      | None => false
      end
  end.

(** [a in v] when [v] is a list, false for any other cell. *)
Definition occurs (a : pyval) (v : pyval) : bool :=
  match v with
  | PList l => contains a l
  | _ => false
  end.

(** The aspects that become the rows of the matrix. *)
Definition selected_aspects (df : DataFrame) (max_aspects : Z) : list pyval :=
  map fst (Counter.most_common (Some max_aspects) (counter_of (occurrences df))).

(** The categories that become the columns of the matrix. *)
Definition selected_categories (df : DataFrame) (max_categories : Z) : list Row :=
  Counter.nlargest max_categories aspectsCount (rows df).

(** The distinct aspects of the frame. *)
Definition distinct_aspects (df : DataFrame) : list pyval :=
  nodup pyval_eq_dec (occurrences df).

(** The field takes the decoding branch of [load_category_data]. *)
Definition bracketed (x : field) : bool :=
  match x with
  | FStr s => Str.startswith "[" (Str.strip s)
  | FNaN => false
  end.

(** The frame without the rows whose field is not decoded. *)
Definition keep_bracketed (df : DataFrame) : DataFrame :=
  {| columns := columns df;
     aspectsCount_dtype := aspectsCount_dtype df;
     rows := filter (fun r => bracketed (aspects r)) (rows df) |}.

(** What the analysis needs of a frame that has the parsed column: the
    columns [name] and [aspectsCount], the latter numeric, and aspect lists
    that can be counted. *)
Definition well_typed (df : option DataFrame) : bool :=
  match df with
  | None => true
  | Some d =>
      if has_column "aspects_parsed" d
      then has_column "name" d && has_column "aspectsCount" d
           && negb (is_object (aspectsCount_dtype d)) && cells_hashable d
      else true
  end.

(** The nearest integer to [n / d], ties to the even one. *)
Definition rnd_div (n d : Z) : Z :=
  let q := n / d in
  match 2 * (n mod d) ?= d with
  | Lt => q
  | Gt => q + 1
  | Eq => if Z.even q then q else q + 1
  end.

(** The 53-bit mantissa of the float of a positive integer below 2^53. *)
Definition mant (v : positive) : positive :=
  Z.to_pos (Z.pos v * 2 ^ (53 - Z.pos (digits2_pos v))).

(** The sum of the counts of a frame. *)
Definition counts_total (df : DataFrame) : Z :=
  fold_right Z.add 0 (map aspectsCount (rows df)).

(** ** Further code of the same files *)

(** [c in s] for a one-character [c]. *)
Fixpoint contains_char (c : ascii) (s : string) : bool :=
  match s with
  | EmptyString => false
  | String d s' => Ascii.eqb d c || contains_char c s'
  end.

(** [s.count(c)]. *)
Fixpoint count_char (c : ascii) (s : string) : nat :=
  match s with
  | EmptyString => 0%nat
  | String d s' => ((if Ascii.eqb d c then 1 else 0) + count_char c s')%nat
  end.

(** The count a frequency table shows for an aspect, 0 when it has no row. *)
Fixpoint table_count (a : pyval) (t : FreqTable) : Z :=
  match t with
  | [] => 0
  | (k, n) :: t' => if pyval_eqb a k then n else table_count a t'
  end.

(** The first row of the frame that carries the name. *)
Definition first_named (df : DataFrame) (n : string) : option Row :=
  find (fun r => String.eqb (name r) n) (rows df).

(** A frame with the same columns and the given rows. *)
Definition with_rows (df : DataFrame) (rs : list Row) : DataFrame :=
  {| columns := columns df;
     aspectsCount_dtype := aspectsCount_dtype df;
     rows := rs |}.

(** *** pages/1_Data_Upload.py: the custom categories upload *)
Section CustomUpload.

Variable json_loads : string -> result pyval.
Variable literal_eval : string -> result pyval.

(** [lambda x: decode(x) if isinstance(x, str) and x.strip() else []]. *)
Definition custom_cell (decode : string -> result pyval) (x : field)
  : result pyval :=
  match x with
  | FStr s => if Str.truthy (Str.strip s) then decode s else Ok (PList [])
  | FNaN => Ok (PList [])
  end.

(** The inner [try] applies [json.loads] to the column; its bare [except]
    starts over with [ast.literal_eval]. *)
Definition custom_aspects_parsed (cells : list field) : result (list pyval) :=
  try_except (apply (custom_cell json_loads) cells)
             (fun _ => apply (custom_cell literal_eval) cells).

(** The column step of the upload: the frame that is stored, or [None] when
    the outer [except] reports the error. *)
Definition custom_upload (df : DataFrame) : option DataFrame :=
  if has_column "aspects" df
  then match custom_aspects_parsed (map aspects (rows df)) with
       | Ok parsed => Some (assign_aspects_parsed df parsed)
       | Raise _ => None
       end
  else Some df.

End CustomUpload.

(** *** pages/3_Category_Analysis.py: the category explorer and the tabs *)

(** [aspect.split('/')[0] if '/' in aspect else 'Other']. *)
Definition aspect_type (aspect : string) : string :=
  if contains_char "/" aspect
  then nth 0 (Str.split "/" aspect) EmptyString
  else "Other".

(** [aspect.split('/')[1] if '/' in aspect else aspect]. *)
Definition aspect_subtype (aspect : string) : string :=
  if contains_char "/" aspect
  then nth 1 (Str.split "/" aspect) EmptyString
  else aspect.

(** [category_data[category_data['aspectsCount'] == 0]]. *)
Definition categories_no_aspects (category_data : DataFrame) : list Row :=
  filter (fun r => aspectsCount r =? 0) (rows category_data).

(** [matrix_df.loc[:, visible_cols]] on one row. *)
Definition select_cells (cols : list string) (row : dict) : dict :=
  flat_map (fun c => match dict_get c row with
                     | Some v => [(c, v)]
                     | None => []
                     end) cols.

(** The part of the matrix the heat map shows:
    [visible_cols = ["aspect"] + list(matrix_df.columns[1 : max_categories + 1])]
    and [matrix_df.loc[:, visible_cols].head(max_aspects)], both caps 500.
    [.loc] raises KeyError for a label that is not a column. *)
Definition matrix_subset (matrix_df : Matrix) : result Matrix :=
  let visible_cols := "aspect" :: firstn 500 (tl (matrix_columns matrix_df)) in
  if forallb (fun c => existsb (String.eqb c) (matrix_columns matrix_df))
             visible_cols
  then Ok {| matrix_columns := visible_cols;
             matrix_rows := map (select_cells visible_cols)
                                (firstn 500 (matrix_rows matrix_df)) |}
  else Raise KeyError.

(** *** utils.py: [analyze_aspects] and the functions on its result *)

(** A review after [process_csv]: its ['category'] and its
    ['aspects_list']. *)
Record Review : Type := {
  review_category : string;
  review_aspects_list : list string
}.

(** A row of [analysis_data]. *)
Record AnalysisRow : Type := {
  row_category : string;
  row_aspect : string;
  row_count : Z;
  row_total_reviews : Z;
  row_percentage : Q;
  row_is_low_percentage : bool
}.

(** [series.unique()]: the values in the order they first appear. *)
Definition unique (l : list string) : list string :=
  fold_left add_column l [].

(** [aspect_counts[aspect] = aspect_counts.get(aspect, 0) + 1]. *)
Fixpoint count_aspect (aspect : string) (aspect_counts : list (string * Z))
  : list (string * Z) :=
  match aspect_counts with
  | [] => [(aspect, 1)]
  | (k, n) :: d =>
      if String.eqb aspect k then (k, n + 1) :: d
      else (k, n) :: count_aspect aspect d
  end.

(** [df[df['category'] == category]]. *)
Definition reviews_of (df : list Review) (cat : string) : list Review :=
  filter (fun r => String.eqb (review_category r) cat) df.

(** The loop over the aspect lists of the reviews of a category and the
    loop over each list. *)
Definition category_aspect_counts (category_reviews : list Review)
  : list (string * Z) :=
  fold_left
    (fun aspect_counts aspect_list =>
       fold_left (fun d aspect => count_aspect aspect d) aspect_list aspect_counts)
    (map review_aspects_list category_reviews) [].

(** [(count / total_category_reviews) * 100] as the exact quotient; the code
    holds its float64 rounding. *)
Definition percentage_of (count total : Z) : Q :=
  (inject_Z count / inject_Z total) * inject_Z 100.

(** [percentage < 5.0]. *)
Definition is_low (percentage : Q) : bool :=
  negb (Qle_bool (inject_Z 5) percentage).

(** The rows appended for one category. *)
Definition category_rows (df : list Review) (cat : string) : list AnalysisRow :=
  let category_reviews := reviews_of df cat in
  let total_category_reviews := Z.of_nat (List.length category_reviews) in
  map (fun ac =>
         let percentage := percentage_of (snd ac) total_category_reviews in
         {| row_category := cat;
            row_aspect := fst ac;
            row_count := snd ac;
            row_total_reviews := total_category_reviews;
            row_percentage := percentage;
            row_is_low_percentage := is_low percentage |})
      (category_aspect_counts category_reviews).

(** [analysis_data] after the loop over [df['category'].unique()]. *)
Definition analysis_data (df : list Review) : list AnalysisRow :=
  flat_map (category_rows df) (unique (map review_category df)).

(** Sorting strings the way pandas sorts group keys: by code points. *)
Fixpoint insert_string (x : string) (l : list string) : list string :=
  match l with
  | [] => [x]
  | y :: l' => if String.leb x y then x :: l else y :: insert_string x l'
  end.

Definition sort_strings (l : list string) : list string :=
  fold_right insert_string [] l.

(** The keys of a [groupby] or of a pivot axis: distinct and sorted. *)
Definition group_keys (l : list string) : list string :=
  sort_strings (unique l).

(** [values.mean()] of a group that is not empty, as the exact quotient;
    the code holds its float64 rounding. *)
Definition mean_Q (l : list Q) : Q :=
  fold_right Qplus 0%Q l / inject_Z (Z.of_nat (List.length l)).

(** The pivot table after [reset_index]: the column names and, for each
    aspect, the cells of the category columns. *)
Record PivotTable : Type := {
  pivot_columns : list string;
  pivot_rows : list (string * list (string * Q))
}.

(** A cell of the pivot: the mean of the percentages of the rows with that
    aspect and category, [fill_value=0] when there is none. *)
Definition pivot_value (analysis_df : list AnalysisRow) (aspect cat : string)
  : Q :=
  match map row_percentage
            (filter (fun r => String.eqb (row_aspect r) aspect
                              && String.eqb (row_category r) cat)
                    analysis_df) with
  | [] => 0%Q
  | l => mean_Q l
  end.

(** [analysis_df.pivot_table(index='aspect', columns='category',
     values='percentage', fill_value=0).reset_index()].  [reset_index]
    raises ValueError when a column already has the name of the index. *)
Definition pivot_table (analysis_df : list AnalysisRow) : result PivotTable :=
  let categories := group_keys (map row_category analysis_df) in
  if existsb (String.eqb "aspect") categories then Raise ValueError
  else Ok {| pivot_columns := "aspect" :: categories;
             pivot_rows :=
               map (fun a => (a, map (fun c => (c, pivot_value analysis_df a c))
                                     categories))
                   (group_keys (map row_aspect analysis_df)) |}.

(** [analyze_aspects]; [None] stands for the pair [(None, None)]. *)
Definition analyze_aspects (df : option (list Review))
  : result (option (list AnalysisRow * PivotTable)) :=
  match df with
  | None => Ok None
  | Some [] => Ok None
  | Some df =>
      match analysis_data df with
      | [] => Ok None
      | analysis_df =>
          pivot_df <- pivot_table analysis_df ;;
          Ok (Some (analysis_df, pivot_df))
      end
  end.

(** [df.head(n)]: the first [n] rows, all but the last [-n] for a negative
    [n]. *)
Definition df_head {A : Type} (n : Z) (l : list A) : list A :=
  if 0 <=? n then firstn (Z.to_nat n) l
  else firstn (List.length l - Z.to_nat (- n)) l.

(** [analysis_df.groupby('aspect')['count'].sum().reset_index()]. *)
Definition aspect_totals (analysis_df : list AnalysisRow) : list (string * Z) :=
  map (fun a =>
         (a, fold_right Z.add 0
               (map row_count
                    (filter (fun r => String.eqb (row_aspect r) a) analysis_df))))
      (group_keys (map row_aspect analysis_df)).

(** [sort_values('count', ascending=False)], again with the default sort
    that is not stable. *)
Definition sort_values_count_desc (t t' : list (string * Z)) : Prop :=
  Permutation t t' /\ StronglySorted (fun a b => snd b <= snd a) t'.

(** [get_top_aspects]: the results the call may return. *)
Definition get_top_aspects (analysis_df : option (list AnalysisRow)) (top_n : Z)
  (out : option (list (string * Z))) : Prop :=
  match analysis_df with
  | None => out = None
  | Some [] => out = None
  | Some rows =>
      exists sorted,
        sort_values_count_desc (aspect_totals rows) sorted
        /\ out = Some (df_head top_n sorted)
  end.

(** [sort_values('percentage')]. *)
Definition sort_values_percentage (t t' : list AnalysisRow) : Prop :=
  Permutation t t'
  /\ StronglySorted (fun a b => (row_percentage a <= row_percentage b)%Q) t'.

(** [get_low_percentage_aspects]: the results the call may return. *)
Definition get_low_percentage_aspects (analysis_df : option (list AnalysisRow))
  (out : option (list AnalysisRow)) : Prop :=
  match analysis_df with
  | None => out = None
  | Some [] => out = None
  | Some rows =>
      exists sorted,
        sort_values_percentage (filter row_is_low_percentage rows) sorted
        /\ out = Some sorted
  end.

(** [get_aspect_distribution]: per category, the number of distinct
    aspects. *)
Definition get_aspect_distribution (analysis_df : option (list AnalysisRow))
  : option (list (string * Z)) :=
  match analysis_df with
  | None => None
  | Some [] => None
  | Some rows =>
      Some (map (fun c =>
                   (c, Z.of_nat
                         (List.length
                            (unique (map row_aspect
                                         (filter (fun r => String.eqb (row_category r) c)
                                                 rows))))))
                (group_keys (map row_category rows)))
  end.

(** [aspect_counts.get(a, 0)]. *)
Fixpoint counts_get (a : string) (d : list (string * Z)) : Z :=
  match d with
  | [] => 0
  | (k, n) :: d' => if String.eqb a k then n else counts_get a d'
  end.

(** The aspects met in the reviews of a category, in the order of the
    loops. *)
Definition category_occurrences (df : list Review) (cat : string) : list string :=
  List.concat (map review_aspects_list (reviews_of df cat)).

(** Three reviews in two categories; the first lists an aspect twice. *)
Definition example_reviews : list Review :=
  [ {| review_category := "phone";
       review_aspects_list := ["battery"; "battery"; "price"] |};
    {| review_category := "laptop"; review_aspects_list := ["price"] |};
    {| review_category := "phone"; review_aspects_list := ["design"] |} ].

(** Forty-one reviews of one category: all list "common", the first two
    list "scarce" and the first lists "rare". *)
Definition low_reviews : list Review :=
  {| review_category := "phone";
     review_aspects_list := ["scarce"; "rare"; "common"] |}
  :: {| review_category := "phone";
        review_aspects_list := ["scarce"; "common"] |}
  :: repeat {| review_category := "phone"; review_aspects_list := ["common"] |}
            39.

(** The row of an aspect listed [n] times in the forty-one reviews. *)
Definition low_row (aspect : string) (n : Z) : AnalysisRow :=
  {| row_category := "phone"; row_aspect := aspect; row_count := n;
     row_total_reviews := 41; row_percentage := percentage_of n 41;
     row_is_low_percentage := is_low (percentage_of n 41) |}.

(** The rows of [low_reviews] under 5 percent, by ascending percentage. *)
Definition low_view : list AnalysisRow := [low_row "rare" 1; low_row "scarce" 2].

(** ** String facts *)

Lemma all_space_lstrip (s : string) :
  all_space s = true -> Str.lstrip s = EmptyString.
Proof.
  induction s as [|c s IH]; simpl; intros H; [reflexivity|].
  apply andb_true_iff in H as [Hc Hs]. rewrite Hc. auto.
Qed.

Lemma all_space_strip (s : string) :
  all_space s = true -> Str.strip s = EmptyString.
Proof.
  intros H. unfold Str.strip. rewrite all_space_lstrip by assumption.
  reflexivity.
Qed.

Lemma all_space_split (s : string) :
  all_space s = true -> Str.split "," s = [s].
Proof.
  induction s as [|c s IH]; simpl; intros H; [reflexivity|].
  apply andb_true_iff in H as [Hc Hs].
  destruct (Ascii.eqb c ",") eqn:E.
  - apply Ascii.eqb_eq in E. subst c. discriminate Hc.
  - rewrite IH by assumption. reflexivity.
Qed.

Lemma all_space_not_bracket (s : string) :
  all_space s = true -> Str.startswith "[" s = false.
Proof.
  destruct s as [|c s]; intros H; [reflexivity|].
  simpl in H. apply andb_true_iff in H as [Hc _].
  unfold Str.startswith, String.prefix.
  destruct (ascii_dec "[" c) as [<-|]; [discriminate Hc|reflexivity].
Qed.

Lemma rstrip_rstrip (s : string) : Str.rstrip (Str.rstrip s) = Str.rstrip s.
Proof.
  induction s as [|c s IH]; simpl; [reflexivity|].
  destruct (Str.rstrip s) as [|d r] eqn:E.
  - destruct (Str.isspace c) eqn:Hc; simpl; [reflexivity|].
    rewrite Hc. reflexivity.
  - simpl in IH |- *. rewrite IH. reflexivity.
Qed.

Lemma lstrip_head (s : string) :
  match Str.lstrip s with
  | EmptyString => True
  | String c _ => Str.isspace c = false
  end.
Proof.
  induction s as [|c s IH]; simpl; [exact I|].
  destruct (Str.isspace c) eqn:Hc; [exact IH|exact Hc].
Qed.

Lemma rstrip_keeps_head (c : ascii) (s : string) :
  Str.isspace c = false -> exists r, Str.rstrip (String c s) = String c r.
Proof.
  intros Hc. simpl. destruct (Str.rstrip s) as [|d r].
  - rewrite Hc. eauto.
  - eauto.
Qed.

(** A stripped string is left alone by [strip]. *)
Lemma strip_strip (s : string) : Str.strip (Str.strip s) = Str.strip s.
Proof.
  unfold Str.strip. pose proof (lstrip_head s) as Hh.
  destruct (Str.lstrip s) as [|c u] eqn:E; [reflexivity|].
  destruct (rstrip_keeps_head c u Hh) as [r Hr].
  assert (Hl : Str.lstrip (Str.rstrip (String c u)) = Str.rstrip (String c u)).
  { rewrite Hr. simpl. rewrite Hh. reflexivity. }
  rewrite Hl. apply rstrip_rstrip.
Qed.

(** The tokens [comma_split] returns are trimmed and non-empty. *)
Lemma comma_split_tokens (val t : string) :
  In t (comma_split val) -> Str.strip t = t /\ t <> EmptyString.
Proof.
  unfold comma_split. intros H. apply filter_In in H as [H Ht].
  apply in_map_iff in H as [a [<- _]]. split.
  - apply strip_strip.
  - intros E. rewrite E in Ht. discriminate Ht.
Qed.

Lemma comma_split_all_space (s : string) :
  all_space s = true -> comma_split s = [].
Proof.
  intros H. unfold comma_split. rewrite all_space_split by assumption.
  simpl. rewrite all_space_strip by assumption. reflexivity.
Qed.

(** ** [parse_aspects] *)

(** Outside the bracketed form the parser is the comma split. *)
Lemma parse_aspects_plain (literal_eval : string -> result pyval) (val : string) :
  Str.startswith "[" val && Str.endswith "]" val = false ->
  parse_aspects literal_eval val = Ok (PList (map PStr (comma_split val))).
Proof. intros H. unfold parse_aspects. rewrite H. reflexivity. Qed.

Lemma parse_aspects_all_space (literal_eval : string -> result pyval) (s : string) :
  all_space s = true -> parse_aspects literal_eval s = Ok (PList []).
Proof.
  intros H. rewrite parse_aspects_plain.
  - rewrite comma_split_all_space by assumption. reflexivity.
  - rewrite all_space_not_bracket by assumption. reflexivity.
Qed.

Lemma parse_aspects_returns (literal_eval : string -> result pyval) (val : string) :
  exists v, parse_aspects literal_eval val = Ok v.
Proof.
  unfold parse_aspects.
  destruct (Str.startswith "[" val && Str.endswith "]" val).
  - destruct (literal_eval val); simpl; eauto.
  - simpl. eauto.
Qed.

Lemma aspects_list_cell_returns (literal_eval : string -> result pyval) (x : field) :
  exists v, aspects_list_cell literal_eval x = Ok v.
Proof.
  destruct x; simpl; [eauto|apply parse_aspects_returns].
Qed.

(** The first piece of a split keeps the first character when that is not
    the separator. *)
Lemma split_head (sep c : ascii) (s : string) :
  Ascii.eqb c sep = false ->
  exists t ts, Str.split sep (String c s) = String c t :: ts.
Proof.
  intros H. simpl. rewrite H. destruct (Str.split sep s) as [|t ts]; eauto.
Qed.

Lemma strip_keeps_head (c : ascii) (s : string) :
  Str.isspace c = false -> Str.strip (String c s) <> EmptyString.
Proof.
  intros H. unfold Str.strip. simpl. rewrite H. simpl.
  destruct (Str.rstrip s); [rewrite H|]; discriminate.
Qed.

(** The comma split of a value that begins with "[" has a token. *)
Lemma comma_split_bracketed (val : string) :
  Str.startswith "[" val = true -> comma_split val <> [].
Proof.
  unfold Str.startswith, String.prefix. destruct val as [|c s]; [discriminate|].
  destruct (ascii_dec "[" c) as [<-|]; [intros _|discriminate].
  destruct (split_head "," "[" s eq_refl) as [t [ts E]].
  unfold comma_split. rewrite E. cbn [map filter].
  destruct (Str.strip (String "[" t)) eqn:Es.
  - exfalso. revert Es. apply strip_keeps_head. reflexivity.
  - simpl. discriminate.
Qed.

(** ** [load_category_data] *)

Lemma apply_map {A B : Type} (f : A -> result B) (g : A -> B) (l : list A) :
  (forall x, In x l -> f x = Ok (g x)) -> apply f l = Ok (map g l).
Proof.
  induction l as [|x l IH]; simpl; intros H; [reflexivity|].
  rewrite (H x) by auto. simpl. rewrite IH by auto. reflexivity.
Qed.

Lemma apply_Forall2 {A B : Type} (f : A -> result B) (l : list A) (l' : list B) :
  apply f l = Ok l' -> Forall2 (fun x y => f x = Ok y) l l'.
Proof.
  revert l'. induction l as [|x l IH]; simpl; intros l' H.
  - injection H as <-. constructor.
  - destruct (f x) as [y|] eqn:Ef; simpl in H; [|discriminate H].
    destruct (apply f l) as [ys|] eqn:Ea; simpl in H; [|discriminate H].
    injection H as <-. constructor; auto.
Qed.

Lemma apply_raise {A B : Type} (f : A -> result B) (l : list A) (x : A) (e : exn) :
  In x l -> f x = Raise e -> exists e', apply f l = Raise e'.
Proof.
  induction l as [|y l IH]; simpl; intros Hin Hf; [contradiction|].
  destruct (f y) as [v|e0] eqn:Ey; simpl; [|eauto].
  destruct Hin as [->|Hin]; [congruence|].
  destruct (IH Hin Hf) as [e' ->]. simpl. eauto.
Qed.

(** A field of the frame being decoded on which the decoder raises makes
    the whole load return [None]; [loaded] is the frame read, or its sample
    when the file has more than [max_rows] rows. *)
Lemma load_decode_failure
  (literal_eval : string -> result pyval)
  (read_csv : string -> result DataFrame)
  (sample : Z -> DataFrame -> result DataFrame)
  (file_path : string) (max_rows : Z) (df loaded : DataFrame) (r : Row)
  (s : string) (e : exn) :
  read_csv file_path = Ok df ->
  (if max_rows <? Z.of_nat (List.length (rows df))
   then sample max_rows df else Ok df) = Ok loaded ->
  has_column "aspects" loaded = true ->
  In r (rows loaded) -> aspects r = FStr s ->
  Str.startswith "[" (Str.strip s) = true ->
  literal_eval s = Raise e ->
  load_category_data literal_eval read_csv sample file_path max_rows = Ok None.
Proof.
  intros Hr Hs Hc Hin Ha Hb Hl.
  unfold load_category_data, load_category_data_body.
  rewrite Hr. cbn [bind]. rewrite Hs. cbn [bind]. rewrite Hc.
  destruct (apply_raise (parse_cell literal_eval) (map aspects (rows loaded))
                        (aspects r) e) as [e' He'].
  - apply in_map. exact Hin.
  - rewrite Ha. simpl. rewrite Hb. exact Hl.
  - rewrite He'. reflexivity.
Qed.

(** C1 (as amended).  For a value that begins with "[" and ends with "]",
    [parse_aspects] hands back whatever the decoder returns, a list or not,
    and the empty list when the decoder raises: its handler never falls
    back to the comma split, which for such a value always has a token.
    Neither the parser nor the cell function built on it raises.  On the
    load path there is no handler per field: a field whose stripped text
    begins with "[" and on which the decoder raises makes
    [load_category_data] return [None]. *)
Theorem parse_aspects_decode_failure
  (literal_eval : string -> result pyval) (val : string) :
  Str.startswith "[" val = true ->
  Str.endswith "]" val = true ->
  (forall v, literal_eval val = Ok v -> parse_aspects literal_eval val = Ok v)
  /\ (forall e, literal_eval val = Raise e ->
        parse_aspects literal_eval val = Ok (PList [])
        /\ comma_split val <> []
        /\ parse_aspects literal_eval val
           <> Ok (PList (map PStr (comma_split val))))
  /\ (forall x, exists v, aspects_list_cell literal_eval x = Ok v)
  /\ (forall read_csv sample file_path max_rows df loaded r s e,
        read_csv file_path = Ok df ->
        (if max_rows <? Z.of_nat (List.length (rows df))
         then sample max_rows df else Ok df) = Ok loaded ->
        has_column "aspects" loaded = true ->
        In r (rows loaded) -> aspects r = FStr s ->
        Str.startswith "[" (Str.strip s) = true ->
        literal_eval s = Raise e ->
        load_category_data literal_eval read_csv sample file_path max_rows
        = Ok None).
Proof.
  intros Hs He. split; [|split; [|split]].
  - intros v Hv. unfold parse_aspects. rewrite Hs, He, Hv. reflexivity.
  - intros e Hl.
    assert (Hp : parse_aspects literal_eval val = Ok (PList []))
      by (unfold parse_aspects; rewrite Hs, He, Hl; reflexivity).
    pose proof (comma_split_bracketed val Hs) as Hne.
    split; [exact Hp|]. split; [exact Hne|].
    rewrite Hp. intros E. injection E as E.
    destruct (comma_split val); [congruence|discriminate E].
  - apply aspects_list_cell_returns.
  - intros read_csv sample file_path max_rows df loaded r s e.
    apply load_decode_failure.
Qed.

Lemma parse_aspects_decode_failure_witness :
  parse_aspects Ast.literal_eval "[a, b]" = Ok (PList [])
  /\ comma_split "[a, b]" <> []
  /\ load_category_data Ast.literal_eval (fun _ => Ok malformed_csv)
                        (fun _ df => Ok df) "review_categories.csv" 500
     = Ok None.
Proof.
  destruct (parse_aspects_decode_failure Ast.literal_eval "[a, b]"
              eq_refl eq_refl) as [_ [Hraise [_ Hload]]].
  destruct (Hraise ValueError eq_refl) as [Hp [Hne _]].
  split; [exact Hp|]. split; [exact Hne|].
  apply (Hload (fun _ => Ok malformed_csv) (fun _ df => Ok df)
               "review_categories.csv" 500 malformed_csv malformed_csv
               {| name := "Food"; aspectsCount := 2; aspects := FStr "[a, b]";
                  aspects_parsed := PNone |} "[a, b]" ValueError);
    try reflexivity.
  simpl. auto.
Defined.

(** C1 as stated fails: on "[a, b]" the decoder raises, the comma split of
    the raw string has two tokens, and [parse_aspects] returns the empty
    list. *)
Lemma bracketed_fallback_is_not_comma_split :
  ~ (forall (literal_eval : string -> result pyval) (val : string) (e : exn),
        Str.startswith "[" val = true ->
        Str.endswith "]" val = true ->
        literal_eval val = Raise e ->
        parse_aspects literal_eval val
        = Ok (PList (map PStr (comma_split val)))).
Proof.
  intros H.
  specialize (H Ast.literal_eval "[a, b]" ValueError eq_refl eq_refl eq_refl).
  discriminate H.
Qed.

(** ** [process_csv] *)

(** C7.  [process_csv] splits and trims but keeps the empty tokens: "a,,b"
    gives three tokens and a blank field gives one empty token, where
    [parse_aspects] gives two tokens and none. *)
Theorem process_csv_keeps_empty_tokens :
  process_csv
    (Ok {| review_columns := required_columns;
           review_aspects :=
             {| series_dtype := object;
                series_values := [FStr "a,,b"; FStr "   "] |} |})
  = Some [["a"; ""; "b"]; [""]]
  /\ parse_aspects Ast.literal_eval "a,,b" = Ok (PList [PStr "a"; PStr "b"])
  /\ parse_aspects Ast.literal_eval "   " = Ok (PList []).
Proof. repeat split. Qed.

(** ** Counting *)

Lemma update_hashable (l : list pyval) (c : Counter.t) :
  forallb hashable l = true ->
  Counter.update c l = Ok (fold_left (fun c k => Counter.incr k c) l c).
Proof.
  revert c. induction l as [|k l IH]; simpl; intros c H; [reflexivity|].
  apply andb_true_iff in H as [Hk Hl]. rewrite Hk. apply IH. exact Hl.
Qed.

Lemma update_unhashable (l : list pyval) (c : Counter.t) :
  forallb hashable l = false -> Counter.update c l = Raise TypeError.
Proof.
  revert c. induction l as [|k l IH]; simpl; intros c H; [discriminate H|].
  destruct (hashable k); simpl in H; [apply IH; exact H|reflexivity].
Qed.

Lemma count_cells_hashable (cells : list pyval) (c : Counter.t) :
  forallb (fun v => forallb hashable (elements v)) cells = true ->
  count_cells c cells
  = Ok (fold_left (fun c k => Counter.incr k c) (flat_map elements cells) c).
Proof.
  revert c. induction cells as [|v cells IH]; simpl; intros c H; [reflexivity|].
  apply andb_true_iff in H as [Hv Hc].
  destruct v as [| | |l]; simpl; try (apply IH; exact Hc).
  simpl in Hv. rewrite update_hashable by exact Hv. simpl.
  rewrite IH by exact Hc. rewrite fold_left_app. reflexivity.
Qed.

Lemma cells_are_lists_hashable (df : DataFrame) :
  cells_are_lists df = true -> cells_hashable df = true.
Proof.
  unfold cells_are_lists, cells_hashable. rewrite !forallb_forall.
  intros H v Hv. specialize (H v Hv). apply andb_true_iff in H. tauto.
Qed.

(** On countable cells the analysis returns the sorted counter. *)
Lemma analyze_well_typed (df : DataFrame) :
  has_column "aspects_parsed" df = true ->
  cells_hashable df = true ->
  analyze_category_aspects (Some df)
  = Ok (Some (Counter.sorted_desc snd (counter_of (occurrences df)))).
Proof.
  intros Hc Hh. unfold analyze_category_aspects. rewrite Hc. simpl.
  rewrite count_cells_hashable by exact Hh. reflexivity.
Qed.

Lemma sum_counts_incr (k : pyval) (c : Counter.t) :
  sum_counts (Counter.incr k c) = sum_counts c + 1.
Proof.
  induction c as [|[k' n] c IH]; simpl; [reflexivity|].
  destruct (pyval_eqb k k'); simpl; lia.
Qed.

Lemma sum_counts_fold (s : list pyval) (c : Counter.t) :
  sum_counts (fold_left (fun c k => Counter.incr k c) s c)
  = sum_counts c + Z.of_nat (List.length s).
Proof.
  revert c. induction s as [|k s IH]; intros c; simpl fold_left.
  - simpl. lia.
  - rewrite IH, sum_counts_incr. simpl List.length. lia.
Qed.

Lemma insert_desc_perm {A : Type} (key : A -> Z) (x : A) (l : list A) :
  Permutation (x :: l) (Counter.insert_desc key x l).
Proof.
  induction l as [|y l IH]; simpl; [reflexivity|].
  destruct (key x <? key y); [|reflexivity].
  rewrite perm_swap. constructor. exact IH.
Qed.

Lemma sorted_desc_perm {A : Type} (key : A -> Z) (l : list A) :
  Permutation l (Counter.sorted_desc key l).
Proof.
  induction l as [|x l IH]; simpl; [constructor|].
  rewrite <- insert_desc_perm. constructor. exact IH.
Qed.

Lemma sum_counts_perm (t t' : FreqTable) :
  Permutation t t' -> sum_counts t = sum_counts t'.
Proof. induction 1; simpl; lia. Qed.

Lemma length_occurrences (cells : list pyval) :
  Z.of_nat (List.length (flat_map elements cells))
  = fold_right Z.add 0 (map len cells).
Proof.
  induction cells as [|v cells IH]; simpl; [reflexivity|].
  rewrite length_app, Nat2Z.inj_add, IH.
  destruct v; simpl; lia.
Qed.

(** C2.  When every parsed cell is a list of aspects, the analysis returns
    a table whose counts add up to the total length of the lists. *)
Theorem frequency_counts_total (df : DataFrame) :
  has_column "aspects_parsed" df = true ->
  cells_are_lists df = true ->
  exists t,
    analyze_category_aspects (Some df) = Ok (Some t)
    /\ sum_counts t
       = fold_right Z.add 0 (map len (map aspects_parsed (rows df))).
Proof.
  intros Hc Hl. eexists. split.
  - apply analyze_well_typed; [exact Hc|].
    apply cells_are_lists_hashable. exact Hl.
  - rewrite <- (sum_counts_perm _ _ (sorted_desc_perm snd _)).
    unfold counter_of. rewrite sum_counts_fold. simpl.
    apply length_occurrences.
Qed.

Lemma frequency_counts_total_witness :
  exists t,
    analyze_category_aspects
      (Some (parsed_frame [("A", 2, PList [PStr "x"; PStr "x"]);
                           ("B", 1, PList [PStr "y"; PStr "x"])]))
    = Ok (Some t)
    /\ sum_counts t = 4.
Proof.
  apply (frequency_counts_total
           (parsed_frame [("A", 2, PList [PStr "x"; PStr "x"]);
                          ("B", 1, PList [PStr "y"; PStr "x"])]));
    reflexivity.
Defined.

(** ** Order of the sorted tables *)

Lemma insert_desc_In {A : Type} (key : A -> Z) (x z : A) (l : list A) :
  In z (Counter.insert_desc key x l) <-> z = x \/ In z l.
Proof.
  split; intros H.
  - apply (Permutation_in _ (Permutation_sym (insert_desc_perm key x l))) in H.
    destruct H; auto.
  - apply (Permutation_in _ (insert_desc_perm key x l)).
    destruct H; [left; auto|right; auto].
Qed.

Lemma sorted_desc_In {A : Type} (key : A -> Z) (z : A) (l : list A) :
  In z (Counter.sorted_desc key l) <-> In z l.
Proof.
  split; apply Permutation_in;
    [apply Permutation_sym|]; apply sorted_desc_perm.
Qed.

Lemma StronglySorted_weaken {A : Type} (R R' : A -> A -> Prop) (l : list A) :
  (forall x y, R x y -> R' x y) -> StronglySorted R l -> StronglySorted R' l.
Proof.
  intros HR. induction 1 as [|x l Hs IH Hf]; constructor; [exact IH|].
  eapply Forall_impl; [|exact Hf]. intros y. apply HR.
Qed.

Lemma StronglySorted_firstn {A : Type} (R : A -> A -> Prop) (n : nat) (l : list A) :
  StronglySorted R l -> StronglySorted R (firstn n l).
Proof.
  intros H. revert n. induction H as [|x l Hs IH Hf]; intros [|n]; simpl;
    try constructor.
  - apply IH.
  - rewrite Forall_forall in *. intros y Hy. apply Hf.
    eapply (In_nth_error (firstn n l)) in Hy as [i Hi].
    apply nth_error_In with (n := i).
    rewrite nth_error_firstn in Hi.
    destruct (i <? n)%nat; [exact Hi|discriminate Hi].
Qed.

(** Inserting into a list sorted by a relation that refines the descending
    order of the keys. *)
Lemma insert_desc_sorted {A : Type} (key : A -> Z) (R : A -> A -> Prop)
  (x : A) (l : list A) :
  (forall y z, R y z -> key z <= key y) ->
  (forall y, In y l -> key x < key y -> R y x) ->
  (forall y, In y l -> key y <= key x -> R x y) ->
  StronglySorted R l ->
  StronglySorted R (Counter.insert_desc key x l).
Proof.
  intros Hdesc. induction l as [|y l IH]; simpl; intros Hgt Hle Hs.
  - constructor; constructor.
  - inversion Hs as [|y' l' Hs' Hf]; subst.
    destruct (key x <? key y) eqn:E.
    + apply Z.ltb_lt in E. constructor.
      * apply IH; auto.
      * rewrite Forall_forall in *. intros z Hz.
        apply insert_desc_In in Hz as [->|Hz]; auto.
    + apply Z.ltb_ge in E. constructor; [exact Hs|].
      rewrite Forall_forall in *. intros z [<-|Hz]; [auto|].
      apply Hle; [auto|]. specialize (Hdesc _ _ (Hf z Hz)). lia.
Qed.

Lemma ranked_desc {A : Type} (key : A -> Z) (l : list A) (y z : A) :
  ranked key l y z -> key z <= key y.
Proof. intros [H|[H _]]; lia. Qed.

(** The stable descending sort: by key, equal keys in the order of the
    input. *)
Lemma sorted_desc_ranked {A : Type} (key : A -> Z) (l : list A) :
  StronglySorted (ranked key l) (Counter.sorted_desc key l).
Proof.
  induction l as [|x l IH]; simpl; [constructor|].
  apply insert_desc_sorted.
  - intros y z. apply ranked_desc.
  - intros y _ Hlt. left. exact Hlt.
  - intros y Hy Hle. apply sorted_desc_In in Hy.
    destruct (Z.eq_dec (key x) (key y)) as [E|E].
    + right. split; [exact E|]. constructor. exact Hy.
    + left. lia.
  - eapply StronglySorted_weaken; [|exact IH].
    intros y z [H|[H Hb]]; [left; exact H|right; split; [exact H|]].
    apply before_later. exact Hb.
Qed.

Lemma before_In {A : Type} (l : list A) (x y : A) :
  before l x y -> In x l /\ In y l.
Proof.
  induction 1 as [x l y H|z l x y H [IHx IHy]]; simpl; auto.
Qed.

Lemma before_snoc {A : Type} (l : list A) (z x y : A) :
  before (l ++ [z]) x y -> before l x y \/ (In x l /\ y = z).
Proof.
  induction l as [|w l IH]; simpl; intros H.
  - inversion H as [? ? ? Hin|? ? ? ? Hb]; subst.
    + destruct Hin.
    + inversion Hb.
  - inversion H as [? ? ? Hin|? ? ? ? Hb]; subst.
    + apply in_app_or in Hin as [Hin|[<-|[]]].
      * left. constructor. exact Hin.
      * right. auto.
    + destruct (IH Hb) as [Hb'|[Hx ->]].
      * left. apply before_later. exact Hb'.
      * right. auto.
Qed.

Lemma before_map {A B : Type} (f : A -> B) (l : list A) (x y : A) :
  before l x y -> before (map f l) (f x) (f y).
Proof.
  induction 1 as [x l y H|z l x y H IH]; simpl.
  - constructor. apply in_map. exact H.
  - apply before_later. exact IH.
Qed.

Lemma pyval_eqb_eq (x y : pyval) : pyval_eqb x y = true <-> x = y.
Proof.
  unfold pyval_eqb. destruct (pyval_eq_dec x y); split; congruence.
Qed.

Lemma pyval_eqb_refl (x : pyval) : pyval_eqb x x = true.
Proof. apply pyval_eqb_eq. reflexivity. Qed.

Lemma pyval_eqb_neq (x y : pyval) : pyval_eqb x y = false <-> x <> y.
Proof.
  unfold pyval_eqb. destruct (pyval_eq_dec x y); split; congruence.
Qed.

Lemma first_pos_lt (a : pyval) (s : list pyval) :
  In a s -> (first_pos a s < List.length s)%nat.
Proof.
  induction s as [|x s IH]; simpl; intros H; [contradiction|].
  destruct (pyval_eqb a x) eqn:E; [lia|].
  apply pyval_eqb_neq in E. destruct H as [H|H]; [congruence|].
  specialize (IH H). lia.
Qed.

Lemma first_pos_app (a : pyval) (s t : list pyval) :
  In a s -> first_pos a (s ++ t) = first_pos a s.
Proof.
  induction s as [|x s IH]; simpl; intros H; [contradiction|].
  destruct (pyval_eqb a x) eqn:E; [reflexivity|].
  apply pyval_eqb_neq in E. destruct H as [H|H]; [congruence|].
  rewrite IH by exact H. reflexivity.
Qed.

Lemma first_pos_absent (a : pyval) (s : list pyval) :
  ~ In a s -> first_pos a (s ++ [a]) = List.length s.
Proof.
  induction s as [|x s IH]; simpl; intros H.
  - rewrite pyval_eqb_refl. reflexivity.
  - destruct (pyval_eqb a x) eqn:E.
    + apply pyval_eqb_eq in E. subst. exfalso. auto.
    + rewrite IH by auto. reflexivity.
Qed.

(** The keys after one more increment. *)
Lemma keys_incr (k : pyval) (c : Counter.t) :
  map fst (Counter.incr k c)
  = if existsb (pyval_eqb k) (map fst c) then map fst c
    else (map fst c ++ [k])%list.
Proof.
  induction c as [|[k' n] c IH]; simpl; [reflexivity|].
  destruct (pyval_eqb k k') eqn:E; simpl; [reflexivity|].
  rewrite IH. destruct (existsb (pyval_eqb k) (map fst c)); reflexivity.
Qed.

Lemma counter_of_snoc (s : list pyval) (k : pyval) :
  counter_of (s ++ [k]) = Counter.incr k (counter_of s).
Proof. unfold counter_of. rewrite fold_left_app. reflexivity. Qed.

Lemma existsb_pyval_In (k : pyval) (l : list pyval) :
  existsb (pyval_eqb k) l = true <-> In k l.
Proof.
  rewrite existsb_exists. split.
  - intros [x [Hx E]]. apply pyval_eqb_eq in E. subst. exact Hx.
  - intros H. exists k. split; [exact H|apply pyval_eqb_refl].
Qed.

(** The keys of the counter are the values met, each once, in the order of
    their first occurrence. *)
Lemma counter_of_keys (s : list pyval) :
  NoDup (map fst (counter_of s))
  /\ (forall a, In a (map fst (counter_of s)) <-> In a s)
  /\ (forall a b, before (map fst (counter_of s)) a b ->
                  (first_pos a s < first_pos b s)%nat).
Proof.
  induction s as [|k s [Hnd [Hin Hord]]] using rev_ind.
  - simpl. split; [constructor|]. split; [tauto|].
    intros a b H. inversion H.
  - rewrite counter_of_snoc, keys_incr.
    destruct (existsb (pyval_eqb k) (map fst (counter_of s))) eqn:E.
    + apply existsb_pyval_In in E. split; [exact Hnd|]. split.
      * intros a. rewrite Hin, in_app_iff. simpl. split; [tauto|].
        intros [H|[<-|[]]]; [exact H|]. apply Hin. exact E.
      * intros a b Hb. destruct (before_In _ _ _ Hb) as [Ha Hb'].
        rewrite !first_pos_app by (apply Hin; assumption).
        apply Hord. exact Hb.
    + assert (Hk : ~ In k s).
      { intros Hk. apply Hin in Hk. apply existsb_pyval_In in Hk. congruence. }
      split; [|split].
      * apply NoDup_app; [exact Hnd|repeat constructor; auto|].
        intros a Ha [<-|[]]. apply Hk, Hin, Ha.
      * intros a. rewrite !in_app_iff, Hin. tauto.
      * intros a b Hb. apply before_snoc in Hb as [Hb|[Ha ->]].
        -- destruct (before_In _ _ _ Hb) as [Ha Hb'].
           rewrite !first_pos_app by (apply Hin; assumption).
           apply Hord. exact Hb.
        -- rewrite first_pos_app by (apply Hin; exact Ha).
           rewrite first_pos_absent by exact Hk.
           apply first_pos_lt, Hin, Ha.
Qed.

(** The most-used table: descending by count, equal counts by first
    occurrence. *)
Lemma most_common_order (s : list pyval) :
  StronglySorted (most_used_order s) (Counter.sorted_desc snd (counter_of s)).
Proof.
  eapply StronglySorted_weaken; [|apply sorted_desc_ranked].
  intros x y [H|[H Hb]]; [left; exact H|right; split; [exact H|]].
  apply (counter_of_keys s). apply (before_map fst) in Hb. exact Hb.
Qed.

(** ** The presence matrix *)

Lemma dict_get_set (c k : string) (v : pyval) (d : dict) :
  dict_get c (dict_set k v d)
  = if String.eqb c k then Some v else dict_get c d.
Proof.
  induction d as [|[k' v'] d IH]; simpl.
  - destruct (String.eqb c k); reflexivity.
  - destruct (String.eqb k k') eqn:E; simpl.
    + apply String.eqb_eq in E. subst k'.
      destruct (String.eqb c k); reflexivity.
    + rewrite IH. destruct (String.eqb c k') eqn:E'; [|reflexivity].
      apply String.eqb_eq in E'. subst k'.
      rewrite String.eqb_sym, E. reflexivity.
Qed.

Lemma dict_get_fold (f : string -> pyval) (c : string) (names : list string)
  (d : dict) :
  dict_get c (fold_left (fun row cat => dict_set cat (f cat) row) names d)
  = if existsb (String.eqb c) names then Some (f c) else dict_get c d.
Proof.
  revert d. induction names as [|n names IH]; simpl; intros d; [reflexivity|].
  rewrite IH, dict_get_set.
  destruct (String.eqb c n) eqn:E; simpl.
  - apply String.eqb_eq in E. subst n.
    destruct (existsb (String.eqb c) names); reflexivity.
  - reflexivity.
Qed.

Lemma existsb_string_In (k : string) (l : list string) :
  existsb (String.eqb k) l = true <-> In k l.
Proof.
  rewrite existsb_exists. split.
  - intros [x [Hx E]]. apply String.eqb_eq in E. subst. exact Hx.
  - intros H. exists k. split; [exact H|apply String.eqb_refl].
Qed.

(** The cell a row holds for one of the category names. *)
Lemma row_for_get (df : DataFrame) (names : list string) (a : pyval) (c : string) :
  In c names ->
  dict_get c (row_for df names a) = Some (PInt (presence df a c)).
Proof.
  intros H. unfold row_for.
  rewrite (dict_get_fold (fun cat => PInt (presence df a cat))).
  apply existsb_string_In in H. rewrite H. reflexivity.
Qed.

(** The cell of the column "aspect" is the aspect of the row, unless a
    category of that name overwrites it. *)
Lemma row_for_aspect (df : DataFrame) (names : list string) (a : pyval) :
  ~ In "aspect" names ->
  dict_get "aspect" (row_for df names a) = Some a.
Proof.
  intros H. unfold row_for.
  rewrite (dict_get_fold (fun cat => PInt (presence df a cat))).
  destruct (existsb (String.eqb "aspect") names) eqn:E; [|reflexivity].
  apply existsb_string_In in E. contradiction.
Qed.

Lemma filter_name_none (n : string) (l : list Row) :
  ~ In n (map name l) -> filter (fun r => String.eqb (name r) n) l = [].
Proof.
  induction l as [|x l IH]; simpl; intros H; [reflexivity|].
  destruct (String.eqb (name x) n) eqn:E.
  - apply String.eqb_eq in E. exfalso. auto.
  - apply IH. auto.
Qed.

(** With unique names the rows of a category are that one row. *)
Lemma filter_name_unique (l : list Row) (r : Row) :
  NoDup (map name l) -> In r l ->
  filter (fun r' => String.eqb (name r') (name r)) l = [r].
Proof.
  induction l as [|x l IH]; simpl; intros Hnd Hin; [contradiction|].
  inversion Hnd as [|? ? Hx Hl]; subst.
  destruct Hin as [->|Hin].
  - rewrite String.eqb_refl, filter_name_none by exact Hx. reflexivity.
  - destruct (String.eqb (name x) (name r)) eqn:E.
    + apply String.eqb_eq in E. exfalso. apply Hx. rewrite E.
      apply in_map. exact Hin.
    + apply IH; assumption.
Qed.

Lemma presence_unique (df : DataFrame) (a : pyval) (r : Row) :
  NoDup (map name (rows df)) -> In r (rows df) ->
  presence df a (name r) = if occurs a (aspects_parsed r) then 1 else 0.
Proof.
  intros Hnd Hin. unfold presence, aspects_in_category.
  rewrite filter_name_unique by assumption. simpl.
  destruct (aspects_parsed r); reflexivity.
Qed.

Lemma nlargest_In {A : Type} (n : Z) (key : A -> Z) (l : list A) (x : A) :
  In x (Counter.nlargest n key l) -> In x l.
Proof.
  unfold Counter.nlargest. destruct (n <=? 0); simpl; [contradiction|].
  intros H. apply (sorted_desc_In key).
  rewrite <- (firstn_skipn (Z.to_nat n)). apply in_or_app. left. exact H.
Qed.

(** On a well-typed frame the matrix is one row per selected aspect, built
    over the names of the selected categories. *)
Lemma create_well_typed (df : DataFrame) (max_aspects max_categories : Z) :
  has_column "aspects_parsed" df = true ->
  well_typed (Some df) = true ->
  create_aspect_category_matrix (Some df) max_aspects max_categories
  = Ok (Some (DataFrame_of_records
                (map (row_for df (map name (selected_categories df max_categories)))
                     (selected_aspects df max_aspects)))).
Proof.
  intros Hc Hw. simpl in Hw. rewrite Hc in Hw.
  apply andb_true_iff in Hw as [Hw Hh]. apply andb_true_iff in Hw as [Hw Hd].
  apply andb_true_iff in Hw as [Hn Ha]. apply negb_true_iff in Hd.
  unfold create_aspect_category_matrix. rewrite Hc. simpl.
  rewrite count_cells_hashable by exact Hh. simpl.
  unfold nlargest. rewrite Ha, Hd. simpl.
  rewrite (apply_map _ (row_for df (map name (selected_categories df max_categories)))).
  - reflexivity.
  - intros a _. unfold matrix_row, column_name.
    match goal with
    | |- context [has_column "name" ?d] =>
        change (has_column "name" d) with (has_column "name" df)
    end.
    rewrite Hn. reflexivity.
Qed.

(** C3.  With unique category names, the cell of the [i]-th selected aspect
    in the column of a selected category is 1 when the aspect occurs in the
    parsed list of that category and 0 otherwise. *)
Theorem matrix_cell_presence
  (df : DataFrame) (max_aspects max_categories : Z) :
  has_column "aspects_parsed" df = true ->
  well_typed (Some df) = true ->
  NoDup (map name (rows df)) ->
  exists m,
    create_aspect_category_matrix (Some df) max_aspects max_categories
    = Ok (Some m)
    /\ List.length (matrix_rows m)
       = List.length (selected_aspects df max_aspects)
    /\ forall i a c,
         nth_error (selected_aspects df max_aspects) i = Some a ->
         In c (selected_categories df max_categories) ->
         cell m i (name c)
         = Some (PInt (if occurs a (aspects_parsed c) then 1 else 0)).
Proof.
  intros Hc Hw Hnd. eexists. split; [apply create_well_typed; assumption|].
  split; [simpl; apply length_map|].
  intros i a c Ha Hsel. unfold cell. simpl.
  rewrite nth_error_map, Ha. simpl.
  rewrite row_for_get by (apply in_map; exact Hsel).
  rewrite presence_unique; [reflexivity|exact Hnd|].
  eapply nlargest_In. exact Hsel.
Qed.

Lemma matrix_cell_presence_witness :
  exists m,
    create_aspect_category_matrix (Some example_parsed) 2 2 = Ok (Some m)
    /\ List.length (matrix_rows m)
       = List.length (selected_aspects example_parsed 2)
    /\ forall i a c,
         nth_error (selected_aspects example_parsed 2) i = Some a ->
         In c (selected_categories example_parsed 2) ->
         cell m i (name c)
         = Some (PInt (if occurs a (aspects_parsed c) then 1 else 0)).
Proof.
  apply (matrix_cell_presence example_parsed 2 2); [reflexivity|reflexivity|].
  simpl. repeat constructor; simpl; intuition congruence.
Defined.

(** ** Shape of the matrix *)

Lemma keys_dict_set (k : string) (v : pyval) (d : dict) :
  map fst (dict_set k v d) = add_column (map fst d) k.
Proof.
  unfold add_column. induction d as [|[k' v'] d IH]; simpl; [reflexivity|].
  destruct (String.eqb k k') eqn:E; simpl; [reflexivity|].
  rewrite IH. destruct (existsb (String.eqb k) (map fst d)); reflexivity.
Qed.

Lemma keys_fold (f : string -> pyval) (names : list string) (d : dict) :
  map fst (fold_left (fun row cat => dict_set cat (f cat) row) names d)
  = fold_left add_column names (map fst d).
Proof.
  revert d. induction names as [|n names IH]; simpl; intros d; [reflexivity|].
  rewrite IH, keys_dict_set. reflexivity.
Qed.

Lemma add_columns_fresh (names cols : list string) :
  NoDup (cols ++ names) -> fold_left add_column names cols = (cols ++ names)%list.
Proof.
  revert cols. induction names as [|n names IH]; simpl; intros cols H.
  - rewrite app_nil_r. reflexivity.
  - assert (Hn : existsb (String.eqb n) cols = false).
    { destruct (existsb (String.eqb n) cols) eqn:E; [|reflexivity].
      apply existsb_string_In in E. apply NoDup_remove_2 in H.
      exfalso. apply H. apply in_or_app. left. exact E. }
    unfold add_column at 2. rewrite Hn.
    rewrite IH; rewrite <- app_assoc; simpl; [reflexivity|exact H].
Qed.

Lemma add_columns_known (names cols : list string) :
  (forall n, In n names -> In n cols) -> fold_left add_column names cols = cols.
Proof.
  induction names as [|n names IH]; simpl; intros H; [reflexivity|].
  unfold add_column at 2.
  assert (Hn : existsb (String.eqb n) cols = true)
    by (apply existsb_string_In; auto).
  rewrite Hn. apply IH. auto.
Qed.

(** The key list of the rows when nothing clashes. *)
Lemma row_for_keys (df : DataFrame) (names : list string) (a : pyval) :
  NoDup ("aspect" :: names) ->
  map fst (row_for df names a) = "aspect" :: names.
Proof.
  intros H. unfold row_for.
  rewrite (keys_fold (fun cat => PInt (presence df a cat))). simpl.
  apply (add_columns_fresh names ["aspect"]). exact H.
Qed.

(** Rows with one common key list give these keys as the columns. *)
Lemma records_columns (keys : list string) (data : list dict) :
  NoDup keys -> data <> [] ->
  (forall d, In d data -> map fst d = keys) ->
  matrix_columns (DataFrame_of_records data) = keys.
Proof.
  intros Hnd Hne Hk. destruct data as [|d data]; [congruence|].
  simpl. rewrite (Hk d) by (left; reflexivity).
  rewrite (add_columns_fresh keys []) by exact Hnd. simpl.
  assert (H : forall d', In d' data -> map fst d' = keys)
    by (intros; apply Hk; right; assumption).
  clear Hk Hne. induction data as [|d' data IH]; simpl; [reflexivity|].
  rewrite (H d') by (left; reflexivity).
  rewrite add_columns_known by auto. apply IH. intros. apply H. right. assumption.
Qed.

Lemma nlargest_length {A : Type} (n : Z) (key : A -> Z) (l : list A) :
  0 <= n ->
  Z.of_nat (List.length (Counter.nlargest n key l))
  = Z.min n (Z.of_nat (List.length l)).
Proof.
  intros Hn. unfold Counter.nlargest. destruct (n <=? 0) eqn:E.
  - apply Z.leb_le in E. simpl. lia.
  - rewrite length_firstn.
    rewrite <- (Permutation_length (sorted_desc_perm key l)). lia.
Qed.

Lemma nlargest_names_NoDup (n : Z) (l : list Row) :
  NoDup (map name l) -> NoDup (map name (Counter.nlargest n aspectsCount l)).
Proof.
  intros H. unfold Counter.nlargest. destruct (n <=? 0); [constructor|].
  assert (Hs : NoDup (map name (Counter.sorted_desc aspectsCount l))).
  { eapply Permutation_NoDup; [|exact H].
    apply Permutation_map, sorted_desc_perm. }
  rewrite <- (firstn_skipn (Z.to_nat n) (Counter.sorted_desc aspectsCount l)) in Hs.
  rewrite map_app in Hs.
  apply NoDup_app_remove_r in Hs. exact Hs.
Qed.

(** The counter has one entry per distinct aspect. *)
Lemma counter_of_length (s : list pyval) :
  List.length (counter_of s) = List.length (nodup pyval_eq_dec s).
Proof.
  destruct (counter_of_keys s) as [Hnd [Hin _]].
  rewrite <- (length_map fst). apply Permutation_length.
  apply NoDup_Permutation; [exact Hnd|apply NoDup_nodup|].
  intros a. rewrite Hin, nodup_In. tauto.
Qed.

(** The selected categories are the head of the stable ranking of all rows. *)
Lemma selected_categories_ranked (df : DataFrame) (n : Z) :
  0 <= n ->
  exists rest,
    Permutation (rows df) (selected_categories df n ++ rest)
    /\ StronglySorted (ranked aspectsCount (rows df))
                      (selected_categories df n ++ rest).
Proof.
  intros Hn. unfold selected_categories, Counter.nlargest.
  destruct (n <=? 0) eqn:E.
  - exists (Counter.sorted_desc aspectsCount (rows df)). simpl. split.
    + apply sorted_desc_perm.
    + apply sorted_desc_ranked.
  - exists (skipn (Z.to_nat n) (Counter.sorted_desc aspectsCount (rows df))).
    rewrite firstn_skipn. split.
    + apply sorted_desc_perm.
    + apply sorted_desc_ranked.
Qed.

(** Where the shape is as expected.  With unique category names, none of
    them "aspect", and caps that are not negative: the matrix has
    min(maxAspects, distinct aspects) rows; when it has a row, its columns
    are "aspect" followed by the names of the min(maxCategories, categories)
    categories that head the ranking by descending aspectsCount, equal
    counts in row order. *)
Lemma matrix_shape (df : DataFrame) (max_aspects max_categories : Z) :
  has_column "aspects_parsed" df = true ->
  well_typed (Some df) = true ->
  NoDup (map name (rows df)) ->
  ~ In "aspect" (map name (rows df)) ->
  0 <= max_aspects ->
  0 <= max_categories ->
  exists m,
    create_aspect_category_matrix (Some df) max_aspects max_categories
    = Ok (Some m)
    /\ Z.of_nat (List.length (matrix_rows m))
       = Z.min max_aspects (Z.of_nat (List.length (distinct_aspects df)))
    /\ (matrix_rows m <> [] ->
        matrix_columns m
        = "aspect" :: map name (selected_categories df max_categories)
        /\ Z.of_nat (List.length (matrix_columns m)) - 1
           = Z.min max_categories (Z.of_nat (List.length (rows df))))
    /\ exists rest,
         Permutation (rows df) (selected_categories df max_categories ++ rest)
         /\ StronglySorted (ranked aspectsCount (rows df))
                           (selected_categories df max_categories ++ rest).
Proof.
  intros Hc Hw Hnd Hasp Ha Hm. eexists.
  split; [apply create_well_typed; assumption|].
  split; [|split; [|apply selected_categories_ranked; exact Hm]].
  - simpl. rewrite length_map. unfold selected_aspects. rewrite length_map.
    simpl. rewrite nlargest_length by exact Ha.
    rewrite counter_of_length. reflexivity.
  - intros Hne.
    assert (Hk : NoDup ("aspect" :: map name (selected_categories df max_categories))).
    { constructor.
      - intros H. apply Hasp. apply in_map_iff in H as [r [Hr Hin]].
        apply in_map_iff. exists r. split; [exact Hr|].
        eapply nlargest_In. exact Hin.
      - apply nlargest_names_NoDup. exact Hnd. }
    assert (Hcols : matrix_columns
                      (DataFrame_of_records
                         (map (row_for df (map name (selected_categories df max_categories)))
                              (selected_aspects df max_aspects)))
                    = "aspect" :: map name (selected_categories df max_categories)).
    { apply records_columns; [exact Hk|exact Hne|].
      intros d Hd. apply in_map_iff in Hd as [a [<- _]].
      apply row_for_keys. exact Hk. }
    split; [exact Hcols|].
    rewrite Hcols. simpl List.length. rewrite length_map.
    unfold selected_categories.
    rewrite Nat2Z.inj_succ, nlargest_length by exact Hm. lia.
Qed.

(** Shared names are not guarded against: when two of the three categories
    share a name and two columns are asked for, the two rows picked are
    those of one name and the matrix has the column "aspect" and a single
    category column. *)
Lemma duplicate_names_one_column :
  ~ (forall df max_aspects max_categories m,
        has_column "aspects_parsed" df = true ->
        create_aspect_category_matrix (Some df) max_aspects max_categories
        = Ok (Some m) ->
        Z.of_nat (List.length (matrix_rows m))
        = Z.min max_aspects (Z.of_nat (List.length (distinct_aspects df)))
        /\ Z.of_nat (List.length (matrix_columns m)) - 1
           = Z.min max_categories
                   (Z.of_nat (List.length (nodup string_dec (map name (rows df)))))).
Proof.
  intros H.
  destruct (H duplicate_names_frame 1000 2 _ eq_refl eq_refl) as [_ Hcols].
  vm_compute in Hcols. discriminate Hcols.
Qed.

(** ** Totality *)

Lemma selected_aspects_no_rows (df : DataFrame) (max_aspects : Z) :
  rows df = [] -> selected_aspects df max_aspects = [].
Proof.
  intros H. unfold selected_aspects, occurrences. rewrite H. simpl.
  unfold Counter.nlargest. destruct (max_aspects <=? 0); [reflexivity|].
  simpl. rewrite firstn_nil. reflexivity.
Qed.

(** Without the column [aspectsCount] the matrix cannot be built. *)
Lemma create_without_aspectsCount_raises :
  create_aspect_category_matrix
    (Some {| columns := ["name"; "aspects_parsed"];
             aspectsCount_dtype := int64; rows := [] |}) 1000 500
  = Raise KeyError.
Proof. reflexivity. Qed.

(** A list inside an aspect list cannot be counted. *)
Lemma analyze_nested_raises :
  analyze_category_aspects (Some nested_frame) = Raise TypeError
  /\ create_aspect_category_matrix (Some nested_frame) 1000 500 = Raise TypeError.
Proof. split; reflexivity. Qed.

(** Where both functions return: on a [None] collection, on a frame
    without the parsed column, and on a frame that has the columns [name]
    and [aspectsCount], the latter numeric, and aspect lists of hashable
    values; they return the empty table for such a frame without rows. *)
Lemma core_functions_total
  (df : option DataFrame) (max_aspects max_categories : Z) :
  well_typed df = true ->
  (exists r, analyze_category_aspects df = Ok r)
  /\ (exists m,
        create_aspect_category_matrix df max_aspects max_categories = Ok m)
  /\ (df = None ->
      analyze_category_aspects df = Ok None
      /\ create_aspect_category_matrix df max_aspects max_categories = Ok None)
  /\ (forall d, df = Some d -> has_column "aspects_parsed" d = false ->
      analyze_category_aspects df = Ok None
      /\ create_aspect_category_matrix df max_aspects max_categories = Ok None)
  /\ (forall d, df = Some d -> has_column "aspects_parsed" d = true ->
      rows d = [] ->
      analyze_category_aspects df = Ok (Some [])
      /\ create_aspect_category_matrix df max_aspects max_categories
         = Ok (Some {| matrix_columns := []; matrix_rows := [] |})).
Proof.
  intros Hw. destruct df as [d|].
  - destruct (has_column "aspects_parsed" d) eqn:Hc.
    + assert (Hh : cells_hashable d = true).
      { simpl in Hw. rewrite Hc in Hw. apply andb_true_iff in Hw. tauto. }
      pose proof (analyze_well_typed d Hc Hh) as Ha.
      pose proof (create_well_typed d max_aspects max_categories Hc Hw) as Hm.
      split; [eauto|]. split; [eauto|]. split; [discriminate|].
      split; [intros d' E; injection E as <-; congruence|].
      intros d' E _ Hr. injection E as <-. split.
      * rewrite Ha. unfold occurrences. rewrite Hr. reflexivity.
      * rewrite Hm, selected_aspects_no_rows by exact Hr. reflexivity.
    + assert (Ha : analyze_category_aspects (Some d) = Ok None)
        by (simpl; rewrite Hc; reflexivity).
      assert (Hm : create_aspect_category_matrix (Some d) max_aspects max_categories
                   = Ok None)
        by (simpl; rewrite Hc; reflexivity).
      split; [eauto|]. split; [eauto|]. split; [discriminate|].
      split; [intros d' E _; injection E as <-; auto|].
      intros d' E Hc'. injection E as <-. congruence.
  - split; [simpl; eauto|]. split; [simpl; eauto|]. split; [auto|].
    split; intros; discriminate.
Qed.

(** C5.  The empty collection is not handled by the matrix builder.  For a
    file that holds only its header line [load_category_data] returns a
    frame without rows whose columns have the dtype object; on that frame
    [analyze_category_aspects] returns the empty table, but
    [create_aspect_category_matrix] raises TypeError from [df.nlargest]
    instead of returning [None] or an empty table. *)
Theorem matrix_raises_on_empty_collection :
  (forall literal_eval sample,
      load_category_data literal_eval (fun _ => Ok header_only_csv) sample
                         "review_categories.csv" 500
      = Ok (Some header_only_loaded))
  /\ rows header_only_loaded = []
  /\ analyze_category_aspects (Some header_only_loaded) = Ok (Some [])
  /\ create_aspect_category_matrix (Some header_only_loaded) 1000 500
     = Raise TypeError.
Proof. repeat split. Qed.

(** C6.  A collection in which no category has an aspect.  The loader
    returns it for a file whose aspect fields are empty; the builder then
    returns [pd.DataFrame([])], a matrix without rows and without any
    column, so the column count is not one more than the number of selected
    categories: the column "aspect" is missing, and the heat-map step of
    the page raises KeyError when it selects it. *)
Theorem matrix_without_aspects_has_no_columns :
  (forall literal_eval sample,
      load_category_data literal_eval (fun _ => Ok no_aspects_csv) sample
                         "review_categories.csv" 500
      = Ok (Some no_aspects_frame))
  /\ NoDup (map name (rows no_aspects_frame))
  /\ exists m,
       create_aspect_category_matrix (Some no_aspects_frame) 1000 500
       = Ok (Some m)
       /\ matrix_rows m = []
       /\ matrix_columns m = []
       /\ Z.of_nat (List.length (matrix_columns m)) - 1
          <> Z.min 500 (Z.of_nat (List.length
                                    (nodup string_dec
                                           (map name (rows no_aspects_frame)))))
       /\ matrix_subset m = Raise KeyError.
Proof.
  split; [reflexivity|]. split.
  - simpl. repeat constructor. simpl. tauto.
  - eexists. split; [reflexivity|]. repeat split. vm_compute. discriminate.
Qed.

(** ** Summary statistics *)

Lemma length_filter_split {A : Type} (f : A -> bool) (l : list A) :
  (List.length (filter f l) + List.length (filter (fun x => negb (f x)) l)
   = List.length l)%nat.
Proof.
  induction l as [|x l IH]; simpl; [reflexivity|].
  destruct (f x); simpl; lia.
Qed.

(** *** float64: conversion, sum and division of integers below 2^53 *)

Lemma digits2_log2 (p : positive) :
  Z.pos (digits2_pos p) = Z.log2 (Z.pos p) + 1.
Proof.
  assert (H : forall q, digits2_pos q = Pos.size q)
    by (induction q; simpl; congruence).
  destruct p; simpl; rewrite ?H; lia.
Qed.

Lemma digits2_bounds (p : positive) (k : Z) :
  2 ^ (k - 1) <= Z.pos p < 2 ^ k -> Z.pos (digits2_pos p) = k.
Proof.
  intros [Hl Hu]. rewrite digits2_log2.
  assert (Hk : 0 <= k - 1).
  { destruct (Z_lt_le_dec (k - 1) 0) as [H|H]; [|exact H].
    exfalso. assert (k <= 0) by lia.
    assert (2 ^ k <= 2 ^ 0) by (apply Z.pow_le_mono_r; lia).
    simpl in *. lia. }
  rewrite (Z.log2_unique (Z.pos p) (k - 1)); [lia|exact Hk|].
  split; [exact Hl|]. replace (Z.succ (k - 1)) with k by lia. exact Hu.
Qed.

Lemma digits2_spec (p : positive) :
  2 ^ (Z.pos (digits2_pos p) - 1) <= Z.pos p < 2 ^ Z.pos (digits2_pos p).
Proof.
  rewrite digits2_log2. replace (Z.log2 (Z.pos p) + 1 - 1) with (Z.log2 (Z.pos p)) by lia.
  replace (Z.log2 (Z.pos p) + 1) with (Z.succ (Z.log2 (Z.pos p))) by lia.
  apply Z.log2_spec. lia.
Qed.

Lemma iter_xO (p k : positive) :
  Z.pos (Pos.iter xO p k) = Z.pos p * 2 ^ Z.pos k.
Proof.
  change (Pos.iter xO p k) with (shift_pos k p).
  rewrite shift_pos_correct. rewrite Z.mul_comm. reflexivity.
Qed.

Lemma shl_align_spec (p : positive) (e e' : Z) :
  e' <= e ->
  Z.pos (fst (shl_align p e e')) = Z.pos p * 2 ^ (e - e')
  /\ snd (shl_align p e e') = e'.
Proof.
  intros H. unfold shl_align. destruct (e' - e) as [|k|k] eqn:E; simpl.
  - replace (e - e') with 0 by lia. simpl. lia.
  - lia.
  - rewrite iter_xO. replace (e - e') with (Z.pos k) by lia. auto.
Qed.

Lemma iter_pos_nat {A : Type} (f : A -> A) (p : positive) (x : A) :
  iter_pos f p x = Nat.iter (Pos.to_nat p) f x.
Proof.
  revert x. induction p as [p IH|p IH|]; intros x.
  - rewrite Pos2Nat.inj_xI. cbn [iter_pos]. rewrite !IH.
    replace (S (2 * Pos.to_nat p)) with (Pos.to_nat p + Pos.to_nat p + 1)%nat by lia.
    rewrite !Nat.iter_add. reflexivity.
  - rewrite Pos2Nat.inj_xO. cbn [iter_pos]. rewrite !IH.
    replace (2 * Pos.to_nat p)%nat with (Pos.to_nat p + Pos.to_nat p)%nat by lia.
    rewrite Nat.iter_add. reflexivity.
  - reflexivity.
Qed.

(** Shifting out zero bits is exact. *)
Lemma shr_exact_nat (n : nat) (m M : positive) :
  Z.pos M = Z.pos m * 2 ^ Z.of_nat n ->
  Nat.iter n shr_1 {| shr_m := Z.pos M; shr_r := false; shr_s := false |}
  = {| shr_m := Z.pos m; shr_r := false; shr_s := false |}.
Proof.
  revert M. induction n as [|n IH]; intros M H.
  - simpl in H. assert (M = m) by lia. subst. reflexivity.
  - rewrite Nat.iter_succ_r.
    rewrite Nat2Z.inj_succ, Z.pow_succ_r in H by lia.
    destruct M as [M|M|].
    + exfalso. rewrite Pos2Z.inj_xI in H. lia.
    + simpl shr_1. apply IH. rewrite Pos2Z.inj_xO in H. lia.
    + exfalso. assert (0 < 2 ^ Z.of_nat n) by (apply Z.pow_pos_nonneg; lia). nia.
Qed.

Lemma shr_exact (m M : positive) (e n : Z) :
  0 <= n -> Z.pos M = Z.pos m * 2 ^ n ->
  shr {| shr_m := Z.pos M; shr_r := false; shr_s := false |} e n
  = ({| shr_m := Z.pos m; shr_r := false; shr_s := false |}, e + n).
Proof.
  intros Hn H. destruct n as [|n|n]; [| |lia].
  - simpl in *. assert (M = m) by lia. subst. rewrite Z.add_0_r. reflexivity.
  - unfold shr. rewrite iter_pos_nat. rewrite (shr_exact_nat _ m); [reflexivity|].
    rewrite positive_nat_Z. exact H.
Qed.

Lemma fexp_normal (e : Z) : -1021 <= e -> fexp F64.prec F64.emax e = e - 53.
Proof. intros H. unfold fexp, emin, F64.prec, F64.emax. lia. Qed.

(** Rounding a mantissa of 53 bits changes nothing. *)
Lemma binary_round_aux_id (s : bool) (m : positive) (e : Z) :
  Z.pos (digits2_pos m) = 53 -> -1074 <= e <= 971 ->
  binary_round_aux F64.prec F64.emax s (Z.pos m) e loc_Exact = S754_finite s m e.
Proof.
  intros Hd He. unfold binary_round_aux, shr_fexp.
  cbn [Zdigits2 shr_record_of_loc]. rewrite Hd.
  rewrite fexp_normal by lia.
  replace (53 + e - 53 - e) with 0 by lia.
  cbn [shr shr_m loc_of_shr_record round_nearest_even Zdigits2 shr_record_of_loc].
  rewrite Hd. rewrite fexp_normal by lia.
  replace (53 + e - 53 - e) with 0 by lia.
  cbn [shr shr_m].
  replace (e <=? F64.emax - F64.prec) with true; [reflexivity|].
  symmetry. apply Z.leb_le. unfold F64.emax, F64.prec. lia.
Qed.

Lemma digits2_scaled (v M : positive) (k : Z) :
  0 <= k -> Z.pos M = Z.pos v * 2 ^ k ->
  Z.pos (digits2_pos M) = Z.pos (digits2_pos v) + k.
Proof.
  intros Hk H. apply digits2_bounds. rewrite H.
  pose proof (digits2_spec v) as [Hl Hu].
  assert (Hp : 0 < 2 ^ k) by (apply Z.pow_pos_nonneg; lia).
  assert (0 <= Z.pos (digits2_pos v) - 1) by lia.
  replace (Z.pos (digits2_pos v) + k - 1) with (Z.pos (digits2_pos v) - 1 + k) by lia.
  rewrite !Z.pow_add_r by lia. split; nia.
Qed.

Lemma mant_spec (v : positive) :
  Z.pos v < 2 ^ 53 ->
  Z.pos (mant v) = Z.pos v * 2 ^ (53 - Z.pos (digits2_pos v))
  /\ Z.pos (digits2_pos v) <= 53
  /\ Z.pos (digits2_pos (mant v)) = 53.
Proof.
  intros Hv. pose proof (digits2_spec v) as [Hl Hu].
  assert (Hd : Z.pos (digits2_pos v) <= 53).
  { destruct (Z_le_gt_dec (Z.pos (digits2_pos v)) 53) as [H|H]; [exact H|].
    exfalso. assert (2 ^ 53 <= 2 ^ (Z.pos (digits2_pos v) - 1))
      by (apply Z.pow_le_mono_r; lia). lia. }
  assert (Hp : 0 < 2 ^ (53 - Z.pos (digits2_pos v)))
    by (apply Z.pow_pos_nonneg; lia).
  assert (Hm : Z.pos (mant v) = Z.pos v * 2 ^ (53 - Z.pos (digits2_pos v))).
  { unfold mant. rewrite Z2Pos.id; [reflexivity|]. nia. }
  split; [exact Hm|]. split; [exact Hd|].
  rewrite (digits2_scaled v (mant v) (53 - Z.pos (digits2_pos v))); [lia|lia|exact Hm].
Qed.

Lemma binary_round_int (v M : positive) (k : Z) :
  0 <= k -> Z.pos v < 2 ^ 53 -> Z.pos M = Z.pos v * 2 ^ k ->
  binary_round F64.prec F64.emax false M (- k)
  = S754_finite false (mant v) (Z.pos (digits2_pos v) - 53).
Proof.
  intros Hk Hv HM.
  destruct (mant_spec v Hv) as [Hm [Hd Hdm]].
  pose proof (digits2_scaled v M k Hk HM) as HdM.
  unfold binary_round. rewrite HdM.
  replace (Z.pos (digits2_pos v) + k + - k) with (Z.pos (digits2_pos v)) by lia.
  rewrite fexp_normal by lia.
  set (d := Z.pos (digits2_pos v)) in *.
  destruct (Z_le_gt_dec (d - 53) (- k)) as [Hc|Hc].
  - destruct (shl_align_spec M (- k) (d - 53) Hc) as [H1 H2].
    destruct (shl_align M (- k) (d - 53)) as [mz ez]. cbn [fst snd] in H1, H2.
    subst ez.
    assert (E : mz = mant v).
    { apply Pos2Z.inj. rewrite H1, HM, Hm.
      rewrite <- Z.mul_assoc, <- Z.pow_add_r by lia. f_equal. f_equal. lia. }
    subst mz. apply binary_round_aux_id; [exact Hdm|lia].
  - assert (E : shl_align M (- k) (d - 53) = (M, - k)).
    { unfold shl_align. destruct (d - 53 - - k) eqn:E; try reflexivity. lia. }
    rewrite E. unfold binary_round_aux, shr_fexp.
    cbn [Zdigits2 shr_record_of_loc]. rewrite HdM. fold d.
    rewrite fexp_normal by lia.
    rewrite (shr_exact (mant v) M (- k) (d + k + - k - 53 - - k)).
    + cbn [shr_m loc_of_shr_record round_nearest_even Zdigits2 shr_record_of_loc].
      rewrite Hdm. rewrite fexp_normal by lia.
      replace (53 + (- k + (d + k + - k - 53 - - k)) - 53
               - (- k + (d + k + - k - 53 - - k))) with 0 by lia.
      cbn [shr shr_m].
      replace (- k + (d + k + - k - 53 - - k)) with (d - 53) by lia.
      replace (d - 53 <=? F64.emax - F64.prec) with true; [reflexivity|].
      symmetry. apply Z.leb_le. unfold F64.emax, F64.prec. lia.
    + lia.
    + rewrite HM, Hm. fold d. rewrite <- Z.mul_assoc, <- Z.pow_add_r by lia.
      f_equal. f_equal. lia.
Qed.

Lemma of_Z_pos (v : positive) :
  Z.pos v < 2 ^ 53 ->
  F64.of_Z (Z.pos v) = S754_finite false (mant v) (Z.pos (digits2_pos v) - 53).
Proof.
  intros Hv. unfold F64.of_Z. cbn [binary_normalize].
  apply (binary_round_int v v 0); [lia|exact Hv|]. simpl. lia.
Qed.

Lemma add_exact (a b : Z) :
  0 <= a -> 0 <= b -> a + b < 2 ^ 53 ->
  F64.add (F64.of_Z a) (F64.of_Z b) = F64.of_Z (a + b).
Proof.
  intros Ha Hb Hab.
  destruct a as [|a|a]; [|clear Ha|lia].
  { simpl. destruct b as [|b|b]; [reflexivity| |lia].
    rewrite of_Z_pos by lia. reflexivity. }
  destruct b as [|b|b]; [|clear Hb|lia].
  { rewrite Z.add_0_r. rewrite of_Z_pos by lia. reflexivity. }
  assert (Hva : Z.pos a < 2 ^ 53) by lia.
  assert (Hvb : Z.pos b < 2 ^ 53) by lia.
  rewrite (of_Z_pos a Hva), (of_Z_pos b Hvb).
  destruct (mant_spec a Hva) as [Hma [Hda _]].
  destruct (mant_spec b Hvb) as [Hmb [Hdb _]].
  set (da := Z.pos (digits2_pos a)) in *. set (db := Z.pos (digits2_pos b)) in *.
  unfold F64.add, SFadd. cbn [cond_Zopp].
  set (ez := Z.min (da - 53) (db - 53)).
  destruct (shl_align_spec (mant a) (da - 53) ez ltac:(unfold ez; lia)) as [H1 _].
  destruct (shl_align_spec (mant b) (db - 53) ez ltac:(unfold ez; lia)) as [H2 _].
  set (x := fst (shl_align (mant a) (da - 53) ez)) in *.
  set (y := fst (shl_align (mant b) (db - 53) ez)) in *.
  change (Z.pos x + Z.pos y) with (Z.pos (x + y)). cbn [binary_normalize].
  replace ez with (- (- ez)) at 1 by lia.
  change (Z.pos a + Z.pos b) with (Z.pos (a + b)).
  rewrite (of_Z_pos (a + b)) by (rewrite Pos2Z.inj_add; exact Hab).
  apply binary_round_int.
  - unfold ez. lia.
  - rewrite Pos2Z.inj_add. exact Hab.
  - rewrite !Pos2Z.inj_add, H1, H2, Hma, Hmb.
    assert (0 <= - ez) by (unfold ez; lia).
    rewrite <- !Z.mul_assoc, <- !Z.pow_add_r by (unfold ez; lia).
    replace (53 - da + (da - 53 - ez)) with (- ez) by lia.
    replace (53 - db + (db - 53 - ez)) with (- ez) by lia. ring.
Qed.


Lemma div_eucl_pair (a b : Z) : Z.div_eucl a b = (a / b, a mod b).
Proof. unfold Z.div, Z.modulo. destruct (Z.div_eucl a b). reflexivity. Qed.

Lemma loc_of_record_of_loc (m : Z) (l : location) :
  loc_of_shr_record (shr_record_of_loc m l) = l.
Proof. destruct l as [|[]]; reflexivity. Qed.

(** The location computed by the division is the place of the remainder
    with respect to half the divisor. *)
Lemma new_location_spec (d r : Z) :
  0 < d -> 0 <= r < d ->
  new_location d r
  = if r =? 0 then loc_Exact else loc_Inexact (2 * r ?= d).
Proof.
  intros Hd Hr. unfold new_location.
  destruct (Z.even d) eqn:Ed.
  - reflexivity.
  - unfold new_location_odd. destruct (r =? 0); [reflexivity|]. f_equal.
    assert (Hne : 2 * r <> d).
    { intros E. rewrite <- E, Z.even_mul in Ed. discriminate Ed. }
    destruct (Z.compare_spec (2 * r + 1) d), (Z.compare_spec (2 * r) d);
      try reflexivity; lia.
Qed.

Lemma round_location (q d r : Z) :
  0 < d -> 0 <= r < d ->
  round_nearest_even q (new_location d r)
  = match 2 * r ?= d with
    | Lt => q
    | Gt => q + 1
    | Eq => if Z.even q then q else q + 1
    end.
Proof.
  intros Hd Hr. rewrite new_location_spec by assumption.
  destruct (r =? 0) eqn:E.
  - apply Z.eqb_eq in E. subst r. simpl.
    destruct d; try lia; reflexivity.
  - simpl. destruct (2 * r ?= d); reflexivity.
Qed.

(** One more bit shifted out after the division. *)
Lemma round_shr_1 (q : positive) (d r n : Z) :
  0 < d -> 0 <= r < d -> 2 * n = d * Z.pos q + r -> 1 < Z.pos q ->
  round_nearest_even
    (shr_m (shr_1 (shr_record_of_loc (Z.pos q) (new_location d r))))
    (loc_of_shr_record (shr_1 (shr_record_of_loc (Z.pos q) (new_location d r))))
  = rnd_div n d.
Proof.
  intros Hd Hr Hn Hq. rewrite new_location_spec by assumption.
  unfold rnd_div.
  destruct q as [p|p|]; [| |lia].
  - (* q = 2p + 1 *)
    rewrite Pos2Z.inj_xI in Hn.
    assert (Hdiv : n / d = Z.pos p).
    { symmetry. apply (Z.div_unique n d (Z.pos p) (n - d * Z.pos p)); lia. }
    assert (Hmod : n mod d = n - d * Z.pos p).
    { symmetry. apply (Z.mod_unique n d (Z.pos p) (n - d * Z.pos p)); lia. }
    rewrite Hdiv, Hmod.
    destruct (r =? 0) eqn:E.
    + apply Z.eqb_eq in E. subst r.
      replace (2 * (n - d * Z.pos p) ?= d) with Eq
        by (symmetry; apply Z.compare_eq_iff; lia).
      reflexivity.
    + apply Z.eqb_neq in E.
      replace (2 * (n - d * Z.pos p) ?= d) with Gt
        by (symmetry; apply Z.compare_gt_iff; lia).
      destruct (2 * r ?= d); reflexivity.
  - (* q = 2p *)
    rewrite Pos2Z.inj_xO in Hn.
    assert (Hdiv : n / d = Z.pos p).
    { symmetry. apply (Z.div_unique n d (Z.pos p) (n - d * Z.pos p)); lia. }
    assert (Hmod : n mod d = n - d * Z.pos p).
    { symmetry. apply (Z.mod_unique n d (Z.pos p) (n - d * Z.pos p)); lia. }
    rewrite Hdiv, Hmod.
    replace (2 * (n - d * Z.pos p) ?= d) with Lt
      by (symmetry; apply Z.compare_lt_iff; lia).
    destruct (r =? 0); [reflexivity|].
    destruct (2 * r ?= d); reflexivity.
Qed.

Lemma shr_fexp_53 (z : positive) (e : Z) (l : location) :
  Z.pos (digits2_pos z) = 53 -> -1074 <= e ->
  shr_fexp F64.prec F64.emax (Z.pos z) e l = (shr_record_of_loc (Z.pos z) l, e).
Proof.
  intros Hd He. unfold shr_fexp. cbn [Zdigits2]. rewrite Hd.
  rewrite fexp_normal by lia.
  replace (53 + e - 53 - e) with 0 by lia. reflexivity.
Qed.

Lemma shr_fexp_54 (z : positive) (e : Z) (l : location) :
  Z.pos (digits2_pos z) = 54 -> -1074 <= e ->
  shr_fexp F64.prec F64.emax (Z.pos z) e l
  = (shr_1 (shr_record_of_loc (Z.pos z) l), e + 1).
Proof.
  intros Hd He. unfold shr_fexp. cbn [Zdigits2]. rewrite Hd.
  rewrite fexp_normal by lia.
  replace (54 + e - 53 - e) with 1 by lia. reflexivity.
Qed.

(** The last step of rounding, for a mantissa that has its 53 bits. *)
Lemma binary_round_aux_final (z e : Z) (mrs : shr_record) :
  2 ^ 52 <= z < 2 ^ 53 -> -1074 <= e <= 971 ->
  round_nearest_even (shr_m mrs) (loc_of_shr_record mrs) = z ->
  (let '(mrs'', e'') :=
     shr_fexp F64.prec F64.emax
              (round_nearest_even (shr_m mrs) (loc_of_shr_record mrs)) e loc_Exact in
   match shr_m mrs'' with
   | 0 => S754_zero false
   | Z.pos m =>
       if e'' <=? F64.emax - F64.prec then S754_finite false m e''
       else S754_infinity false
   | Z.neg _ => S754_nan
   end)
  = S754_finite false (Z.to_pos z) e.
Proof.
  intros Hz He ->. destruct z as [|z|z]; try lia.
  rewrite shr_fexp_53; [|apply digits2_bounds; simpl; lia|lia].
  cbn [shr_m shr_record_of_loc Z.to_pos].
  replace (e <=? F64.emax - F64.prec) with true; [reflexivity|].
  symmetry. apply Z.leb_le. unfold F64.emax, F64.prec. lia.
Qed.

Lemma div_core (m1 m2 : positive) (e1 e2 : Z) :
  Z.pos (digits2_pos m1) = 53 -> Z.pos (digits2_pos m2) = 53 ->
  -52 <= e1 <= 0 -> -52 <= e2 <= 0 ->
  SFdiv_core_binary F64.prec F64.emax (Z.pos m1) e1 (Z.pos m2) e2
  = ((Z.pos m1 * 2 ^ 53) / Z.pos m2, e1 - e2 - 53,
     new_location (Z.pos m2) ((Z.pos m1 * 2 ^ 53) mod Z.pos m2)).
Proof.
  intros Hd1 Hd2 He1 He2. unfold SFdiv_core_binary. cbn [Zdigits2].
  rewrite Hd1, Hd2. cbv zeta.
  rewrite fexp_normal by lia. rewrite Z.min_l by lia.
  replace (e1 - e2 - (53 + e1 - (53 + e2) - 53)) with 53 by lia.
  cbv iota. rewrite Z.shiftl_mul_pow2 by lia.
  rewrite div_eucl_pair. replace (53 + e1 - (53 + e2) - 53) with (e1 - e2 - 53) by lia.
  reflexivity.
Qed.

(** Division of two normal floats whose quotient stays normal: the
    mantissa is the quotient of the mantissas, scaled to 53 bits and
    rounded to the nearest integer, ties to even. *)
Lemma div_finite (m1 m2 : positive) (e1 e2 : Z) :
  Z.pos (digits2_pos m1) = 53 -> Z.pos (digits2_pos m2) = 53 ->
  -52 <= e1 <= 0 -> -52 <= e2 <= 0 ->
  let s := if Z.pos m2 <=? Z.pos m1 then 52 else 53 in
  let m := rnd_div (Z.pos m1 * 2 ^ s) (Z.pos m2) in
  2 ^ 52 <= m < 2 ^ 53
  /\ F64.div (S754_finite false m1 e1) (S754_finite false m2 e2)
     = S754_finite false (Z.to_pos m) (e1 - e2 - s).
Proof.
  intros Hd1 Hd2 He1 He2 s m.
  pose proof (digits2_spec m1) as B1. rewrite Hd1 in B1.
  pose proof (digits2_spec m2) as B2. rewrite Hd2 in B2.
  change (2 ^ (53 - 1)) with 4503599627370496 in B1, B2.
  change (2 ^ 53) with 9007199254740992 in B1, B2.
  unfold F64.div, SFdiv. rewrite div_core by assumption. cbn [xorb].
  set (N := Z.pos m1 * 2 ^ 53).
  pose proof (Z.div_mod N (Z.pos m2) ltac:(lia)) as HN.
  pose proof (Z.mod_pos_bound N (Z.pos m2) ltac:(lia)) as Hr.
  set (q := N / Z.pos m2) in *. set (r := N mod Z.pos m2) in *.
  assert (EN : N = Z.pos m1 * 9007199254740992) by reflexivity.
  subst m s.
  destruct (Z.pos m2 <=? Z.pos m1) eqn:Hc.
  - apply Z.leb_le in Hc.
    set (n := Z.pos m1 * 2 ^ 52).
    assert (En : n = Z.pos m1 * 4503599627370496) by reflexivity.
    assert (Hq : 2 ^ 53 <= q < 2 ^ 54).
    { change (2 ^ 53) with 9007199254740992. change (2 ^ 54) with 18014398509481984.
      split; [|]; nia. }
    assert (Hz : 2 ^ 52 <= rnd_div n (Z.pos m2) < 2 ^ 53).
    { unfold rnd_div.
      pose proof (Z.div_mod n (Z.pos m2) ltac:(lia)) as Hn.
      pose proof (Z.mod_pos_bound n (Z.pos m2) ltac:(lia)) as Hr2.
      set (q2 := n / Z.pos m2) in *. set (r2 := n mod Z.pos m2) in *.
      change (2 ^ 52) with 4503599627370496. change (2 ^ 53) with 9007199254740992.
      assert (4503599627370496 <= q2) by nia.
      assert (q2 < 9007199254740992) by nia.
      destruct (Z.compare_spec (2 * r2) (Z.pos m2)) as [E|E|E].
      - destruct (Z.even q2); [lia|]. split; [lia|]. nia.
      - lia.
      - split; [lia|]. nia. }
    destruct q as [|qp|qp] eqn:Eq; try (change (2 ^ 53) with 9007199254740992 in Hq; lia).
    split; [exact Hz|].
    unfold binary_round_aux.
    rewrite shr_fexp_54; [|apply digits2_bounds; exact Hq|lia].
    replace (e1 - e2 - 52) with (e1 - e2 - 53 + 1) by lia.
    apply binary_round_aux_final; [exact Hz|lia|].
    apply round_shr_1; [lia|exact Hr| |change (2 ^ 53) with 9007199254740992 in Hq; lia].
    lia.
  - apply Z.leb_gt in Hc.
    assert (Hq : 2 ^ 52 <= q < 2 ^ 53).
    { change (2 ^ 52) with 4503599627370496. change (2 ^ 53) with 9007199254740992.
      split; nia. }
    assert (Hz : 2 ^ 52 <= rnd_div N (Z.pos m2) < 2 ^ 53).
    { unfold rnd_div. fold q r.
      change (2 ^ 52) with 4503599627370496 in *.
      change (2 ^ 53) with 9007199254740992 in *.
      destruct (Z.compare_spec (2 * r) (Z.pos m2)) as [E|E|E].
      - destruct (Z.even q); [lia|]. split; [lia|]. nia.
      - lia.
      - split; [lia|]. nia. }
    destruct q as [|qp|qp] eqn:Eq; try (change (2 ^ 52) with 4503599627370496 in Hq; lia).
    split; [exact Hz|].
    unfold binary_round_aux.
    rewrite shr_fexp_53; [|apply digits2_bounds; exact Hq|lia].
    apply binary_round_aux_final; [exact Hz|lia|].
    cbn [shr_m shr_record_of_loc]. rewrite loc_of_record_of_loc.
    assert (Eqm : shr_m (shr_record_of_loc (Z.pos qp) (new_location (Z.pos m2) r))
                  = Z.pos qp) by (destruct (new_location (Z.pos m2) r) as [|[]]; reflexivity).
    rewrite Eqm. rewrite round_location by lia.
    unfold rnd_div.
    change (Z.pos m1 * 2 ^ 53 / Z.pos m2) with q.
    change ((Z.pos m1 * 2 ^ 53) mod Z.pos m2) with r.
    rewrite Eq. reflexivity.
Qed.

Lemma rnd_div_nearest (n d : Z) :
  0 < d -> 2 * Z.abs (n - rnd_div n d * d) <= d.
Proof.
  intros Hd. unfold rnd_div.
  pose proof (Z.div_mod n d ltac:(lia)) as Hn.
  pose proof (Z.mod_pos_bound n d Hd) as Hr.
  set (q := n / d) in *. set (r := n mod d) in *.
  destruct (Z.compare_spec (2 * r) d) as [E|E|E].
  - destruct (Z.even q); lia.
  - lia.
  - lia.
Qed.

Lemma rnd_div_exact (n d q : Z) : 0 < d -> n = q * d -> rnd_div n d = q.
Proof.
  intros Hd ->. unfold rnd_div. rewrite Z.div_mul, Z.mod_mul by lia.
  simpl. destruct d; try lia; reflexivity.
Qed.

(** Division of two positive integers below 2^53 as floats: the result is
    [m * 2^e] with a mantissa of 53 bits, within half a unit of the last
    place of the quotient, and equal to the quotient when that has at most
    53 significant bits. *)
Lemma div_of_Z (a b : Z) :
  0 < a < 2 ^ 53 -> 0 < b < 2 ^ 53 ->
  exists m e,
    F64.div (F64.of_Z a) (F64.of_Z b) = S754_finite false m e
    /\ 2 ^ 52 <= Z.pos m < 2 ^ 53
    /\ -105 <= e <= 0
    /\ 2 * Z.abs (a * 2 ^ (- e) - Z.pos m * b) <= b
    /\ (forall m' k, 0 <= k -> 0 < m' < 2 ^ 53 -> a * 2 ^ k = m' * b ->
                     a * 2 ^ (- e) = Z.pos m * b).
Proof.
  intros Ha Hb.
  destruct a as [|a|a]; try lia. destruct b as [|b|b]; try lia.
  rewrite (of_Z_pos a), (of_Z_pos b) by lia.
  destruct (mant_spec a ltac:(lia)) as [Hm1 [Hda Hd1]].
  destruct (mant_spec b ltac:(lia)) as [Hm2 [Hdb Hd2]].
  set (da := Z.pos (digits2_pos a)) in *. set (db := Z.pos (digits2_pos b)) in *.
  assert (Hda1 : 1 <= da) by (unfold da; lia).
  assert (Hdb1 : 1 <= db) by (unfold db; lia).
  pose proof (div_finite (mant a) (mant b) (da - 53) (db - 53) Hd1 Hd2
                         ltac:(lia) ltac:(lia)) as H.
  cbv zeta in H.
  set (s := if Z.pos (mant b) <=? Z.pos (mant a) then 52 else 53) in *.
  assert (Hs : 52 <= s <= 53)
    by (unfold s; destruct (Z.pos (mant b) <=? Z.pos (mant a)); lia).
  set (m := rnd_div (Z.pos (mant a) * 2 ^ s) (Z.pos (mant b))) in *.
  destruct H as [Hm Hdiv].
  exists (Z.to_pos m), (da - 53 - (db - 53) - s).
  assert (Em : Z.pos (Z.to_pos m) = m)
    by (apply Z2Pos.id; change (2 ^ 52) with 4503599627370496 in Hm; lia).
  rewrite Em.
  split; [exact Hdiv|]. split; [exact Hm|]. split; [lia|].
  replace (- (da - 53 - (db - 53) - s)) with (s + db - da) by lia.
  set (P2 := 2 ^ (53 - db)).
  assert (HP2 : 0 < P2) by (apply Z.pow_pos_nonneg; lia).
  assert (Hkey : Z.pos a * 2 ^ (s + db - da) * P2 = Z.pos (mant a) * 2 ^ s).
  { rewrite Hm1. unfold P2.
    rewrite <- !Z.mul_assoc, <- !Z.pow_add_r by lia.
    f_equal. f_equal. lia. }
  assert (Hm2' : Z.pos (mant b) = Z.pos b * P2) by exact Hm2.
  assert (Hlow : 2 ^ 52 * Z.pos (mant b) <= Z.pos (mant a) * 2 ^ s).
  { pose proof (digits2_spec (mant a)) as B1. rewrite Hd1 in B1.
    pose proof (digits2_spec (mant b)) as B2. rewrite Hd2 in B2.
    change (2 ^ (53 - 1)) with 4503599627370496 in B1, B2.
    change (2 ^ 53) with 9007199254740992 in B1, B2.
    unfold s. destruct (Z.pos (mant b) <=? Z.pos (mant a)) eqn:Hc.
    - apply Z.leb_le in Hc. change (2 ^ 52) with 4503599627370496. lia.
    - change (2 ^ 52) with 4503599627370496.
      change (2 ^ 53) with 9007199254740992. nia. }
  split.
  - pose proof (rnd_div_nearest (Z.pos (mant a) * 2 ^ s) (Z.pos (mant b))
                                ltac:(lia)) as Hn.
    fold m in Hn. rewrite <- Hkey, Hm2' in Hn.
    replace (Z.pos a * 2 ^ (s + db - da) * P2 - m * (Z.pos b * P2))
      with ((Z.pos a * 2 ^ (s + db - da) - m * Z.pos b) * P2) in Hn by ring.
    rewrite Z.abs_mul, (Z.abs_eq P2) in Hn by lia. nia.
  - intros m' k Hk Hm' Hrep.
    assert (Hdivides : exists qq, Z.pos a * 2 ^ (s + db - da) = qq * Z.pos b).
    { destruct (Z_le_gt_dec k (s + db - da)) as [Hle|Hgt].
      - exists (m' * 2 ^ (s + db - da - k)).
        replace (s + db - da) with (k + (s + db - da - k)) at 1 by lia.
        rewrite Z.pow_add_r by lia. rewrite Z.mul_assoc, Hrep. ring.
      - exfalso.
        assert (Hj : 2 ^ k = 2 ^ (s + db - da) * 2 ^ (k - (s + db - da)))
          by (rewrite <- Z.pow_add_r by lia; f_equal; lia).
        assert (Hj2 : 2 <= 2 ^ (k - (s + db - da))).
        { change 2 with (2 ^ 1) at 1. apply Z.pow_le_mono_r; lia. }
        assert (Hlow' : 2 ^ 52 * Z.pos b <= Z.pos a * 2 ^ (s + db - da)).
        { rewrite <- Hkey, Hm2' in Hlow. nia. }
        rewrite Hj in Hrep.
        change (2 ^ 52) with 4503599627370496 in Hlow'.
        change (2 ^ 53) with 9007199254740992 in Hm'.
        set (T := 2 ^ (s + db - da)) in *. set (J := 2 ^ (k - (s + db - da))) in *.
        assert (Z.pos a * T * 2 <= m' * Z.pos b) by nia.
        nia. }
    destruct Hdivides as [qq Hqq].
    assert (Eq : m = qq).
    { unfold m. apply rnd_div_exact; [lia|].
      rewrite <- Hkey, Hqq, Hm2'. ring. }
    rewrite Eq. exact Hqq.
Qed.

Lemma sum_nonneg (l : list Z) :
  Forall (fun z => 0 <= z) l -> 0 <= fold_right Z.add 0 l.
Proof. induction 1; simpl; lia. Qed.

Lemma sum_exact_from (l : list Z) (acc : Z) :
  0 <= acc -> Forall (fun z => 0 <= z) l ->
  acc + fold_right Z.add 0 l < 2 ^ 53 ->
  fold_left F64.add (map F64.of_Z l) (F64.of_Z acc)
  = F64.of_Z (acc + fold_right Z.add 0 l).
Proof.
  revert acc. induction l as [|x l IH]; simpl; intros acc Ha Hl Hs.
  - rewrite Z.add_0_r. reflexivity.
  - inversion Hl as [|? ? Hx Hl']; subst.
    pose proof (sum_nonneg l Hl').
    rewrite add_exact by lia. rewrite IH by (try assumption; lia).
    f_equal. lia.
Qed.

Lemma sum_exact (l : list Z) :
  Forall (fun z => 0 <= z) l -> fold_right Z.add 0 l < 2 ^ 53 ->
  F64.sum (map F64.of_Z l) = F64.of_Z (fold_right Z.add 0 l).
Proof.
  intros Hl Hs. unfold F64.sum. change F64.zero with (F64.of_Z 0).
  rewrite sum_exact_from by (try assumption; lia). reflexivity.
Qed.

(** The mean of counts that are not negative and sum to less than 2^53:
    one division of the exact sum by the number of values. *)
Lemma mean_of_counts (l : list Z) :
  l <> [] ->
  Forall (fun z => 0 <= z) l ->
  fold_right Z.add 0 l < 2 ^ 53 ->
  mean l = F64.div (F64.of_Z (fold_right Z.add 0 l))
                   (F64.of_Z (Z.of_nat (List.length l))).
Proof.
  intros Hne Hl Hs. destruct l as [|x l]; [congruence|].
  unfold mean. rewrite sum_exact by assumption. reflexivity.
Qed.

(** C9 (as amended).  For a frame with the column [aspectsCount]: the
    total is the number of rows, withAspects the number of rows with a
    positive count, withoutAspects their difference (the rows with a count
    of zero or less).  The mean is a float64: NaN when there is no row,
    else the float64 sum of the counts divided by the number of rows.
    For counts that are not negative and sum to less than 2^53 (so that the
    float64 sum is exact) it is the quotient of the sum by the number of
    rows rounded to the nearest float64: [m * 2^e] with a mantissa of 53
    bits, within half a unit of the last place of the arithmetic mean, and
    the arithmetic mean itself whenever that has at most 53 significant
    bits.  The two-row example gives 2, 2, 0 and 1.5. *)
Theorem summary_statistics (df : DataFrame) :
  has_column "aspectsCount" df = true ->
  exists s,
    summary df = Ok s
    /\ total_categories s = Z.of_nat (List.length (rows df))
    /\ categories_with_aspects s
       = Z.of_nat (List.length (filter (fun r => 0 <? aspectsCount r) (rows df)))
    /\ categories_without_aspects s
       = total_categories s - categories_with_aspects s
    /\ categories_without_aspects s
       = Z.of_nat (List.length (filter (fun r => aspectsCount r <=? 0) (rows df)))
    /\ (rows df = [] -> avg_aspects s = S754_nan)
    /\ (rows df <> [] ->
        avg_aspects s
        = F64.div (F64.sum (map F64.of_Z (map aspectsCount (rows df))))
                  (F64.of_Z (Z.of_nat (List.length (rows df)))))
    /\ (rows df <> [] ->
        (forall r, In r (rows df) -> 0 <= aspectsCount r) ->
        counts_total df < 2 ^ 53 ->
        Z.of_nat (List.length (rows df)) < 2 ^ 53 ->
        (counts_total df = 0 -> avg_aspects s = S754_zero false)
        /\ (0 < counts_total df ->
            exists m e,
              avg_aspects s = S754_finite false m e
              /\ 2 ^ 52 <= Z.pos m < 2 ^ 53
              /\ -105 <= e <= 0
              /\ 2 * Z.abs (counts_total df * 2 ^ (- e)
                            - Z.pos m * Z.of_nat (List.length (rows df)))
                 <= Z.of_nat (List.length (rows df))
              /\ (forall m' k,
                    0 <= k -> 0 < m' < 2 ^ 53 ->
                    counts_total df * 2 ^ k
                    = m' * Z.of_nat (List.length (rows df)) ->
                    counts_total df * 2 ^ (- e)
                    = Z.pos m * Z.of_nat (List.length (rows df)))))
    /\ summary example_csv
       = Ok {| total_categories := 2; categories_with_aspects := 2;
               categories_without_aspects := 0;
               avg_aspects := S754_finite false 6755399441055744 (-52) |}
    /\ exists q,
         F64.to_Q (S754_finite false 6755399441055744 (-52)) = Some q
         /\ (q == 3 # 2)%Q.
Proof.
  intros Hc. unfold summary. rewrite Hc. eexists. split; [reflexivity|].
  cbn [total_categories categories_with_aspects categories_without_aspects
       avg_aspects].
  split; [reflexivity|]. split; [reflexivity|]. split; [reflexivity|].
  split; [|split; [|split; [|split; [|split]]]].
  - rewrite <- (length_filter_split (fun r => 0 <? aspectsCount r) (rows df)).
    rewrite Nat2Z.inj_add.
    replace (filter (fun r => aspectsCount r <=? 0) (rows df))
      with (filter (fun r => negb (0 <? aspectsCount r)) (rows df)); [lia|].
    apply filter_ext. intros r.
    destruct (0 <? aspectsCount r) eqn:E1, (aspectsCount r <=? 0) eqn:E2;
      try reflexivity; lia.
  - intros Hr. rewrite Hr. reflexivity.
  - intros Hr. unfold mean. rewrite length_map.
    destruct (rows df); [congruence|reflexivity].
  - intros Hr Hpos Hsum Hlen.
    assert (Hl : Forall (fun z => 0 <= z) (map aspectsCount (rows df))).
    { apply Forall_forall. intros z Hz. apply in_map_iff in Hz as [r [<- Hin]].
      apply Hpos. exact Hin. }
    assert (Hn : 0 < Z.of_nat (List.length (rows df)))
      by (destruct (rows df); [congruence|simpl; lia]).
    rewrite mean_of_counts;
      [|intros E; apply map_eq_nil in E; congruence|exact Hl|exact Hsum].
    rewrite length_map. fold (counts_total df). split.
    + intros E. rewrite E.
      destruct (Z.of_nat (List.length (rows df))) as [|n|n] eqn:En; try lia.
      rewrite of_Z_pos by lia. reflexivity.
    + intros Ht. apply div_of_Z; lia.
  - reflexivity.
  - eexists. split; [reflexivity|]. reflexivity.
Qed.

Lemma summary_statistics_witness :
  exists s,
    summary example_csv = Ok s
    /\ total_categories s = 2
    /\ categories_with_aspects s = 2
    /\ categories_without_aspects s = 0
    /\ exists m e,
         avg_aspects s = S754_finite false m e
         /\ 3 * 2 ^ (- e) = Z.pos m * 2.
Proof.
  destruct (summary_statistics example_csv eq_refl)
    as [s [Hs [Ht [Hw [Hd [_ [_ [_ [Hmean _]]]]]]]]].
  exists s. split; [exact Hs|]. split; [exact Ht|]. split; [exact Hw|].
  split; [rewrite Hd, Ht, Hw; reflexivity|].
  destruct Hmean as [_ Hpos].
  - discriminate.
  - intros r [<-|[<-|[]]]; simpl; lia.
  - reflexivity.
  - reflexivity.
  - destruct (Hpos eq_refl) as [m [e [Hm [_ [_ [_ Hexact]]]]]].
    exists m, e. split; [exact Hm|].
    apply (Hexact 3 1); [lia|split; reflexivity|reflexivity].
Defined.

(** C9 as stated fails on the mean: for the counts 1, 1 and 2 the page
    holds the float64 nearest to 4/3, which is not 4/3. *)
Lemma mean_is_rounded :
  ~ (forall df s,
        has_column "aspectsCount" df = true ->
        summary df = Ok s ->
        rows df <> [] ->
        exists q,
          F64.to_Q (avg_aspects s) = Some q
          /\ (q * inject_Z (Z.of_nat (List.length (rows df)))
              == inject_Z (counts_total df))%Q).
Proof.
  intros H.
  destruct (H thirds_csv _ eq_refl eq_refl ltac:(discriminate)) as [q [E Hq]].
  vm_compute in E. injection E as <-.
  vm_compute in Hq. discriminate Hq.
Qed.

(** ** What the load path parses *)

Lemma assign_rows (literal_eval : string -> result pyval)
  (rs : list Row) (vs : list pyval) :
  Forall2 (fun x y => parse_cell literal_eval x = Ok y) (map aspects rs) vs ->
  Forall (fun r => parse_cell literal_eval (aspects r) = Ok (aspects_parsed r))
         (map (fun rv => set_aspects_parsed (fst rv) (snd rv)) (combine rs vs)).
Proof.
  revert vs. induction rs as [|r rs IH]; simpl; intros vs H.
  - constructor.
  - inversion H as [|x y l l' Hx Hl]; subst. simpl.
    constructor; [exact Hx|apply IH; exact Hl].
Qed.

(** Every row of a loaded frame holds the outcome of [parse_cell]. *)
Lemma load_rows
  (literal_eval : string -> result pyval)
  (read_csv : string -> result DataFrame)
  (sample : Z -> DataFrame -> result DataFrame)
  (file_path : string) (max_rows : Z) (df : DataFrame) :
  load_category_data literal_eval read_csv sample file_path max_rows
  = Ok (Some df) ->
  has_column "aspects" df = true ->
  Forall (fun r => parse_cell literal_eval (aspects r) = Ok (aspects_parsed r))
         (rows df).
Proof.
  unfold load_category_data, load_category_data_body. intros H Hc.
  destruct (read_csv file_path) as [df0|]; simpl in H; [|discriminate H].
  destruct (if max_rows <? Z.of_nat (List.length (rows df0))
            then sample max_rows df0 else Ok df0) as [df1|];
    simpl in H; [|discriminate H].
  destruct (has_column "aspects" df1) eqn:E1.
  - destruct (apply (parse_cell literal_eval) (map aspects (rows df1)))
      as [vs|] eqn:Ea; simpl in H; [|discriminate H].
    injection H as <-. simpl. apply assign_rows.
    apply apply_Forall2. exact Ea.
  - simpl in H. injection H as <-. congruence.
Qed.

Lemma assign_has_column (df : DataFrame) (vs : list pyval) :
  has_column "aspects_parsed" (assign_aspects_parsed df vs) = true.
Proof.
  unfold assign_aspects_parsed, has_column at 1. cbn [columns].
  destruct (has_column "aspects_parsed" df) eqn:E; [exact E|].
  rewrite existsb_app. cbn [existsb]. rewrite String.eqb_refl.
  apply orb_true_r.
Qed.

(** Rows whose parsed cell is the empty list leave the counter alone. *)
Lemma count_cells_skip (keep : Row -> bool) (rs : list Row) (c : Counter.t) :
  (forall r, In r rs -> keep r = false -> aspects_parsed r = PList []) ->
  count_cells c (map aspects_parsed rs)
  = count_cells c (map aspects_parsed (filter keep rs)).
Proof.
  revert c. induction rs as [|r rs IH]; simpl; intros c H; [reflexivity|].
  destruct (keep r) eqn:E; simpl.
  - destruct (aspects_parsed r) as [| | |l]; try (apply IH; auto).
    destruct (Counter.update c l); simpl; [apply IH; auto|reflexivity].
  - rewrite (H r) by auto. simpl. apply IH. auto.
Qed.

(** C10.  In a loaded frame, a row whose field is a string that starts,
    once stripped, with "[" holds the literal evaluation of the field, and
    every other row holds the empty list.  The frequency table is that of
    the decoded rows alone, and with unique names the matrix cells of a
    selected category whose field was not decoded are all 0. *)
Theorem load_parses_bracketed_only
  (literal_eval : string -> result pyval)
  (read_csv : string -> result DataFrame)
  (sample : Z -> DataFrame -> result DataFrame)
  (file_path : string) (max_rows : Z) (df : DataFrame)
  (max_aspects max_categories : Z) :
  load_category_data literal_eval read_csv sample file_path max_rows
  = Ok (Some df) ->
  has_column "aspects" df = true ->
  well_typed (Some df) = true ->
  NoDup (map name (rows df)) ->
  (forall r, In r (rows df) ->
     match aspects r with
     | FStr s =>
         if Str.startswith "[" (Str.strip s)
         then literal_eval s = Ok (aspects_parsed r)
         else aspects_parsed r = PList []
     | FNaN => aspects_parsed r = PList []
     end)
  /\ analyze_category_aspects (Some df)
     = analyze_category_aspects (Some (keep_bracketed df))
  /\ exists m,
       create_aspect_category_matrix (Some df) max_aspects max_categories
       = Ok (Some m)
       /\ forall i r,
            (i < List.length (matrix_rows m))%nat ->
            In r (selected_categories df max_categories) ->
            bracketed (aspects r) = false ->
            cell m i (name r) = Some (PInt 0).
Proof.
  intros Hload Hasp Hw Hnd.
  pose proof (load_rows _ _ _ _ _ _ Hload Hasp) as Hrows.
  rewrite Forall_forall in Hrows.
  assert (Hempty : forall r, In r (rows df) -> bracketed (aspects r) = false ->
                             aspects_parsed r = PList []).
  { intros r Hr Hb. specialize (Hrows r Hr). unfold parse_cell in Hrows.
    destruct (aspects r) as [|s]; simpl in Hb.
    - congruence.
    - rewrite Hb in Hrows. congruence. }
  split; [|split].
  - intros r Hr. specialize (Hrows r Hr). unfold parse_cell in Hrows.
    destruct (aspects r) as [|s]; [congruence|].
    destruct (Str.startswith "[" (Str.strip s)); congruence.
  - unfold analyze_category_aspects.
    change (has_column "aspects_parsed" (keep_bracketed df))
      with (has_column "aspects_parsed" df).
    destruct (has_column "aspects_parsed" df); simpl; [|reflexivity].
    rewrite (count_cells_skip (fun r => bracketed (aspects r))) by exact Hempty.
    reflexivity.
  - assert (Hc : has_column "aspects_parsed" df = true).
    { unfold load_category_data, load_category_data_body in Hload.
      destruct (read_csv file_path) as [df0|]; simpl in Hload; [|discriminate].
      destruct (if max_rows <? Z.of_nat (List.length (rows df0))
                then sample max_rows df0 else Ok df0) as [df1|];
        simpl in Hload; [|discriminate].
      destruct (has_column "aspects" df1) eqn:E1.
      - destruct (apply (parse_cell literal_eval) (map aspects (rows df1)));
          simpl in Hload; [|discriminate].
        injection Hload as <-. apply assign_has_column.
      - simpl in Hload. injection Hload as <-. congruence. }
    eexists. split; [apply create_well_typed; assumption|].
    intros i r Hi Hsel Hb. unfold cell. simpl in Hi |- *.
    rewrite length_map in Hi. rewrite nth_error_map.
    destruct (nth_error (selected_aspects df max_aspects) i) as [a|] eqn:Ea;
      [|apply nth_error_None in Ea; lia].
    simpl. rewrite row_for_get by (apply in_map; exact Hsel).
    assert (Hr : In r (rows df)) by (eapply nlargest_In; exact Hsel).
    rewrite presence_unique by assumption.
    rewrite (Hempty r Hr Hb). reflexivity.
Qed.

Lemma load_parses_bracketed_only_witness :
  analyze_category_aspects (Some example_loaded)
  = analyze_category_aspects (Some (keep_bracketed example_loaded))
  /\ exists m,
       create_aspect_category_matrix (Some example_loaded) 2 2 = Ok (Some m)
       /\ forall i r,
            (i < List.length (matrix_rows m))%nat ->
            In r (selected_categories example_loaded 2) ->
            bracketed (aspects r) = false ->
            cell m i (name r) = Some (PInt 0).
Proof.
  assert (Hnd : NoDup (map name (rows example_loaded))).
  { simpl. repeat constructor; simpl; intuition congruence. }
  destruct (load_parses_bracketed_only
              Ast.literal_eval (fun _ => Ok example_csv) (fun _ d => Ok d)
              "example_data/review_categories.csv" 500 example_loaded 2 2
              eq_refl eq_refl eq_refl Hnd) as [_ H].
  exact H.
Defined.

(** The example end to end: the plain field of "Food" is not decoded, so
    "Product/Price" is counted once and the column "Food" holds zeros. *)
Lemma example_end_to_end :
  load_category_data Ast.literal_eval (fun _ => Ok example_csv)
                     (fun _ d => Ok d) "example_data/review_categories.csv" 500
  = Ok (Some example_loaded)
  /\ analyze_category_aspects (Some example_loaded)
     = Ok (Some [(PStr "Product/Price", 1); (PStr "Service/Staff", 1)])
  /\ create_aspect_category_matrix (Some example_loaded) 2 2
     = Ok (Some {| matrix_columns := ["aspect"; "Electronics"; "Food"];
                   matrix_rows :=
                     [ [("aspect", PStr "Product/Price");
                        ("Electronics", PInt 1); ("Food", PInt 0)];
                       [("aspect", PStr "Service/Staff");
                        ("Electronics", PInt 1); ("Food", PInt 0)] ] |}).
Proof. repeat split. Qed.

(** ** More on the frequency table *)

Lemma table_count_incr (a k : pyval) (c : Counter.t) :
  table_count a (Counter.incr k c)
  = table_count a c + (if pyval_eqb a k then 1 else 0).
Proof.
  induction c as [|[k' n] c IH]; simpl.
  - destruct (pyval_eqb a k); reflexivity.
  - destruct (pyval_eqb k k') eqn:E; simpl.
    + apply pyval_eqb_eq in E. subst k'.
      destruct (pyval_eqb a k); lia.
    + destruct (pyval_eqb a k') eqn:E'; [|exact IH].
      apply pyval_eqb_eq in E'. subst k'.
      assert (Hn : pyval_eqb a k = false).
      { apply pyval_eqb_neq. apply pyval_eqb_neq in E. congruence. }
      rewrite Hn. lia.
Qed.

Lemma table_count_counter_of (a : pyval) (s : list pyval) :
  table_count a (counter_of s) = Z.of_nat (count_occ pyval_eq_dec s a).
Proof.
  induction s as [|k s IH] using rev_ind; [reflexivity|].
  rewrite counter_of_snoc, table_count_incr, IH, count_occ_app. simpl.
  unfold pyval_eqb. destruct (pyval_eq_dec a k) as [->|Hn].
  - destruct (pyval_eq_dec k k); [lia|congruence].
  - destruct (pyval_eq_dec k a); [congruence|lia].
Qed.

Lemma table_count_In (a : pyval) (n : Z) (t : FreqTable) :
  NoDup (map fst t) -> In (a, n) t -> table_count a t = n.
Proof.
  induction t as [|[k m] t IH]; simpl; intros Hnd Hin; [contradiction|].
  inversion Hnd as [|? ? Hk Ht]; subst.
  destruct Hin as [E|Hin].
  - injection E as -> ->. rewrite pyval_eqb_refl. reflexivity.
  - destruct (pyval_eqb a k) eqn:E; [|apply IH; assumption].
    apply pyval_eqb_eq in E. subst k. exfalso. apply Hk.
    apply in_map_iff. exists (a, n). auto.
Qed.

Lemma sorted_counter_NoDup (s : list pyval) :
  NoDup (map fst (Counter.sorted_desc snd (counter_of s))).
Proof.
  eapply Permutation_NoDup; [|apply (counter_of_keys s)].
  apply Permutation_map, sorted_desc_perm.
Qed.

(** The rows of the sorted counter: each aspect met, with the number of
    times it was met. *)
Lemma sorted_counter_rows (s : list pyval) (a : pyval) (n : Z) :
  In (a, n) (Counter.sorted_desc snd (counter_of s))
  <-> In a s /\ n = Z.of_nat (count_occ pyval_eq_dec s a).
Proof.
  rewrite sorted_desc_In.
  destruct (counter_of_keys s) as [Hnd [Hin _]]. split.
  - intros H. split.
    + apply Hin. apply in_map_iff. exists (a, n). auto.
    + rewrite <- table_count_counter_of. symmetry.
      apply table_count_In; assumption.
  - intros [Ha ->]. apply Hin in Ha. apply in_map_iff in Ha as [[a' n'] [E H]].
    simpl in E. subst a'.
    rewrite <- table_count_counter_of.
    rewrite (table_count_In a n' _ Hnd H). exact H.
Qed.

(** X1.  The frequency table has one row per aspect that occurs, and the
    count of the row is the number of occurrences of that aspect in the
    list cells of the frame. *)
Theorem frequency_table_rows (df : DataFrame) :
  has_column "aspects_parsed" df = true ->
  cells_hashable df = true ->
  exists t,
    analyze_category_aspects (Some df) = Ok (Some t)
    /\ NoDup (map fst t)
    /\ forall a n,
         In (a, n) t
         <-> In a (occurrences df)
             /\ n = Z.of_nat (count_occ pyval_eq_dec (occurrences df) a).
Proof.
  intros Hc Hh. eexists. split; [apply analyze_well_typed; assumption|].
  split; [apply sorted_counter_NoDup|]. intros a n. apply sorted_counter_rows.
Qed.

Lemma frequency_table_rows_witness :
  exists t,
    analyze_category_aspects (Some example_parsed) = Ok (Some t)
    /\ NoDup (map fst t)
    /\ forall a n,
         In (a, n) t
         <-> In a (occurrences example_parsed)
             /\ n = Z.of_nat (count_occ pyval_eq_dec
                                        (occurrences example_parsed) a).
Proof. apply (frequency_table_rows example_parsed); reflexivity. Defined.

(** ** The order of the table and of its two views *)

Lemma StronglySorted_app_cross {A : Type} (R : A -> A -> Prop) (l1 l2 : list A) :
  StronglySorted R (l1 ++ l2) ->
  forall x y, In x l1 -> In y l2 -> R x y.
Proof.
  induction l1 as [|a l1 IH]; simpl; intros H x y Hx Hy; [contradiction|].
  inversion H as [|? ? Hs Hf]; subst.
  destruct Hx as [<-|Hx].
  - rewrite Forall_forall in Hf. apply Hf. apply in_or_app. right. exact Hy.
  - apply IH; assumption.
Qed.

Lemma NoDup_firstn {A : Type} (k : nat) (l : list A) :
  NoDup l -> NoDup (firstn k l).
Proof.
  intros H. rewrite <- (firstn_skipn k l) in H.
  apply NoDup_app_remove_r in H. exact H.
Qed.

Lemma StronglySorted_snoc {A : Type} (R : A -> A -> Prop) (l : list A) (x : A) :
  StronglySorted R l -> Forall (fun y => R y x) l -> StronglySorted R (l ++ [x]).
Proof.
  induction 1 as [|a l Hs IH Hf]; simpl; intros Hx.
  - repeat constructor.
  - inversion Hx as [|? ? Hax Hlx]; subst. constructor.
    + apply IH. exact Hlx.
    + apply Forall_app. split; [exact Hf|]. constructor; [exact Hax|constructor].
Qed.

Lemma StronglySorted_rev {A : Type} (R : A -> A -> Prop) (l : list A) :
  StronglySorted R l -> StronglySorted (fun x y => R y x) (rev l).
Proof.
  induction 1 as [|a l Hs IH Hf]; simpl; [constructor|].
  apply StronglySorted_snoc; [exact IH|].
  apply Forall_rev. exact Hf.
Qed.

(** Rows with pairwise distinct keys have one ascending arrangement. *)
Lemma sorted_perm_unique {A : Type} (key : A -> Z) (l1 l2 : list A) :
  NoDup (map key l1) -> Permutation l1 l2 ->
  StronglySorted (fun a b => key a <= key b) l1 ->
  StronglySorted (fun a b => key a <= key b) l2 ->
  l1 = l2.
Proof.
  revert l2. induction l1 as [|x l1 IH]; intros l2 Hnd Hp H1 H2.
  - apply Permutation_nil in Hp. auto.
  - destruct l2 as [|y l2];
      [apply Permutation_sym, Permutation_nil in Hp; discriminate Hp|].
    inversion H1 as [|? ? Hs1 Hf1]; subst.
    inversion H2 as [|? ? Hs2 Hf2]; subst.
    inversion Hnd as [|? ? Hx Hnd']; subst.
    assert (E : x = y).
    { assert (Hy : In y (x :: l1))
        by (apply (Permutation_in _ (Permutation_sym Hp)); left; reflexivity).
      assert (Hx' : In x (y :: l2))
        by (apply (Permutation_in _ Hp); left; reflexivity).
      destruct Hy as [Hy|Hy]; [exact Hy|].
      destruct Hx' as [Hx'|Hx']; [auto|].
      rewrite Forall_forall in Hf1, Hf2.
      pose proof (Hf1 y Hy). pose proof (Hf2 x Hx').
      exfalso. apply Hx. replace (key x) with (key y) by lia.
      apply in_map. exact Hy. }
    subst y. f_equal.
    apply IH; [exact Hnd'|eapply Permutation_cons_inv; exact Hp| |]; assumption.
Qed.

Lemma firstn_min_length {A : Type} (n : nat) (l : list A) :
  firstn (Nat.min n (List.length l)) l = firstn n l.
Proof.
  destruct (Nat.le_ge_cases n (List.length l)) as [H|H].
  - rewrite Nat.min_l by exact H. reflexivity.
  - rewrite Nat.min_r by exact H.
    rewrite firstn_all. symmetry. apply firstn_all2. exact H.
Qed.

(** C4 (as amended).  The frequency table, and the most-used view cut from
    it, are in descending order of count, equal counts in the order the
    aspects were first met.  Whatever the unstable sort returns, a
    least-used view is in ascending order of count; it holds
    min(20, number of aspects) rows, each a different aspect with the
    number of its occurrences; no row left out has a smaller count than a
    row kept; and when no two aspects have the same count the view is the
    table read from its end.  The order among rows of equal count is not
    fixed. *)
Theorem frequency_table_order (df : DataFrame) :
  has_column "aspects_parsed" df = true ->
  cells_hashable df = true ->
  exists t,
    analyze_category_aspects (Some df) = Ok (Some t)
    /\ StronglySorted (most_used_order (occurrences df)) t
    /\ StronglySorted (most_used_order (occurrences df)) (top_aspects t)
    /\ (forall view,
          bottom_aspects t view ->
          StronglySorted (fun a b => snd a <= snd b) view
          /\ List.length view = Nat.min 20 (List.length t)
          /\ NoDup (map fst view)
          /\ (forall a n,
                In (a, n) view ->
                In a (occurrences df)
                /\ n = Z.of_nat (count_occ pyval_eq_dec (occurrences df) a))
          /\ (forall x y, In x view -> In y t -> ~ In y view -> snd x <= snd y)
          /\ (NoDup (map snd t) -> view = firstn 20 (rev t))).
Proof.
  intros Hc Hh. eexists. split; [apply analyze_well_typed; assumption|].
  split; [apply most_common_order|].
  split; [apply StronglySorted_firstn, most_common_order|].
  set (t := Counter.sorted_desc snd (counter_of (occurrences df))).
  intros view [sorted [[Hp Hs] ->]].
  set (k := Nat.min 20 (List.length t)).
  assert (Hsub : forall x, In x (firstn k sorted) -> In x t).
  { intros x Hx. apply (Permutation_in _ (Permutation_sym Hp)).
    rewrite <- (firstn_skipn k sorted). apply in_or_app. left. exact Hx. }
  split; [apply StronglySorted_firstn; exact Hs|].
  split; [|split; [|split; [|split]]].
  - rewrite length_firstn, <- (Permutation_length Hp). unfold k. lia.
  - rewrite <- firstn_map. apply NoDup_firstn.
    eapply Permutation_NoDup; [apply Permutation_map; exact Hp|].
    apply sorted_counter_NoDup.
  - intros a n Hin. apply sorted_counter_rows. apply Hsub. exact Hin.
  - intros x y Hx Hy Hnot.
    assert (Hy' : In y (skipn k sorted)).
    { apply (Permutation_in _ Hp) in Hy.
      rewrite <- (firstn_skipn k sorted) in Hy.
      apply in_app_or in Hy as [Hy|Hy]; [contradiction|exact Hy]. }
    rewrite <- (firstn_skipn k sorted) in Hs.
    apply (StronglySorted_app_cross _ _ _ Hs x y Hx Hy').
  - intros Hnd.
    assert (E : sorted = rev t).
    { symmetry. apply (sorted_perm_unique snd).
      - rewrite map_rev. apply NoDup_rev. exact Hnd.
      - eapply Permutation_trans; [apply Permutation_sym, Permutation_rev|exact Hp].
      - apply (StronglySorted_rev (fun a b => snd b <= snd a)).
        eapply StronglySorted_weaken; [|apply (most_common_order (occurrences df))].
        intros x y [H|[H _]]; lia.
      - exact Hs. }
    rewrite E. unfold k. rewrite <- (length_rev t). apply firstn_min_length.
Qed.

Lemma take_out_perm (x : pyval * Z) (l r : FreqTable) :
  take_out x l = Some r -> Permutation l (x :: r).
Proof.
  revert r. induction l as [|y l IH]; simpl; intros r H; [discriminate H|].
  destruct (pyval_eqb (fst x) (fst y) && (snd x =? snd y)) eqn:E.
  - injection H as <-. apply andb_true_iff in E as [E1 E2].
    apply pyval_eqb_eq in E1. apply Z.eqb_eq in E2.
    destruct x, y; simpl in *; subst. apply Permutation_refl.
  - destruct (take_out x l) as [r'|]; simpl in H; [|discriminate H].
    injection H as <-.
    eapply Permutation_trans; [apply perm_skip, (IH r' eq_refl)|].
    apply perm_swap.
Qed.

Lemma rearranged_perm (l l' : FreqTable) :
  rearranged l l' = true -> Permutation l l'.
Proof.
  revert l'. induction l as [|x l IH]; simpl; intros l' H.
  - destruct l'; [constructor|discriminate H].
  - destruct (take_out x l') as [r|] eqn:E; [|discriminate H].
    apply take_out_perm in E.
    eapply Permutation_trans; [|apply Permutation_sym; exact E].
    apply perm_skip, IH. exact H.
Qed.

Lemma mixed_view_is_bottom : bottom_aspects mixed_table mixed_view.
Proof.
  exists mixed_sorted. split; [split|reflexivity].
  - apply rearranged_perm. vm_compute. reflexivity.
  - unfold mixed_sorted, counted. simpl. repeat constructor; simpl; lia.
Qed.

Lemma mixed_view_quicksort_is_bottom :
  bottom_aspects mixed_table mixed_view_quicksort.
Proof.
  exists mixed_sorted_quicksort. split; [split|reflexivity].
  - apply rearranged_perm. vm_compute. reflexivity.
  - unfold mixed_sorted_quicksort, counted. simpl.
    repeat constructor; simpl; lia.
Qed.

Lemma frequency_table_order_witness :
  StronglySorted (most_used_order (occurrences mixed_frame)) mixed_table
  /\ StronglySorted (fun a b => snd a <= snd b) mixed_view
  /\ List.length mixed_view = 20%nat
  /\ NoDup (map fst mixed_view).
Proof.
  destruct (frequency_table_order mixed_frame eq_refl eq_refl)
    as [t [Ht [Hs [_ Hv]]]].
  assert (E : t = mixed_table).
  { assert (Ht' : analyze_category_aspects (Some mixed_frame)
                  = Ok (Some mixed_table)) by reflexivity.
    rewrite Ht' in Ht. injection Ht as <-. reflexivity. }
  subst t.
  destruct (Hv mixed_view mixed_view_is_bottom) as [H1 [H2 [H3 _]]].
  split; [exact Hs|]. split; [exact H1|]. split; [exact H2|exact H3].
Defined.

(** C4 as stated fails on the least-used view.  The table of [mixed_frame]
    has fifteen aspects met once and five met twice, below five met three
    times, so that an ascending sort has to move every row.  Both
    arrangements are results of the sort; the first lists "p" before "o",
    the second "w" before "v", although "o" and "v" were met first. *)
Lemma least_used_ties_not_first_seen :
  analyze_category_aspects (Some mixed_frame) = Ok (Some mixed_table)
  /\ bottom_aspects mixed_table mixed_view
  /\ ~ StronglySorted (least_used_order (occurrences mixed_frame)) mixed_view
  /\ bottom_aspects mixed_table mixed_view_quicksort
  /\ ~ StronglySorted (least_used_order (occurrences mixed_frame))
                      mixed_view_quicksort.
Proof.
  split; [reflexivity|]. split; [apply mixed_view_is_bottom|].
  split; [|split; [apply mixed_view_quicksort_is_bottom|]].
  - intros Hv. unfold mixed_view, mixed_sorted, counted in Hv. simpl in Hv.
    apply StronglySorted_inv in Hv as [Hv _].
    apply StronglySorted_inv in Hv as [Hv _].
    apply StronglySorted_inv in Hv as [_ Hf].
    apply Forall_inv in Hf. destruct Hf as [Hf|[_ Hf]].
    + simpl in Hf. lia.
    + vm_compute in Hf. lia.
  - intros Hv.
    unfold mixed_view_quicksort, mixed_sorted_quicksort, counted in Hv.
    simpl in Hv.
    apply StronglySorted_inv in Hv as [Hv _].
    apply StronglySorted_inv in Hv as [_ Hf].
    apply Forall_inv in Hf. destruct Hf as [Hf|[_ Hf]].
    + simpl in Hf. lia.
    + vm_compute in Hf. lia.
Qed.

Lemma count_cells_unhashable (cells : list pyval) (c : Counter.t) :
  forallb (fun v => forallb hashable (elements v)) cells = false ->
  count_cells c cells = Raise TypeError.
Proof.
  revert c. induction cells as [|v cells IH]; simpl; intros c H;
    [discriminate H|].
  destruct (forallb hashable (elements v)) eqn:Hv; simpl in H.
  - destruct v as [| | |l]; simpl; try (apply IH; exact H).
    simpl in Hv. rewrite update_hashable by exact Hv. simpl. apply IH. exact H.
  - destruct v as [| | |l]; simpl in Hv; try discriminate Hv.
    simpl. rewrite update_unhashable by exact Hv. reflexivity.
Qed.

(** X2.  On a frame with the parsed column the analysis returns a table
    exactly when every list cell holds hashable values only; otherwise the
    counter raises TypeError. *)
Theorem analyze_returns_iff_hashable (df : DataFrame) :
  has_column "aspects_parsed" df = true ->
  ((exists t, analyze_category_aspects (Some df) = Ok (Some t))
   <-> cells_hashable df = true)
  /\ (cells_hashable df = false ->
      analyze_category_aspects (Some df) = Raise TypeError).
Proof.
  intros Hc.
  assert (Hf : cells_hashable df = false ->
               analyze_category_aspects (Some df) = Raise TypeError).
  { intros Hh. unfold analyze_category_aspects. rewrite Hc. simpl.
    rewrite count_cells_unhashable by exact Hh. reflexivity. }
  split; [|exact Hf]. split.
  - intros [t Ht]. destruct (cells_hashable df) eqn:Hh; [reflexivity|].
    rewrite (Hf eq_refl) in Ht. discriminate Ht.
  - intros Hh. eexists. apply analyze_well_typed; assumption.
Qed.

Lemma analyze_returns_iff_hashable_witness :
  ((exists t, analyze_category_aspects (Some nested_frame) = Ok (Some t))
   <-> cells_hashable nested_frame = true)
  /\ (cells_hashable nested_frame = false ->
      analyze_category_aspects (Some nested_frame) = Raise TypeError).
Proof. apply (analyze_returns_iff_hashable nested_frame). reflexivity. Defined.

Lemma occurrences_with_rows_app (df : DataFrame) (r1 r2 : list Row) :
  occurrences (with_rows df (r1 ++ r2))
  = (occurrences (with_rows df r1) ++ occurrences (with_rows df r2))%list.
Proof.
  unfold occurrences, with_rows. simpl.
  rewrite map_app, flat_map_app. reflexivity.
Qed.

Lemma table_count_sorted (a : pyval) (s : list pyval) :
  table_count a (Counter.sorted_desc snd (counter_of s))
  = Z.of_nat (count_occ pyval_eq_dec s a).
Proof.
  destruct (in_dec pyval_eq_dec a s) as [Hin|Hout].
  - apply table_count_In; [apply sorted_counter_NoDup|].
    apply sorted_counter_rows. auto.
  - assert (Hz : count_occ pyval_eq_dec s a = 0%nat)
      by (apply count_occ_not_In; exact Hout).
    rewrite Hz. simpl.
    assert (Hk : ~ In a (map fst (Counter.sorted_desc snd (counter_of s)))).
    { intros H. apply in_map_iff in H as [[a' n] [E H]]. simpl in E. subst a'.
      apply sorted_counter_rows in H. tauto. }
    revert Hk. generalize (Counter.sorted_desc snd (counter_of s)).
    intros t. induction t as [|[k m] t IH]; simpl; intros Hk; [reflexivity|].
    destruct (pyval_eqb a k) eqn:E.
    + apply pyval_eqb_eq in E. subst k. exfalso. auto.
    + apply IH. auto.
Qed.

(** X3.  Counting is additive over the rows: the count of an aspect in the
    table of two batches of rows taken together is the sum of its counts in
    the tables of the batches. *)
Theorem frequency_counts_additive (df : DataFrame) (r1 r2 : list Row) :
  has_column "aspects_parsed" df = true ->
  cells_hashable (with_rows df r1) = true ->
  cells_hashable (with_rows df r2) = true ->
  exists t1 t2 t,
    analyze_category_aspects (Some (with_rows df r1)) = Ok (Some t1)
    /\ analyze_category_aspects (Some (with_rows df r2)) = Ok (Some t2)
    /\ analyze_category_aspects (Some (with_rows df (r1 ++ r2))) = Ok (Some t)
    /\ forall a, table_count a t = table_count a t1 + table_count a t2.
Proof.
  intros Hc H1 H2.
  assert (H12 : cells_hashable (with_rows df (r1 ++ r2)) = true).
  { unfold cells_hashable in *. simpl in *.
    rewrite map_app, forallb_app, H1, H2. reflexivity. }
  do 3 eexists.
  split; [apply analyze_well_typed; assumption|].
  split; [apply analyze_well_typed; assumption|].
  split; [apply analyze_well_typed; assumption|].
  intros a. rewrite !table_count_sorted, occurrences_with_rows_app.
  rewrite count_occ_app. lia.
Qed.

Lemma frequency_counts_additive_witness :
  exists t1 t2 t,
    analyze_category_aspects
      (Some (with_rows example_parsed (rows example_parsed))) = Ok (Some t1)
    /\ analyze_category_aspects
         (Some (with_rows example_parsed (rows duplicate_names_frame)))
       = Ok (Some t2)
    /\ analyze_category_aspects
         (Some (with_rows example_parsed
                          (rows example_parsed ++ rows duplicate_names_frame)))
       = Ok (Some t)
    /\ forall a, table_count a t = table_count a t1 + table_count a t2.
Proof.
  apply (frequency_counts_additive example_parsed (rows example_parsed)
           (rows duplicate_names_frame)); reflexivity.
Defined.

(** ** More on the presence matrix *)

(** What a returned matrix is made of. *)
Lemma create_returns (df : DataFrame) (max_aspects max_categories : Z)
  (m : Matrix) :
  create_aspect_category_matrix (Some df) max_aspects max_categories
  = Ok (Some m) ->
  cells_hashable df = true
  /\ m = DataFrame_of_records
           (map (row_for df (map name (selected_categories df max_categories)))
                (selected_aspects df max_aspects)).
Proof.
  unfold create_aspect_category_matrix.
  destruct (has_column "aspects_parsed" df); simpl; [|discriminate].
  destruct (cells_hashable df) eqn:Hh.
  - rewrite count_cells_hashable by exact Hh. simpl.
    unfold nlargest.
    destruct (has_column "aspectsCount" df); [|discriminate].
    destruct (is_object (aspectsCount_dtype df)); [discriminate|]. simpl.
    match goal with
    | |- context [apply ?f ?l] =>
        change l with (selected_aspects df max_aspects)
    end.
    fold (selected_categories df max_categories).
    destruct (selected_aspects df max_aspects) as [|a l] eqn:Es.
    + simpl. intros H. injection H as <-. auto.
    + unfold matrix_row at 1. unfold column_name.
      match goal with
      | |- context [has_column "name" ?d] =>
          change (has_column "name" d) with (has_column "name" df)
      end.
      destruct (has_column "name" df) eqn:Hn.
      * rewrite (apply_map _ (row_for df (map name (selected_categories df max_categories)))).
        -- simpl. intros H. injection H as <-. auto.
        -- intros x _. reflexivity.
      * simpl. discriminate.
  - rewrite count_cells_unhashable by exact Hh. simpl. discriminate.
Qed.

Lemma add_columns_NoDup (names cols : list string) :
  NoDup cols -> NoDup (fold_left add_column names cols).
Proof.
  revert cols. induction names as [|n names IH]; simpl; intros cols H;
    [exact H|].
  apply IH. unfold add_column.
  destruct (existsb (String.eqb n) cols) eqn:E; [exact H|].
  apply NoDup_app; [exact H|repeat constructor; auto|].
  intros x Hx [<-|[]].
  apply existsb_string_In in Hx. congruence.
Qed.

Lemma row_for_key_list (df : DataFrame) (names : list string) (a : pyval) :
  map fst (row_for df names a) = fold_left add_column names ["aspect"].
Proof.
  unfold row_for.
  rewrite (keys_fold (fun cat => PInt (presence df a cat))). reflexivity.
Qed.

Lemma presence_binary (df : DataFrame) (a : pyval) (c : string) :
  presence df a c = 0 \/ presence df a c = 1.
Proof.
  unfold presence. destruct (aspects_in_category df c) as [|[| | |l] ?]; auto.
  destruct (contains a l); auto.
Qed.

Lemma row_for_cell (df : DataFrame) (names : list string) (a : pyval)
  (c : string) (v : pyval) :
  dict_get c (row_for df names a) = Some v ->
  (In c names /\ v = PInt (presence df a c))
  \/ (~ In c names /\ c = "aspect" /\ v = a).
Proof.
  unfold row_for.
  rewrite (dict_get_fold (fun cat => PInt (presence df a cat))).
  destruct (existsb (String.eqb c) names) eqn:E.
  - apply existsb_string_In in E. intros H. injection H as <-. auto.
  - simpl. destruct (String.eqb c "aspect") eqn:Ec; [|discriminate].
    apply String.eqb_eq in Ec. intros H. injection H as <-. right.
    split; [|auto]. intros Hin. apply existsb_string_In in Hin. congruence.
Qed.

(** X4.  A returned matrix is rectangular, every row having exactly the
    columns of the matrix in their order, and apart from the column
    "aspect" its cells are the integers 0 and 1. *)
Theorem matrix_rectangular_binary
  (df : DataFrame) (max_aspects max_categories : Z) (m : Matrix) :
  create_aspect_category_matrix (Some df) max_aspects max_categories
  = Ok (Some m) ->
  (forall row, In row (matrix_rows m) -> map fst row = matrix_columns m)
  /\ (forall i c v,
        cell m i c = Some v -> c = "aspect" \/ v = PInt 0 \/ v = PInt 1).
Proof.
  intros H. apply create_returns in H as [_ ->].
  set (names := map name (selected_categories df max_categories)).
  split.
  - intros row Hrow. simpl in Hrow.
    rewrite (records_columns (fold_left add_column names ["aspect"])).
    + apply in_map_iff in Hrow as [a [<- _]]. apply row_for_key_list.
    + apply add_columns_NoDup. repeat constructor; auto.
    + intros E. simpl in E. rewrite E in Hrow. exact Hrow.
    + intros d Hd. apply in_map_iff in Hd as [a [<- _]].
      apply row_for_key_list.
  - intros i c v. unfold cell. simpl. rewrite nth_error_map.
    destruct (nth_error (selected_aspects df max_aspects) i) as [a|];
      simpl; [|discriminate].
    intros Hv. apply row_for_cell in Hv as [[_ ->]|[_ [-> _]]]; [|auto].
    right. destruct (presence_binary df a c) as [-> | ->]; auto.
Qed.

Lemma matrix_rectangular_binary_witness :
  (forall row,
      In row [ [("aspect", PStr "x"); ("A", PInt 1)];
               [("aspect", PStr "y"); ("A", PInt 0)] ] ->
      map fst row = ["aspect"; "A"])
  /\ (forall i c v,
        cell {| matrix_columns := ["aspect"; "A"];
                matrix_rows := [ [("aspect", PStr "x"); ("A", PInt 1)];
                                 [("aspect", PStr "y"); ("A", PInt 0)] ] |}
             i c = Some v ->
        c = "aspect" \/ v = PInt 0 \/ v = PInt 1).
Proof.
  apply (matrix_rectangular_binary
           duplicate_names_frame 1000 2
           {| matrix_columns := ["aspect"; "A"];
              matrix_rows := [ [("aspect", PStr "x"); ("A", PInt 1)];
                               [("aspect", PStr "y"); ("A", PInt 0)] ] |}).
  reflexivity.
Defined.

(** X5.  The rows of the matrix are the first [max_aspects] aspects of the
    frequency table, in the order of the table. *)
Theorem matrix_rows_follow_table
  (df : DataFrame) (max_aspects max_categories : Z) :
  has_column "aspects_parsed" df = true ->
  well_typed (Some df) = true ->
  ~ In "aspect" (map name (rows df)) ->
  0 <= max_aspects ->
  exists t m,
    analyze_category_aspects (Some df) = Ok (Some t)
    /\ create_aspect_category_matrix (Some df) max_aspects max_categories
       = Ok (Some m)
    /\ map (dict_get "aspect") (matrix_rows m)
       = map Some (firstn (Z.to_nat max_aspects) (map fst t)).
Proof.
  intros Hc Hw Hasp Ha.
  assert (Hh : cells_hashable df = true).
  { simpl in Hw. rewrite Hc in Hw. apply andb_true_iff in Hw. tauto. }
  do 2 eexists.
  split; [apply analyze_well_typed; assumption|].
  split; [apply create_well_typed; assumption|].
  simpl. rewrite map_map.
  rewrite (map_ext _ Some).
  - unfold selected_aspects. simpl. unfold Counter.nlargest.
    destruct (max_aspects <=? 0) eqn:E.
    + apply Z.leb_le in E. replace max_aspects with 0 by lia. reflexivity.
    + rewrite firstn_map. reflexivity.
  - intros a. apply row_for_aspect. intros H. apply Hasp.
    apply in_map_iff in H as [r [Hr Hin]]. apply in_map_iff.
    exists r. split; [exact Hr|]. eapply nlargest_In. exact Hin.
Qed.

Lemma matrix_rows_follow_table_witness :
  exists t m,
    analyze_category_aspects (Some example_parsed) = Ok (Some t)
    /\ create_aspect_category_matrix (Some example_parsed) 1 2 = Ok (Some m)
    /\ map (dict_get "aspect") (matrix_rows m)
       = map Some (firstn (Z.to_nat 1) (map fst t)).
Proof.
  apply (matrix_rows_follow_table example_parsed 1 2);
    [reflexivity|reflexivity| |lia].
  simpl. intuition congruence.
Defined.

Lemma filter_head_find {A : Type} (f : A -> bool) (l : list A) :
  hd_error (filter f l) = find f l.
Proof.
  induction l as [|x l IH]; simpl; [reflexivity|].
  destruct (f x); [reflexivity|exact IH].
Qed.

Lemma presence_first_named (df : DataFrame) (a : pyval) (n : string) :
  presence df a n
  = match first_named df n with
    | Some r => if occurs a (aspects_parsed r) then 1 else 0
    | None => 0
    end.
Proof.
  unfold presence, aspects_in_category, first_named.
  rewrite <- filter_head_find.
  destruct (filter (fun r => String.eqb (name r) n) (rows df)) as [|r l];
    simpl; [reflexivity|].
  destruct (aspects_parsed r); reflexivity.
Qed.

(** X6.  When several categories share a name, the cell of that column is
    computed from the first row of the frame that carries the name, also
    when the selected category is a later one. *)
Theorem matrix_cell_first_named
  (df : DataFrame) (max_aspects max_categories : Z) :
  has_column "aspects_parsed" df = true ->
  well_typed (Some df) = true ->
  exists m,
    create_aspect_category_matrix (Some df) max_aspects max_categories
    = Ok (Some m)
    /\ forall i a c r,
         nth_error (selected_aspects df max_aspects) i = Some a ->
         In c (selected_categories df max_categories) ->
         first_named df (name c) = Some r ->
         cell m i (name c)
         = Some (PInt (if occurs a (aspects_parsed r) then 1 else 0)).
Proof.
  intros Hc Hw. eexists. split; [apply create_well_typed; assumption|].
  intros i a c r Ha Hsel Hr. unfold cell. simpl.
  rewrite nth_error_map, Ha. simpl.
  rewrite row_for_get by (apply in_map; exact Hsel).
  rewrite presence_first_named, Hr. reflexivity.
Qed.

Lemma matrix_cell_first_named_witness :
  exists m,
    create_aspect_category_matrix (Some duplicate_names_frame) 1000 2
    = Ok (Some m)
    /\ forall i a c r,
         nth_error (selected_aspects duplicate_names_frame 1000) i = Some a ->
         In c (selected_categories duplicate_names_frame 2) ->
         first_named duplicate_names_frame (name c) = Some r ->
         cell m i (name c)
         = Some (PInt (if occurs a (aspects_parsed r) then 1 else 0)).
Proof.
  apply (matrix_cell_first_named duplicate_names_frame 1000 2); reflexivity.
Defined.

Lemma create_unfold (df : DataFrame) (max_aspects max_categories : Z) :
  has_column "aspects_parsed" df = true ->
  cells_hashable df = true ->
  create_aspect_category_matrix (Some df) max_aspects max_categories
  = (top_categories <- nlargest max_categories df ;;
     matrix_data <- apply (matrix_row df top_categories)
                          (selected_aspects df max_aspects) ;;
     Ok (Some (DataFrame_of_records matrix_data))).
Proof.
  intros Hc Hh. unfold create_aspect_category_matrix. rewrite Hc. simpl.
  rewrite count_cells_hashable by exact Hh. reflexivity.
Qed.

(** X7.  The order in which the matrix builder fails: an unhashable value
    in an aspect list raises TypeError before any column is looked up; then
    a missing [aspectsCount] column raises KeyError and one of dtype
    [object] TypeError; the column [name] is read only inside the loop over
    the selected aspects, so without it the builder raises KeyError when an
    aspect is selected and returns the empty matrix when none is. *)
Theorem matrix_failure_order
  (df : DataFrame) (max_aspects max_categories : Z) :
  has_column "aspects_parsed" df = true ->
  let result :=
    create_aspect_category_matrix (Some df) max_aspects max_categories in
  (cells_hashable df = false -> result = Raise TypeError)
  /\ (cells_hashable df = true ->
      has_column "aspectsCount" df = false -> result = Raise KeyError)
  /\ (cells_hashable df = true ->
      has_column "aspectsCount" df = true ->
      is_object (aspectsCount_dtype df) = true -> result = Raise TypeError)
  /\ (cells_hashable df = true ->
      has_column "aspectsCount" df = true ->
      is_object (aspectsCount_dtype df) = false ->
      (selected_aspects df max_aspects = [] ->
       result = Ok (Some {| matrix_columns := []; matrix_rows := [] |}))
      /\ (selected_aspects df max_aspects <> [] ->
          has_column "name" df = false -> result = Raise KeyError)
      /\ (has_column "name" df = true -> exists m, result = Ok (Some m))).
Proof.
  intros Hc result. subst result. split; [|split; [|split]].
  - intros Hh. unfold create_aspect_category_matrix. rewrite Hc. simpl.
    rewrite count_cells_unhashable by exact Hh. reflexivity.
  - intros Hh Ha. rewrite create_unfold by assumption.
    unfold nlargest. rewrite Ha. reflexivity.
  - intros Hh Ha Hd. rewrite create_unfold by assumption.
    unfold nlargest. rewrite Ha, Hd. reflexivity.
  - intros Hh Ha Hd. rewrite create_unfold by assumption.
    unfold nlargest. rewrite Ha, Hd. simpl. split; [|split].
    + intros ->. reflexivity.
    + intros Hne Hn.
      destruct (selected_aspects df max_aspects) as [|a l]; [congruence|].
      simpl. unfold matrix_row at 1. unfold column_name.
      match goal with
      | |- context [has_column "name" ?d] =>
          change (has_column "name" d) with (has_column "name" df)
      end.
      rewrite Hn. reflexivity.
    + intros Hn. eexists.
      rewrite (apply_map _ (row_for df (map name (selected_categories df max_categories)))).
      * reflexivity.
      * intros a _. unfold matrix_row, column_name.
        match goal with
        | |- context [has_column "name" ?d] =>
            change (has_column "name" d) with (has_column "name" df)
        end.
        rewrite Hn. reflexivity.
Qed.

Lemma matrix_failure_order_witness :
  create_aspect_category_matrix (Some header_only_loaded) 1000 500
  = Raise TypeError.
Proof.
  destruct (matrix_failure_order header_only_loaded 1000 500 eq_refl)
    as [_ [_ [H _]]].
  apply H; reflexivity.
Defined.

Lemma nlargest_all {A : Type} (n : Z) (key : A -> Z) (l : list A) :
  Z.of_nat (List.length l) <= n ->
  Counter.nlargest n key l = Counter.sorted_desc key l.
Proof.
  intros H. unfold Counter.nlargest. destruct (n <=? 0) eqn:E.
  - apply Z.leb_le in E. destruct l; [reflexivity|simpl in H; lia].
  - apply firstn_all2.
    rewrite <- (Permutation_length (sorted_desc_perm key l)). lia.
Qed.

(** X8.  Caps that are not below the number of distinct aspects and the
    number of rows do not truncate: any two such pairs of caps give the
    same outcome. *)
Theorem matrix_caps_saturate
  (df : DataFrame) (max_aspects max_categories max_aspects' max_categories' : Z) :
  Z.of_nat (List.length (distinct_aspects df)) <= max_aspects ->
  Z.of_nat (List.length (distinct_aspects df)) <= max_aspects' ->
  Z.of_nat (List.length (rows df)) <= max_categories ->
  Z.of_nat (List.length (rows df)) <= max_categories' ->
  create_aspect_category_matrix (Some df) max_aspects max_categories
  = create_aspect_category_matrix (Some df) max_aspects' max_categories'.
Proof.
  intros Ha Ha' Hm Hm'. unfold create_aspect_category_matrix.
  destruct (has_column "aspects_parsed" df); simpl; [|reflexivity].
  destruct (cells_hashable df) eqn:Hh.
  - rewrite count_cells_hashable by exact Hh. simpl.
    fold (counter_of (occurrences df)).
    unfold distinct_aspects in Ha, Ha'. rewrite <- counter_of_length in Ha, Ha'.
    rewrite !(nlargest_all _ snd) by assumption.
    unfold nlargest. rewrite !(nlargest_all _ aspectsCount) by assumption.
    reflexivity.
  - rewrite count_cells_unhashable by exact Hh. reflexivity.
Qed.

Lemma matrix_caps_saturate_witness :
  create_aspect_category_matrix (Some example_parsed) 2 2
  = create_aspect_category_matrix (Some example_parsed) 1000 500.
Proof.
  apply (matrix_caps_saturate example_parsed 2 2 1000 500); simpl; lia.
Defined.

(** ** The heat-map subset of the matrix *)

Lemma dict_get_app_fresh (k : string) (pre d : dict) :
  ~ In k (map fst pre) -> dict_get k (pre ++ d)%list = dict_get k d.
Proof.
  induction pre as [|[k' v'] pre IH]; simpl; intros H; [reflexivity|].
  destruct (String.eqb k k') eqn:E.
  - apply String.eqb_eq in E. exfalso. auto.
  - apply IH. auto.
Qed.

Lemma select_cells_suffix (pre row : dict) :
  NoDup (map fst (pre ++ row)%list) ->
  flat_map (fun c => match dict_get c (pre ++ row)%list with
                     | Some v => [(c, v)]
                     | None => []
                     end) (map fst row)
  = row.
Proof.
  revert pre. induction row as [|[k v] row IH]; simpl; intros pre H;
    [reflexivity|].
  assert (Hk : ~ In k (map fst pre)).
  { rewrite map_app in H. simpl in H. apply NoDup_remove_2 in H.
    intros Hin. apply H. apply in_or_app. left. exact Hin. }
  rewrite dict_get_app_fresh by exact Hk. simpl. rewrite String.eqb_refl.
  simpl. f_equal.
  specialize (IH (pre ++ [(k, v)])%list).
  rewrite <- app_assoc in IH. simpl in IH. apply IH. exact H.
Qed.

(** Selecting all the columns of a row gives the row back. *)
Lemma select_cells_self (row : dict) :
  NoDup (map fst row) -> select_cells (map fst row) row = row.
Proof. intros H. apply (select_cells_suffix [] row). exact H. Qed.

Lemma add_columns_head (names cols : list string) (c : string) :
  exists rest, fold_left add_column names (c :: cols) = c :: rest.
Proof.
  revert cols. induction names as [|n names IH]; simpl; intros cols;
    [eauto|].
  unfold add_column at 2.
  destruct (existsb (String.eqb n) (c :: cols)); [apply IH|].
  simpl. apply IH.
Qed.

Lemma add_columns_length (names cols : list string) :
  (List.length (fold_left add_column names cols)
   <= List.length cols + List.length names)%nat.
Proof.
  revert cols. induction names as [|n names IH]; simpl; intros cols; [lia|].
  specialize (IH (add_column cols n)).
  assert (H : (List.length (add_column cols n) <= S (List.length cols))%nat).
  { unfold add_column. destruct (existsb (String.eqb n) cols); [lia|].
    rewrite length_app. simpl. lia. }
  lia.
Qed.

Lemma nlargest_length_le {A : Type} (n : Z) (key : A -> Z) (l : list A) :
  Z.of_nat (List.length (Counter.nlargest n key l)) <= Z.max 0 n.
Proof.
  unfold Counter.nlargest. destruct (n <=? 0) eqn:E; simpl; [lia|].
  apply Z.leb_gt in E. rewrite length_firstn. lia.
Qed.

Lemma forallb_existsb_self (l : list string) :
  forallb (fun c => existsb (String.eqb c) l) l = true.
Proof.
  apply forallb_forall. intros c Hc. apply existsb_string_In. exact Hc.
Qed.

(** X9.  The heat-map step of the page on a matrix the builder returned:
    a matrix without rows has no column "aspect" and the column selection
    raises KeyError; a matrix with rows, built for at most 500 categories,
    keeps all its columns and its first 500 rows unchanged. *)
Theorem matrix_subset_of_built_matrix
  (df : DataFrame) (max_aspects max_categories : Z) (m : Matrix) :
  create_aspect_category_matrix (Some df) max_aspects max_categories
  = Ok (Some m) ->
  (matrix_rows m = [] -> matrix_subset m = Raise KeyError)
  /\ (matrix_rows m <> [] -> max_categories <= 500 ->
      matrix_subset m
      = Ok {| matrix_columns := matrix_columns m;
              matrix_rows := firstn 500 (matrix_rows m) |}).
Proof.
  intros H. apply create_returns in H as [_ ->].
  set (names := map name (selected_categories df max_categories)).
  set (keys := fold_left add_column names ["aspect"]).
  assert (Hnd : NoDup keys).
  { apply add_columns_NoDup. repeat constructor; auto. }
  assert (Hrows : forall row,
             In row (map (row_for df names) (selected_aspects df max_aspects)) ->
             map fst row = keys).
  { intros row Hr. apply in_map_iff in Hr as [a [<- _]].
    apply row_for_key_list. }
  split.
  - simpl. intros E.
    destruct (selected_aspects df max_aspects); [reflexivity|discriminate E].
  - intros Hne Hcap. cbn [matrix_rows DataFrame_of_records] in Hne.
    assert (Hcols : matrix_columns
                      (DataFrame_of_records
                         (map (row_for df names) (selected_aspects df max_aspects)))
                    = keys)
      by (apply records_columns; assumption).
    unfold matrix_subset. rewrite Hcols.
    destruct (add_columns_head names [] "aspect") as [rest Hrest].
    fold keys in Hrest.
    assert (Hlen : (List.length rest <= 500)%nat).
    { pose proof (add_columns_length names ["aspect"]) as Hl.
      fold keys in Hl. rewrite Hrest in Hl. simpl in Hl.
      pose proof (nlargest_length_le max_categories aspectsCount (rows df)) as Hs.
      unfold names, selected_categories in *. rewrite length_map in Hl. lia. }
    rewrite Hrest. cbn [tl]. rewrite (firstn_all2 rest) by exact Hlen.
    rewrite <- Hrest. rewrite forallb_existsb_self.
    cbn [matrix_rows DataFrame_of_records].
    f_equal. f_equal.
    rewrite <- (map_id (firstn 500 (map (row_for df names)
                                       (selected_aspects df max_aspects)))) at 2.
    apply map_ext_in. intros row Hr.
    assert (Hin : In row (map (row_for df names) (selected_aspects df max_aspects))).
    { rewrite <- (firstn_skipn 500 (map (row_for df names)
                                      (selected_aspects df max_aspects))).
      apply in_or_app. left. exact Hr. }
    rewrite <- (Hrows row Hin). apply select_cells_self.
    rewrite (Hrows row Hin). exact Hnd.
Qed.

Lemma matrix_subset_of_built_matrix_witness :
  (matrix_rows {| matrix_columns := []; matrix_rows := [] |} = [] ->
   matrix_subset {| matrix_columns := []; matrix_rows := [] |} = Raise KeyError)
  /\ (matrix_rows {| matrix_columns := []; matrix_rows := [] |} <> [] ->
      500 <= 500 ->
      matrix_subset {| matrix_columns := []; matrix_rows := [] |}
      = Ok {| matrix_columns := [];
              matrix_rows := firstn 500 [] |}).
Proof.
  apply (matrix_subset_of_built_matrix
           no_aspects_frame 1000 500
           {| matrix_columns := []; matrix_rows := [] |}).
  reflexivity.
Defined.

(** ** The category explorer and the tabs *)

Lemma split_nonempty (sep : ascii) (s : string) : Str.split sep s <> [].
Proof.
  destruct s as [|c s]; simpl; [discriminate|].
  destruct (Ascii.eqb c sep); [discriminate|].
  destruct (Str.split sep s); discriminate.
Qed.

(** Joining the pieces of a split with the separator gives the string
    back. *)
Lemma split_concat (sep : ascii) (s : string) :
  String.concat (String sep EmptyString) (Str.split sep s) = s.
Proof.
  induction s as [|c s IH]; [reflexivity|]. simpl Str.split.
  pose proof (split_nonempty sep s) as Hne.
  destruct (Ascii.eqb c sep) eqn:E.
  - apply Ascii.eqb_eq in E. subst c.
    destruct (Str.split sep s) as [|t ts]; [congruence|].
    simpl in *. rewrite IH. reflexivity.
  - destruct (Str.split sep s) as [|t ts]; [congruence|].
    destruct ts as [|t' ts]; simpl in *; rewrite IH; reflexivity.
Qed.

Lemma split_length (sep : ascii) (s : string) :
  List.length (Str.split sep s) = (count_char sep s + 1)%nat.
Proof.
  induction s as [|c s IH]; [reflexivity|]. simpl.
  destruct (Ascii.eqb c sep); simpl; [rewrite IH; reflexivity|].
  pose proof (split_nonempty sep s) as Hne.
  destruct (Str.split sep s) as [|t ts]; [congruence|exact IH].
Qed.

Lemma split_pieces_clean (sep : ascii) (s p : string) :
  In p (Str.split sep s) -> contains_char sep p = false.
Proof.
  revert p. induction s as [|c s IH]; simpl; intros p H.
  - destruct H as [<-|[]]. reflexivity.
  - destruct (Ascii.eqb c sep) eqn:E.
    + destruct H as [<-|H]; [reflexivity|auto].
    + pose proof (split_nonempty sep s) as Hne.
      destruct (Str.split sep s) as [|t ts]; [congruence|].
      destruct H as [<-|H].
      * simpl. rewrite E. apply IH. left. reflexivity.
      * apply IH. right. exact H.
Qed.

Lemma contains_char_count (c : ascii) (s : string) :
  contains_char c s = true <-> (0 < count_char c s)%nat.
Proof.
  induction s as [|d s IH]; simpl; [split; [discriminate|lia]|].
  destruct (Ascii.eqb d c); simpl; [split; [lia|reflexivity]|exact IH].
Qed.

Lemma string_app_empty_r (s : string) : (s ++ EmptyString)%string = s.
Proof. induction s as [|c s IH]; simpl; [reflexivity|rewrite IH; reflexivity]. Qed.

Lemma string_app_assoc (s t u : string) :
  ((s ++ t) ++ u)%string = (s ++ (t ++ u))%string.
Proof. induction s as [|c s IH]; simpl; [reflexivity|rewrite IH; reflexivity]. Qed.

(** X10.  For an aspect with a slash the explorer shows as Type the text
    before the first slash and as Subtype the text between the first and
    the second: the aspect starts with Type/Subtype, it is exactly that when
    it has a single slash, and anything from a second slash on is dropped. *)
Theorem aspect_type_subtype (aspect : string) :
  contains_char "/" aspect = true ->
  contains_char "/" (aspect_type aspect) = false
  /\ contains_char "/" (aspect_subtype aspect) = false
  /\ exists rest,
       aspect = (aspect_type aspect ++ "/" ++ aspect_subtype aspect ++ rest)%string
       /\ (count_char "/" aspect = 1%nat -> rest = EmptyString)
       /\ (rest = EmptyString \/ exists r, rest = String "/" r).
Proof.
  intros Hs. unfold aspect_type, aspect_subtype. rewrite Hs.
  pose proof (split_length "/" aspect) as Hl.
  pose proof (split_concat "/" aspect) as Hc.
  pose proof (split_pieces_clean "/" aspect) as Hp.
  apply contains_char_count in Hs.
  destruct (Str.split "/" aspect) as [|t [|u ps]]; simpl in Hl; try lia.
  simpl nth.
  split; [apply Hp; simpl; auto|]. split; [apply Hp; simpl; auto|].
  destruct ps as [|p ps].
  - exists EmptyString. split; [|auto].
    rewrite <- Hc. simpl. rewrite string_app_empty_r. reflexivity.
  - exists (String "/" (String.concat "/" (p :: ps))). split; [|split].
    + rewrite <- Hc at 1. reflexivity.
    + intros H1. simpl in Hl. lia.
    + right. eauto.
Qed.

Lemma aspect_type_subtype_witness :
  contains_char "/" (aspect_type "Product/Price") = false
  /\ contains_char "/" (aspect_subtype "Product/Price") = false
  /\ exists rest,
       "Product/Price"
       = (aspect_type "Product/Price" ++ "/"
          ++ aspect_subtype "Product/Price" ++ rest)%string
       /\ (count_char "/" "Product/Price" = 1%nat -> rest = EmptyString)
       /\ (rest = EmptyString \/ exists r, rest = String "/" r).
Proof. apply (aspect_type_subtype "Product/Price"). reflexivity. Defined.

Lemma zero_vs_not_positive (l : list Row) :
  (List.length (filter (fun r => (aspectsCount r =? 0)%Z) l)
   <= List.length (filter (fun r => negb (0 <? aspectsCount r)%Z) l))%nat
  /\ (List.length (filter (fun r => (aspectsCount r =? 0)%Z) l)
      = List.length (filter (fun r => negb (0 <? aspectsCount r)%Z) l)
      <-> forall r, In r l -> 0 <= aspectsCount r).
Proof.
  induction l as [|r l [IH1 IH2]]; simpl.
  - split; [lia|]. split; [intros _ r []|reflexivity].
  - destruct (aspectsCount r =? 0) eqn:E2, (0 <? aspectsCount r) eqn:E1;
      simpl.
    + apply Z.eqb_eq in E2. apply Z.ltb_lt in E1. lia.
    + apply Z.eqb_eq in E2. split; [lia|]. split.
      * intros H r' [<-|Hr']; [lia|]. apply IH2; [lia|exact Hr'].
      * intros H. f_equal. apply IH2. auto.
    + apply Z.ltb_lt in E1. split; [exact IH1|]. split.
      * intros H r' [<-|Hr']; [lia|]. apply IH2; [exact H|exact Hr'].
      * intros H. apply IH2. auto.
    + apply Z.eqb_neq in E2. apply Z.ltb_ge in E1. split; [lia|]. split.
      * intros H. lia.
      * intros H. specialize (H r (or_introl eq_refl)). lia.
Qed.

(** X11.  The tab "Categories without aspects" lists the rows whose count
    is 0, the header counts the rows whose count is not positive: the tab
    never lists more rows than the header announces, and the two agree
    exactly when no count is negative. *)
Theorem categories_no_aspects_vs_header (df : DataFrame) (s : Summary) :
  summary df = Ok s ->
  Z.of_nat (List.length (categories_no_aspects df))
  <= categories_without_aspects s
  /\ (Z.of_nat (List.length (categories_no_aspects df))
      = categories_without_aspects s
      <-> forall r, In r (rows df) -> 0 <= aspectsCount r).
Proof.
  unfold summary. destruct (has_column "aspectsCount" df); [|discriminate].
  intros H. injection H as <-. cbn [categories_without_aspects].
  unfold categories_no_aspects.
  pose proof (length_filter_split (fun r => 0 <? aspectsCount r) (rows df)) as Hs.
  destruct (zero_vs_not_positive (rows df)) as [H1 H2].
  split; [lia|]. rewrite <- H2. split; intros H; lia.
Qed.

Lemma categories_no_aspects_vs_header_witness :
  Z.of_nat (List.length (categories_no_aspects example_csv)) <= 0
  /\ (Z.of_nat (List.length (categories_no_aspects example_csv)) = 0
      <-> forall r, In r (rows example_csv) -> 0 <= aspectsCount r).
Proof.
  apply (categories_no_aspects_vs_header
           example_csv
           {| total_categories := 2; categories_with_aspects := 2;
              categories_without_aspects := 0;
              avg_aspects := mean (map aspectsCount (rows example_csv)) |}).
  reflexivity.
Defined.

(** ** More on the comma split *)

Lemma split_app_sep (sep : ascii) (t u : string) :
  contains_char sep t = false ->
  Str.split sep (t ++ String sep u) = t :: Str.split sep u.
Proof.
  induction t as [|c t IH]; simpl; intros H.
  - rewrite Ascii.eqb_refl. reflexivity.
  - apply orb_false_iff in H as [Hc Ht]. rewrite Hc, IH by exact Ht.
    reflexivity.
Qed.

Lemma split_no_sep (sep : ascii) (t : string) :
  contains_char sep t = false -> Str.split sep t = [t].
Proof.
  induction t as [|c t IH]; simpl; intros H; [reflexivity|].
  apply orb_false_iff in H as [Hc Ht]. rewrite Hc, IH by exact Ht.
  reflexivity.
Qed.

Lemma strip_leading_space (c : ascii) (s : string) :
  Str.isspace c = true -> Str.strip (String c s) = Str.strip s.
Proof. intros H. unfold Str.strip. simpl. rewrite H. reflexivity. Qed.

Lemma comma_split_leading_space (c : ascii) (s : string) :
  Str.isspace c = true -> comma_split (String c s) = comma_split s.
Proof.
  intros Hc. unfold comma_split. simpl Str.split.
  destruct (Ascii.eqb c ",") eqn:E.
  - apply Ascii.eqb_eq in E. subst c. discriminate Hc.
  - pose proof (split_nonempty "," s) as Hne.
    destruct (Str.split "," s) as [|t ts]; [congruence|].
    cbn [map filter]. rewrite strip_leading_space by exact Hc. reflexivity.
Qed.

Lemma comma_split_leading_pad (pad s : string) :
  all_space pad = true -> comma_split (pad ++ s) = comma_split s.
Proof.
  induction pad as [|c pad IH]; simpl; intros H; [reflexivity|].
  apply andb_true_iff in H as [Hc Hp].
  rewrite comma_split_leading_space by exact Hc. apply IH. exact Hp.
Qed.

Lemma comma_split_token (t : string) :
  t <> EmptyString -> Str.strip t = t -> contains_char "," t = false ->
  comma_split t = [t].
Proof.
  intros Hne Hs Hc. unfold comma_split. rewrite split_no_sep by exact Hc.
  simpl. rewrite Hs. destruct t; [congruence|reflexivity].
Qed.

Lemma comma_split_token_then (t u : string) :
  t <> EmptyString -> Str.strip t = t -> contains_char "," t = false ->
  comma_split (t ++ String "," u) = t :: comma_split u.
Proof.
  intros Hne Hs Hc. unfold comma_split. rewrite split_app_sep by exact Hc.
  simpl. rewrite Hs. destruct t; [congruence|reflexivity].
Qed.

(** Parsing clean tokens joined by a comma and blanks gives them back. *)
Lemma comma_split_concat (pad : string) (ts : list string) :
  all_space pad = true ->
  Forall (fun t => t <> EmptyString /\ Str.strip t = t
                   /\ contains_char "," t = false) ts ->
  comma_split (String.concat (String "," pad) ts) = ts.
Proof.
  intros Hp. induction ts as [|t ts IH]; intros H; [reflexivity|].
  inversion H as [|? ? [Hne [Hs Hc]] Hts]; subst.
  destruct ts as [|t' ts].
  - simpl. apply comma_split_token; assumption.
  - change (String.concat (String "," pad) (t :: t' :: ts))
      with (t ++ String "," (pad ++ String.concat (String "," pad) (t' :: ts)))%string.
    rewrite comma_split_token_then by assumption.
    rewrite comma_split_leading_pad by exact Hp.
    rewrite IH by exact Hts. reflexivity.
Qed.

Lemma lstrip_no_char (c : ascii) (s : string) :
  contains_char c s = false -> contains_char c (Str.lstrip s) = false.
Proof.
  induction s as [|d s IH]; simpl; intros H; [reflexivity|].
  apply orb_false_iff in H as [Hd Hs].
  destruct (Str.isspace d); [auto|]. simpl. rewrite Hd. exact Hs.
Qed.

Lemma rstrip_no_char (c : ascii) (s : string) :
  contains_char c s = false -> contains_char c (Str.rstrip s) = false.
Proof.
  induction s as [|d s IH]; simpl; intros H; [reflexivity|].
  apply orb_false_iff in H as [Hd Hs]. specialize (IH Hs).
  destruct (Str.rstrip s) as [|e r].
  - destruct (Str.isspace d); simpl; [reflexivity|]. rewrite Hd. reflexivity.
  - simpl in *. rewrite Hd. exact IH.
Qed.

Lemma strip_no_char (c : ascii) (s : string) :
  contains_char c s = false -> contains_char c (Str.strip s) = false.
Proof.
  intros H. unfold Str.strip. apply rstrip_no_char, lstrip_no_char, H.
Qed.

(** The tokens of the comma split are non-empty, trimmed and free of
    commas. *)
Lemma comma_split_clean (val : string) :
  Forall (fun t => t <> EmptyString /\ Str.strip t = t
                   /\ contains_char "," t = false) (comma_split val).
Proof.
  apply Forall_forall. intros t Ht.
  destruct (comma_split_tokens val t Ht) as [Hs Hne].
  split; [exact Hne|]. split; [exact Hs|].
  unfold comma_split in Ht. apply filter_In in Ht as [Ht _].
  apply in_map_iff in Ht as [p [<- Hp]].
  apply strip_no_char. eapply split_pieces_clean. exact Hp.
Qed.

(** X12.  Round trip of the plain format: a list of non-empty, trimmed,
    comma-free tokens written with a comma and any blanks between them
    parses back to the same list, as long as the text does not both begin
    with "[" and end with "]". *)
Theorem parse_aspects_of_joined_tokens
  (literal_eval : string -> result pyval) (pad : string) (ts : list string) :
  all_space pad = true ->
  Forall (fun t => t <> EmptyString /\ Str.strip t = t
                   /\ contains_char "," t = false) ts ->
  Str.startswith "[" (String.concat (String "," pad) ts)
  && Str.endswith "]" (String.concat (String "," pad) ts) = false ->
  parse_aspects literal_eval (String.concat (String "," pad) ts)
  = Ok (PList (map PStr ts)).
Proof.
  intros Hp Hts Hb. rewrite parse_aspects_plain by exact Hb.
  rewrite comma_split_concat by assumption. reflexivity.
Qed.

Lemma parse_aspects_of_joined_tokens_witness :
  parse_aspects Ast.literal_eval "battery, price, design"
  = Ok (PList [PStr "battery"; PStr "price"; PStr "design"]).
Proof.
  apply (parse_aspects_of_joined_tokens
           Ast.literal_eval " " ["battery"; "price"; "design"]).
  - reflexivity.
  - repeat constructor; discriminate.
  - reflexivity.
Defined.

(** X13.  Whatever the text, the tokens of the comma split are non-empty,
    trimmed and free of commas, and there is at most one more of them than
    there are commas in the text. *)
Theorem comma_split_tokens_bound (val : string) :
  Forall (fun t => t <> EmptyString /\ Str.strip t = t
                   /\ contains_char "," t = false) (comma_split val)
  /\ (List.length (comma_split val) <= count_char "," val + 1)%nat.
Proof.
  split; [apply comma_split_clean|].
  unfold comma_split. rewrite <- (split_length "," val).
  rewrite <- (length_map Str.strip (Str.split "," val)).
  generalize (map Str.strip (Str.split "," val)). intros l.
  induction l as [|x l IH]; simpl; [lia|].
  destruct (Str.truthy x); simpl; lia.
Qed.

(** X14.  The comma split is a normal form: writing its tokens back with
    ", " between them and splitting again gives the same tokens. *)
Theorem comma_split_normal_form (val : string) :
  comma_split (String.concat ", " (comma_split val)) = comma_split val.
Proof. apply (comma_split_concat " "); [reflexivity|apply comma_split_clean]. Qed.

(** ** More on [process_csv] *)

Lemma filter_nil_iff {A : Type} (f : A -> bool) (l : list A) :
  filter f l = [] <-> forall x, In x l -> f x = false.
Proof.
  induction l as [|x l IH]; simpl; [split; [intros _ ? []|reflexivity]|].
  destruct (f x) eqn:E.
  - split; [discriminate|]. intros H. specialize (H x (or_introl eq_refl)).
    congruence.
  - rewrite IH. split.
    + intros H y [<-|Hy]; auto.
    + intros H y Hy. apply H. right. exact Hy.
Qed.

(** X15.  [process_csv] returns a column exactly when the file could be
    read, holds the four required columns and its aspects column has the
    dtype object; the column then has one list per row. *)
Theorem process_csv_returns_iff
  (read : result ReviewFrame) (l : list (list string)) :
  process_csv read = Some l
  <-> exists df,
        read = Ok df
        /\ (forall col, In col required_columns -> In col (review_columns df))
        /\ series_dtype (review_aspects df) = object
        /\ l = map split_strip (series_values (review_aspects df)).
Proof.
  unfold process_csv. split.
  - destruct read as [df|e]; [|discriminate].
    destruct (filter _ required_columns) as [|c cs] eqn:Ef; [|discriminate].
    destruct (series_dtype (review_aspects df)) eqn:Ed; try discriminate.
    intros H. injection H as <-. exists df. split; [reflexivity|].
    split; [|auto]. intros col Hcol.
    rewrite filter_nil_iff in Ef. specialize (Ef col Hcol).
    apply negb_false_iff in Ef. apply existsb_string_In. exact Ef.
  - intros [df [-> [Hcols [Hd ->]]]].
    assert (Ef : filter (fun col => negb (existsb (String.eqb col) (review_columns df)))
                        required_columns = []).
    { apply filter_nil_iff. intros col Hcol. apply negb_false_iff.
      apply existsb_string_In. auto. }
    rewrite Ef, Hd. reflexivity.
Qed.

(** X16.  For a text field [process_csv] keeps one piece per comma plus
    one, every piece trimmed and free of commas; the tokens of
    [parse_aspects] are these pieces without the empty ones. *)
Theorem split_strip_pieces (s : string) :
  List.length (split_strip (FStr s)) = (count_char "," s + 1)%nat
  /\ Forall (fun p => Str.strip p = p /\ contains_char "," p = false)
            (split_strip (FStr s))
  /\ comma_split s = filter Str.truthy (split_strip (FStr s)).
Proof.
  simpl. split; [rewrite length_map; apply split_length|].
  split; [|reflexivity].
  apply Forall_forall. intros p Hp. apply in_map_iff in Hp as [q [<- Hq]].
  split; [apply strip_strip|].
  apply strip_no_char. eapply split_pieces_clean. exact Hq.
Qed.

(** ** More on [load_category_data] *)

Lemma apply_length {A B : Type} (f : A -> result B) (l : list A) (l' : list B) :
  apply f l = Ok l' -> List.length l' = List.length l.
Proof.
  intros H. apply apply_Forall2 in H.
  induction H; simpl; [reflexivity|f_equal; assumption].
Qed.

Lemma apply_returns_iff {A B : Type} (f : A -> result B) (l : list A) :
  (exists l', apply f l = Ok l') <-> forall x, In x l -> exists y, f x = Ok y.
Proof.
  split.
  - intros [l' H] x Hx. destruct (f x) as [y|e] eqn:E; [eauto|].
    destruct (apply_raise f l x e Hx E) as [e' He']. congruence.
  - induction l as [|x l IH]; simpl; intros H; [eauto|].
    destruct (H x (or_introl eq_refl)) as [y ->].
    destruct IH as [l' ->]; [auto|]. simpl. eauto.
Qed.

Lemma apply_raises_at {A B : Type} (f : A -> result B) (l : list A) (e : exn) :
  apply f l = Raise e -> exists x e', In x l /\ f x = Raise e'.
Proof.
  revert e. induction l as [|x l IH]; simpl; intros e H; [discriminate H|].
  destruct (f x) as [y|e0] eqn:E; simpl in H.
  - destruct (apply f l) as [ys|e1]; simpl in H; [discriminate H|].
    destruct (IH e1 eq_refl) as [x' [e' [Hin Hf]]].
    exists x', e'. auto.
  - exists x, e0. auto.
Qed.

Lemma map_fst_combine {A B : Type} (l : list A) (l' : list B) :
  List.length l' = List.length l -> map fst (combine l l') = l.
Proof.
  revert l'. induction l as [|x l IH]; intros [|y l'] H; simpl in *;
    try reflexivity; try discriminate.
  f_equal. apply IH. lia.
Qed.

(** The rows after [df['aspects_parsed'] = values] are the old rows with
    the new cells. *)
Lemma assign_keeps_records (df : DataFrame) (values : list pyval) :
  List.length values = List.length (rows df) ->
  map name (rows (assign_aspects_parsed df values)) = map name (rows df)
  /\ map aspectsCount (rows (assign_aspects_parsed df values))
     = map aspectsCount (rows df)
  /\ map aspects (rows (assign_aspects_parsed df values))
     = map aspects (rows df).
Proof.
  intros H. unfold assign_aspects_parsed. cbn [rows].
  rewrite !map_map. cbn [set_aspects_parsed name aspectsCount aspects].
  rewrite <- !(map_map fst), (map_fst_combine _ _ H). auto.
Qed.

(** X17.  Loading changes nothing but the parsed column: the loaded frame
    holds the records of the frame that was read (of its sample, when the
    file has more than [max_rows] rows) with their names, counts and raw
    fields in the same order, the same dtype, and the same columns plus
    "aspects_parsed". *)
Theorem load_keeps_records
  (literal_eval : string -> result pyval)
  (read_csv : string -> result DataFrame)
  (sample : Z -> DataFrame -> result DataFrame)
  (file_path : string) (max_rows : Z) (df0 df1 df : DataFrame) :
  read_csv file_path = Ok df0 ->
  (if max_rows <? Z.of_nat (List.length (rows df0))
   then sample max_rows df0 else Ok df0) = Ok df1 ->
  load_category_data literal_eval read_csv sample file_path max_rows
  = Ok (Some df) ->
  map name (rows df) = map name (rows df1)
  /\ map aspectsCount (rows df) = map aspectsCount (rows df1)
  /\ map aspects (rows df) = map aspects (rows df1)
  /\ aspectsCount_dtype df = aspectsCount_dtype df1
  /\ forall col,
       has_column col df
       = has_column col df1
         || (has_column "aspects" df1 && String.eqb col "aspects_parsed").
Proof.
  intros Hr Hs. unfold load_category_data, load_category_data_body.
  rewrite Hr. cbn [bind]. rewrite Hs. cbn [bind].
  destruct (has_column "aspects" df1) eqn:Ha.
  - destruct (apply (parse_cell literal_eval) (map aspects (rows df1)))
      as [vs|] eqn:Ev; simpl; [|discriminate].
    intros H. injection H as <-.
    apply apply_length in Ev. rewrite length_map in Ev.
    destruct (assign_keeps_records df1 vs Ev) as [H1 [H2 H3]].
    split; [exact H1|]. split; [exact H2|]. split; [exact H3|].
    split; [reflexivity|].
    intros col. unfold assign_aspects_parsed, has_column at 1. cbn [columns].
    destruct (has_column "aspects_parsed" df1) eqn:Ep.
    + fold (has_column col df1).
      destruct (String.eqb col "aspects_parsed") eqn:Ec.
      * apply String.eqb_eq in Ec. subst col. rewrite Ep. reflexivity.
      * simpl. rewrite orb_false_r. reflexivity.
    + rewrite existsb_app. fold (has_column col df1). simpl.
      rewrite orb_false_r. reflexivity.
  - simpl. intros H. injection H as <-. repeat split; try reflexivity.
    intros col. simpl. rewrite orb_false_r. reflexivity.
Qed.

Lemma load_keeps_records_witness :
  map name (rows example_loaded) = map name (rows example_csv)
  /\ map aspectsCount (rows example_loaded)
     = map aspectsCount (rows example_csv)
  /\ map aspects (rows example_loaded) = map aspects (rows example_csv)
  /\ aspectsCount_dtype example_loaded = aspectsCount_dtype example_csv
  /\ forall col,
       has_column col example_loaded
       = has_column col example_csv
         || (has_column "aspects" example_csv
             && String.eqb col "aspects_parsed").
Proof.
  apply (load_keeps_records
           Ast.literal_eval (fun _ => Ok example_csv) (fun _ d => Ok d)
           "example_data/review_categories.csv" 500
           example_csv example_csv example_loaded); reflexivity.
Defined.

(** X18.  A file that is read, fits in [max_rows] and has the column
    "aspects" loads exactly when every field that starts, once stripped,
    with "[" decodes; one field that does not decode makes the whole load
    return [None]. *)
Theorem load_returns_iff_fields_decode
  (literal_eval : string -> result pyval)
  (read_csv : string -> result DataFrame)
  (sample : Z -> DataFrame -> result DataFrame)
  (file_path : string) (max_rows : Z) (df0 : DataFrame) :
  read_csv file_path = Ok df0 ->
  Z.of_nat (List.length (rows df0)) <= max_rows ->
  has_column "aspects" df0 = true ->
  let loaded :=
    load_category_data literal_eval read_csv sample file_path max_rows in
  let decodes :=
    forall r s, In r (rows df0) -> aspects r = FStr s ->
                Str.startswith "[" (Str.strip s) = true ->
                exists v, literal_eval s = Ok v in
  ((exists df, loaded = Ok (Some df)) <-> decodes)
  /\ (~ decodes -> loaded = Ok None).
Proof.
  intros Hr Hn Hc loaded decodes. subst loaded decodes.
  unfold load_category_data, load_category_data_body.
  rewrite Hr. cbn [bind].
  destruct (max_rows <? Z.of_nat (List.length (rows df0))) eqn:E;
    [apply Z.ltb_lt in E; lia|].
  cbn [bind]. rewrite Hc.
  assert (Hiff : (exists vs, apply (parse_cell literal_eval)
                                   (map aspects (rows df0)) = Ok vs)
                 <-> forall r s, In r (rows df0) -> aspects r = FStr s ->
                                 Str.startswith "[" (Str.strip s) = true ->
                                 exists v, literal_eval s = Ok v).
  { rewrite apply_returns_iff. split.
    - intros H r s Hin Ha Hb.
      destruct (H (aspects r) (in_map aspects _ _ Hin)) as [y Hy].
      rewrite Ha in Hy. simpl in Hy. rewrite Hb in Hy. eauto.
    - intros H x Hx. apply in_map_iff in Hx as [r [<- Hin]].
      destruct (aspects r) as [|s] eqn:Ha; simpl; [eauto|].
      destruct (Str.startswith "[" (Str.strip s)) eqn:Hb; [|eauto].
      apply (H r s); assumption. }
  destruct (apply (parse_cell literal_eval) (map aspects (rows df0)))
    as [vs|e] eqn:Ev; simpl.
  - split; [|intros Hnot; exfalso; apply Hnot, Hiff; eauto].
    split; [intros _; apply Hiff; eauto|eauto].
  - split; [|reflexivity].
    split; [intros [df H]; discriminate H|].
    intros H. apply Hiff in H as [vs H]. discriminate H.
Qed.

Lemma load_returns_iff_fields_decode_witness :
  (exists df,
      load_category_data Ast.literal_eval (fun _ => Ok example_csv)
                         (fun _ d => Ok d)
                         "example_data/review_categories.csv" 500
      = Ok (Some df))
  <-> (forall r s, In r (rows example_csv) -> aspects r = FStr s ->
                   Str.startswith "[" (Str.strip s) = true ->
                   exists v, Ast.literal_eval s = Ok v).
Proof.
  apply (load_returns_iff_fields_decode
           Ast.literal_eval (fun _ => Ok example_csv) (fun _ d => Ok d)
           "example_data/review_categories.csv" 500 example_csv);
    [reflexivity|simpl; lia|reflexivity].
Defined.

(** ** The custom categories upload *)

Lemma custom_cell_blank (decode : string -> result pyval) (x : field) :
  (x = FNaN \/ exists s, x = FStr s /\ all_space s = true) ->
  custom_cell decode x = Ok (PList []).
Proof.
  intros [->|[s [-> Hs]]]; simpl; [reflexivity|].
  rewrite all_space_strip by exact Hs. reflexivity.
Qed.

(** X19.  The custom upload never mixes its two decoders: the stored column
    is decoded by [json.loads] throughout, or, as soon as one field is not
    JSON, by [ast.literal_eval] throughout; empty and blank fields give the
    empty list either way; and the upload is refused exactly when both
    passes fail. *)
Theorem custom_upload_one_decoder
  (json_loads literal_eval : string -> result pyval) (cells : list field) :
  (forall vs,
      custom_aspects_parsed json_loads literal_eval cells = Ok vs ->
      Forall2 (fun x v => custom_cell json_loads x = Ok v) cells vs
      \/ ((exists x e, In x cells /\ custom_cell json_loads x = Raise e)
          /\ Forall2 (fun x v => custom_cell literal_eval x = Ok v) cells vs))
  /\ ((exists e, custom_aspects_parsed json_loads literal_eval cells = Raise e)
      <-> (exists x e, In x cells /\ custom_cell json_loads x = Raise e)
          /\ (exists x e, In x cells /\ custom_cell literal_eval x = Raise e))
  /\ (forall decode x,
        (x = FNaN \/ exists s, x = FStr s /\ all_space s = true) ->
        custom_cell decode x = Ok (PList [])).
Proof.
  unfold custom_aspects_parsed. split; [|split].
  - intros vs.
    destruct (apply (custom_cell json_loads) cells) as [js|e] eqn:Ej; simpl.
    + intros H. injection H as <-. left. apply apply_Forall2. exact Ej.
    + intros H. right. split.
      * apply apply_raises_at in Ej as [x [e' [Hx He']]]. eauto.
      * apply apply_Forall2. exact H.
  - destruct (apply (custom_cell json_loads) cells) as [js|e] eqn:Ej; simpl.
    + split; [intros [e H]; discriminate H|].
      intros [[x [e [Hx He]]] _].
      destruct (apply_raise _ _ _ _ Hx He) as [e' He']. congruence.
    + split.
      * intros [e' H]. split.
        -- apply apply_raises_at in Ej as [x [e1 [Hx He1]]]. eauto.
        -- apply apply_raises_at in H as [x [e1 [Hx He1]]]. eauto.
      * intros [_ [x [e' [Hx He']]]].
        destruct (apply_raise _ _ _ _ Hx He') as [e1 He1]. eauto.
  - intros decode x. apply custom_cell_blank.
Qed.

(** ** [analyze_aspects] *)

Lemma add_columns_In (x : string) (names cols : list string) :
  In x (fold_left add_column names cols) <-> In x cols \/ In x names.
Proof.
  revert cols. induction names as [|n names IH]; simpl; intros cols;
    [tauto|].
  rewrite IH. unfold add_column.
  destruct (existsb (String.eqb n) cols) eqn:E.
  - apply existsb_string_In in E. split; [tauto|].
    intros [H|[<-|H]]; auto.
  - rewrite in_app_iff. simpl. tauto.
Qed.

Lemma unique_In (x : string) (l : list string) : In x (unique l) <-> In x l.
Proof. unfold unique. rewrite add_columns_In. simpl. tauto. Qed.

Lemma unique_NoDup (l : list string) : NoDup (unique l).
Proof. apply add_columns_NoDup. constructor. Qed.

Lemma insert_string_perm (x : string) (l : list string) :
  Permutation (x :: l) (insert_string x l).
Proof.
  induction l as [|y l IH]; simpl; [reflexivity|].
  destruct (String.leb x y); [reflexivity|].
  rewrite perm_swap. constructor. exact IH.
Qed.

Lemma sort_strings_perm (l : list string) : Permutation l (sort_strings l).
Proof.
  induction l as [|x l IH]; simpl; [constructor|].
  rewrite <- insert_string_perm. constructor. exact IH.
Qed.

Lemma group_keys_In (x : string) (l : list string) :
  In x (group_keys l) <-> In x l.
Proof.
  unfold group_keys. split; intros H.
  - apply unique_In. eapply Permutation_in; [|exact H].
    apply Permutation_sym, sort_strings_perm.
  - eapply Permutation_in; [apply sort_strings_perm|].
    apply unique_In. exact H.
Qed.

Lemma group_keys_NoDup (l : list string) : NoDup (group_keys l).
Proof.
  eapply Permutation_NoDup; [apply sort_strings_perm|apply unique_NoDup].
Qed.

(** The keys of the per-category dict are the aspects in the order they
    are first met. *)
Lemma count_aspect_keys (a : string) (d : list (string * Z)) :
  map fst (count_aspect a d) = add_column (map fst d) a.
Proof.
  unfold add_column. induction d as [|[k n] d IH]; simpl; [reflexivity|].
  destruct (String.eqb a k) eqn:E; simpl; [reflexivity|].
  rewrite IH. destruct (existsb (String.eqb a) (map fst d)); reflexivity.
Qed.

Lemma fold_count_concat (ls : list (list string)) (d : list (string * Z)) :
  fold_left
    (fun aspect_counts aspect_list =>
       fold_left (fun d aspect => count_aspect aspect d) aspect_list aspect_counts)
    ls d
  = fold_left (fun d aspect => count_aspect aspect d) (List.concat ls) d.
Proof.
  revert d. induction ls as [|l ls IH]; simpl; intros d; [reflexivity|].
  rewrite IH, fold_left_app. reflexivity.
Qed.

Lemma category_counts_keys (rs : list Review) :
  map fst (category_aspect_counts rs)
  = unique (List.concat (map review_aspects_list rs)).
Proof.
  unfold category_aspect_counts, unique. rewrite fold_count_concat.
  generalize (List.concat (map review_aspects_list rs)). intros s.
  change (@nil string) with (map fst (@nil (string * Z))).
  generalize (@nil (string * Z)). induction s as [|a s IH]; intros d;
    simpl; [reflexivity|].
  rewrite IH, count_aspect_keys. reflexivity.
Qed.

Lemma counts_get_count_aspect (a k : string) (d : list (string * Z)) :
  counts_get a (count_aspect k d)
  = counts_get a d + (if String.eqb a k then 1 else 0).
Proof.
  induction d as [|[k' n] d IH]; simpl.
  - destruct (String.eqb a k); reflexivity.
  - destruct (String.eqb k k') eqn:E; simpl.
    + apply String.eqb_eq in E. subst k'. destruct (String.eqb a k); lia.
    + destruct (String.eqb a k') eqn:E'; [|exact IH].
      apply String.eqb_eq in E'. subst k'.
      rewrite String.eqb_sym, E. lia.
Qed.

Lemma counts_get_fold (a : string) (s : list string) (d : list (string * Z)) :
  counts_get a (fold_left (fun d aspect => count_aspect aspect d) s d)
  = counts_get a d + Z.of_nat (count_occ string_dec s a).
Proof.
  revert d. induction s as [|k s IH]; intros d; simpl; [lia|].
  rewrite IH, counts_get_count_aspect.
  destruct (string_dec k a) as [->|Hn].
  - rewrite String.eqb_refl. lia.
  - assert (E : String.eqb a k = false)
      by (apply String.eqb_neq; congruence).
    rewrite E. lia.
Qed.

Lemma counts_get_In (a : string) (n : Z) (d : list (string * Z)) :
  NoDup (map fst d) -> In (a, n) d -> counts_get a d = n.
Proof.
  induction d as [|[k m] d IH]; simpl; intros Hnd Hin; [contradiction|].
  inversion Hnd as [|? ? Hk Hd]; subst.
  destruct Hin as [E|Hin].
  - injection E as -> ->. rewrite String.eqb_refl. reflexivity.
  - destruct (String.eqb a k) eqn:E; [|apply IH; assumption].
    apply String.eqb_eq in E. subst k. exfalso. apply Hk.
    apply in_map_iff. exists (a, n). auto.
Qed.

(** The per-category dict: one entry per aspect met in the reviews, with
    the number of times it was met. *)
Lemma category_counts_rows (rs : list Review) (a : string) (n : Z) :
  In (a, n) (category_aspect_counts rs)
  <-> In a (List.concat (map review_aspects_list rs))
      /\ n = Z.of_nat (count_occ string_dec
                                 (List.concat (map review_aspects_list rs)) a).
Proof.
  pose proof (category_counts_keys rs) as Hk.
  assert (Hnd : NoDup (map fst (category_aspect_counts rs)))
    by (rewrite Hk; apply unique_NoDup).
  assert (Hget : forall a, counts_get a (category_aspect_counts rs)
                           = Z.of_nat (count_occ string_dec
                                         (List.concat (map review_aspects_list rs)) a)).
  { intros b. unfold category_aspect_counts.
    rewrite fold_count_concat, counts_get_fold. reflexivity. }
  split.
  - intros H. split.
    + apply unique_In. rewrite <- Hk. apply in_map_iff. exists (a, n). auto.
    + rewrite <- Hget. symmetry. apply counts_get_In; assumption.
  - intros [Ha ->]. apply unique_In in Ha. rewrite <- Hk in Ha.
    apply in_map_iff in Ha as [[a' n'] [E H]]. simpl in E. subst a'.
    rewrite <- Hget, (counts_get_In a n' _ Hnd H). exact H.
Qed.

Lemma reviews_of_In (df : list Review) (cat : string) (r : Review) :
  In r (reviews_of df cat) <-> In r df /\ review_category r = cat.
Proof.
  unfold reviews_of. rewrite filter_In, String.eqb_eq. tauto.
Qed.

Lemma category_occurrences_In (df : list Review) (cat a : string) :
  In a (category_occurrences df cat)
  <-> exists r, In r df /\ review_category r = cat
                /\ In a (review_aspects_list r).
Proof.
  unfold category_occurrences. rewrite in_concat. split.
  - intros [l [Hl Ha]]. apply in_map_iff in Hl as [r [<- Hr]].
    apply reviews_of_In in Hr. exists r. tauto.
  - intros [r [Hr [Hc Ha]]]. exists (review_aspects_list r). split; [|exact Ha].
    apply in_map. apply reviews_of_In. auto.
Qed.

(** The rows of the analysis, read off the reviews. *)
Lemma analysis_data_rows (df : list Review) (row : AnalysisRow) :
  In row (analysis_data df)
  <-> In (row_aspect row) (category_occurrences df (row_category row))
      /\ row_count row
         = Z.of_nat (count_occ string_dec
                               (category_occurrences df (row_category row))
                               (row_aspect row))
      /\ row_total_reviews row
         = Z.of_nat (List.length (reviews_of df (row_category row)))
      /\ row_percentage row
         = percentage_of (row_count row) (row_total_reviews row)
      /\ row_is_low_percentage row = is_low (row_percentage row).
Proof.
  unfold analysis_data. rewrite in_flat_map. split.
  - intros [cat [_ H]]. unfold category_rows in H.
    apply in_map_iff in H as [[a n] [<- H]]. simpl.
    apply category_counts_rows in H as [Ha ->]. auto.
  - intros [Ha [Hn [Ht [Hp Hl]]]]. exists (row_category row). split.
    + apply unique_In. apply category_occurrences_In in Ha as [r [Hr [Hc _]]].
      rewrite <- Hc. apply in_map. exact Hr.
    + unfold category_rows. apply in_map_iff.
      exists (row_aspect row, row_count row). split.
      * destruct row as [c a n t p l]. simpl in *. subst. reflexivity.
      * apply category_counts_rows. auto.
Qed.

Lemma count_occ_pos (s : list string) (a : string) :
  In a s -> 1 <= Z.of_nat (count_occ string_dec s a).
Proof. intros H. apply (count_occ_In string_dec) in H. lia. Qed.

Lemma reviews_of_pos (df : list Review) (cat a : string) :
  In a (category_occurrences df cat) ->
  1 <= Z.of_nat (List.length (reviews_of df cat)).
Proof.
  intros H. apply category_occurrences_In in H as [r [Hr [Hc _]]].
  assert (Hin : In r (reviews_of df cat)) by (apply reviews_of_In; auto).
  destruct (reviews_of df cat); [contradiction|simpl; lia].
Qed.

Lemma NoDup_flat_map {A B : Type} (f : A -> list B) (l : list A) :
  NoDup l ->
  (forall x, In x l -> NoDup (f x)) ->
  (forall x y b, In x l -> In y l -> In b (f x) -> In b (f y) -> x = y) ->
  NoDup (flat_map f l).
Proof.
  induction l as [|x l IH]; simpl; intros Hnd Hf Hd; [constructor|].
  inversion Hnd as [|? ? Hx Hl]; subst.
  apply NoDup_app.
  - apply Hf. left. reflexivity.
  - apply IH; [exact Hl| |].
    + intros y Hy. apply Hf. right. exact Hy.
    + intros y z b Hy Hz. apply Hd; right; assumption.
  - intros b Hb Hb'. apply in_flat_map in Hb' as [y [Hy Hby]].
    assert (E : x = y).
    { apply (Hd x y b); [left; reflexivity|right; exact Hy|exact Hb|exact Hby]. }
    subst y. contradiction.
Qed.

Lemma NoDup_map_injective {A B : Type} (f : A -> B) (l : list A) :
  (forall a b, f a = f b -> a = b) -> NoDup l -> NoDup (map f l).
Proof.
  intros Hf. induction 1 as [|x l Hx Hl IH]; simpl; constructor; [|exact IH].
  intros H. apply in_map_iff in H as [y [E Hy]]. apply Hf in E. subst y.
  contradiction.
Qed.

(** A category and an aspect name at most one row of the analysis. *)
Lemma analysis_pairs_NoDup (df : list Review) :
  NoDup (map (fun r => (row_category r, row_aspect r)) (analysis_data df)).
Proof.
  unfold analysis_data. rewrite flat_map_concat_map, concat_map, map_map.
  rewrite <- flat_map_concat_map. apply NoDup_flat_map.
  - apply unique_NoDup.
  - intros cat _. unfold category_rows. rewrite map_map. simpl.
    rewrite <- (map_map fst (fun a => (cat, a))).
    apply NoDup_map_injective; [intros a b E; congruence|].
    rewrite category_counts_keys. apply unique_NoDup.
  - intros x y b _ _ Hx Hy. unfold category_rows in Hx, Hy.
    rewrite map_map in Hx, Hy. simpl in Hx, Hy.
    apply in_map_iff in Hx as [? [<- _]]. apply in_map_iff in Hy as [? [E _]].
    congruence.
Qed.

(** X20.  The analysis has exactly one row for every category and aspect
    met together in a review: its count is the number of times the aspect
    is listed in the reviews of the category, repeats within one review
    included, and its total is the number of reviews of the category. *)
Theorem analysis_rows_count_listings (df : list Review) :
  NoDup (map (fun r => (row_category r, row_aspect r)) (analysis_data df))
  /\ (forall cat a,
        In a (category_occurrences df cat)
        <-> exists row, In row (analysis_data df)
                        /\ row_category row = cat /\ row_aspect row = a)
  /\ (forall row,
        In row (analysis_data df) ->
        row_count row
        = Z.of_nat (count_occ string_dec
                              (category_occurrences df (row_category row))
                              (row_aspect row))
        /\ row_total_reviews row
           = Z.of_nat (List.length (reviews_of df (row_category row)))).
Proof.
  split; [apply analysis_pairs_NoDup|]. split.
  - intros cat a. split.
    + intros Ha.
      set (n := Z.of_nat (count_occ string_dec (category_occurrences df cat) a)).
      set (t := Z.of_nat (List.length (reviews_of df cat))).
      exists {| row_category := cat; row_aspect := a; row_count := n;
                row_total_reviews := t;
                row_percentage := percentage_of n t;
                row_is_low_percentage := is_low (percentage_of n t) |}.
      split; [|auto]. apply analysis_data_rows. simpl. auto.
    + intros [row [Hr [<- <-]]]. apply analysis_data_rows in Hr. tauto.
  - intros row Hr. apply analysis_data_rows in Hr. tauto.
Qed.

Lemma percentage_of_value (n t : Z) :
  0 < t -> (percentage_of n t == (100 * n) # (Z.to_pos t))%Q.
Proof.
  intros Ht. destruct t as [|p|p]; try lia.
  unfold percentage_of, Qdiv, Qmult, Qinv, inject_Z, Qeq.
  cbn -[Z.mul]. rewrite Pos.mul_1_r. ring.
Qed.

Lemma count_occ_concat_NoDup (ls : list (list string)) (a : string) :
  Forall (fun l => NoDup l) ls ->
  (count_occ string_dec (List.concat ls) a <= List.length ls)%nat.
Proof.
  induction 1 as [|l ls Hl Hls IH]; simpl; [lia|].
  rewrite count_occ_app.
  pose proof (proj1 (NoDup_count_occ string_dec l) Hl a). lia.
Qed.

(** X22.  When no review lists an aspect twice, no count exceeds the number
    of reviews of the category and no percentage exceeds 100. *)
Theorem analysis_percentage_at_most_100 (df : list Review) (row : AnalysisRow) :
  (forall r, In r df -> NoDup (review_aspects_list r)) ->
  In row (analysis_data df) ->
  row_count row <= row_total_reviews row
  /\ (row_percentage row <= inject_Z 100)%Q.
Proof.
  intros Hnd H. apply analysis_data_rows in H as [Ha [Hn [Ht [Hp _]]]].
  assert (Hle : row_count row <= row_total_reviews row).
  { rewrite Hn, Ht. unfold category_occurrences.
    rewrite <- (length_map review_aspects_list).
    apply Nat2Z.inj_le. apply count_occ_concat_NoDup.
    apply Forall_forall. intros l Hl. apply in_map_iff in Hl as [r [<- Hr]].
    apply Hnd. apply reviews_of_In in Hr. tauto. }
  split; [exact Hle|].
  assert (H2 : 1 <= row_total_reviews row)
    by (rewrite Ht; eapply reviews_of_pos; exact Ha).
  rewrite Hp, percentage_of_value by lia.
  destruct (row_total_reviews row) as [|p|p]; try lia.
  unfold Qle, inject_Z. cbn -[Z.mul]. lia.
Qed.

Lemma analysis_percentage_at_most_100_witness :
  1 <= 1 /\ (100 # 1 <= inject_Z 100)%Q.
Proof.
  apply (analysis_percentage_at_most_100
           [ {| review_category := "laptop"; review_aspects_list := ["price"] |} ]
           {| row_category := "laptop"; row_aspect := "price"; row_count := 1;
              row_total_reviews := 1; row_percentage := 100 # 1;
              row_is_low_percentage := false |}).
  - intros r [<-|[]]. simpl. repeat constructor. simpl. tauto.
  - simpl. auto.
Defined.

Lemma analysis_data_nil_iff (df : list Review) :
  analysis_data df = [] <-> forall r, In r df -> review_aspects_list r = [].
Proof.
  split.
  - intros E r Hr. destruct (review_aspects_list r) as [|a l] eqn:El;
      [reflexivity|].
    assert (Ha : In a (category_occurrences df (review_category r))).
    { apply category_occurrences_In. exists r. rewrite El. simpl. auto. }
    set (n := Z.of_nat (count_occ string_dec
                          (category_occurrences df (review_category r)) a)).
    set (t := Z.of_nat (List.length (reviews_of df (review_category r)))).
    assert (H : In {| row_category := review_category r; row_aspect := a;
                      row_count := n; row_total_reviews := t;
                      row_percentage := percentage_of n t;
                      row_is_low_percentage := is_low (percentage_of n t) |}
                   (analysis_data df))
      by (apply analysis_data_rows; simpl; auto).
    rewrite E in H. destruct H.
  - intros H. destruct (analysis_data df) as [|row l] eqn:E; [reflexivity|].
    assert (Hr : In row (analysis_data df)) by (rewrite E; left; reflexivity).
    apply analysis_data_rows in Hr as [Ha _].
    apply category_occurrences_In in Ha as [r [Hr [_ Ha]]].
    rewrite (H r Hr) in Ha. destruct Ha.
Qed.

Lemma analysis_categories (df : list Review) (cat : string) :
  In cat (map row_category (analysis_data df))
  <-> exists r, In r df /\ review_category r = cat
                /\ review_aspects_list r <> [].
Proof.
  rewrite in_map_iff. split.
  - intros [row [<- Hr]]. apply analysis_data_rows in Hr as [Ha _].
    apply category_occurrences_In in Ha as [r [Hr [Hc Ha]]].
    exists r. split; [exact Hr|]. split; [exact Hc|].
    intros E. rewrite E in Ha. destruct Ha.
  - intros [r [Hr [Hc Hne]]].
    destruct (review_aspects_list r) as [|a l] eqn:El; [congruence|].
    assert (Ha : In a (category_occurrences df cat)).
    { apply category_occurrences_In. exists r. rewrite El. simpl. auto. }
    set (n := Z.of_nat (count_occ string_dec (category_occurrences df cat) a)).
    set (t := Z.of_nat (List.length (reviews_of df cat))).
    exists {| row_category := cat; row_aspect := a;
              row_count := n; row_total_reviews := t;
              row_percentage := percentage_of n t;
              row_is_low_percentage := is_low (percentage_of n t) |}.
    split; [reflexivity|]. apply analysis_data_rows. simpl. auto.
Qed.

Lemma analyze_aspects_unfold (df : list Review) :
  analyze_aspects (Some df)
  = match analysis_data df with
    | [] => Ok None
    | _ => pivot_df <- pivot_table (analysis_data df) ;;
           Ok (Some (analysis_data df, pivot_df))
    end.
Proof.
  destruct df as [|r df]; [reflexivity|]. unfold analyze_aspects.
  destruct (analysis_data (r :: df)); reflexivity.
Qed.

(** X23.  What [analyze_aspects] does with a collection of reviews: it
    returns nothing exactly when no review lists an aspect; it raises
    ValueError exactly when a review that lists an aspect has the category
    "aspect", whose pivot column clashes with the index column; otherwise
    it returns the analysis rows with a pivot whose columns are "aspect"
    and the categories that have rows. *)
Theorem analyze_aspects_outcome (df : list Review) :
  (analyze_aspects (Some df) = Ok None
   <-> forall r, In r df -> review_aspects_list r = [])
  /\ (analyze_aspects (Some df) = Raise ValueError
      <-> exists r, In r df /\ review_category r = "aspect"
                    /\ review_aspects_list r <> [])
  /\ (forall analysis_df pivot_df,
        analyze_aspects (Some df) = Ok (Some (analysis_df, pivot_df)) ->
        analysis_df = analysis_data df
        /\ pivot_columns pivot_df
           = "aspect" :: group_keys (map row_category (analysis_data df))
        /\ map fst (pivot_rows pivot_df)
           = group_keys (map row_aspect (analysis_data df))).
Proof.
  rewrite analyze_aspects_unfold.
  pose proof (analysis_data_nil_iff df) as Hnil.
  pose proof (analysis_categories df "aspect") as Hcat.
  rewrite <- group_keys_In, <- existsb_string_In in Hcat.
  unfold pivot_table.
  destruct (analysis_data df) as [|row l] eqn:E.
  - split; [|split].
    + split; [intros _; apply Hnil; reflexivity|reflexivity].
    + split; [discriminate|]. intros H. apply Hcat in H. discriminate H.
    + discriminate.
  - rewrite <- E in *.
    destruct (existsb (String.eqb "aspect")
                      (group_keys (map row_category (analysis_data df)))) eqn:Ex;
      simpl.
    + split; [|split].
      * split; [discriminate|]. intros H. apply Hnil in H. congruence.
      * split; [intros _; apply Hcat; reflexivity|reflexivity].
      * discriminate.
    + split; [|split].
      * split; [discriminate|]. intros H. apply Hnil in H. congruence.
      * split; [discriminate|]. intros H. apply Hcat in H. discriminate H.
      * intros an p H. injection H as <- <-. simpl.
        split; [reflexivity|]. split; [reflexivity|].
        rewrite map_map. simpl. apply map_id.
Qed.

Lemma analyze_aspects_returns
  (df : list Review) (analysis_df : list AnalysisRow) (pivot_df : PivotTable) :
  analyze_aspects (Some df) = Ok (Some (analysis_df, pivot_df)) ->
  analysis_df = analysis_data df
  /\ pivot_df
     = {| pivot_columns :=
            "aspect" :: group_keys (map row_category (analysis_data df));
          pivot_rows :=
            map (fun a =>
                   (a, map (fun c => (c, pivot_value (analysis_data df) a c))
                           (group_keys (map row_category (analysis_data df)))))
                (group_keys (map row_aspect (analysis_data df))) |}.
Proof.
  rewrite analyze_aspects_unfold. unfold pivot_table.
  destruct (analysis_data df) as [|row l] eqn:E; [discriminate|].
  destruct (existsb (String.eqb "aspect")
                    (group_keys (map row_category (row :: l))));
    simpl; [discriminate|].
  intros H. injection H as <- <-. auto.
Qed.

Lemma filter_pair_unique (an : list AnalysisRow) (row : AnalysisRow) :
  NoDup (map (fun r => (row_category r, row_aspect r)) an) ->
  In row an ->
  filter (fun r => String.eqb (row_aspect r) (row_aspect row)
                   && String.eqb (row_category r) (row_category row)) an
  = [row].
Proof.
  induction an as [|x an IH]; simpl; intros Hnd Hin; [contradiction|].
  inversion Hnd as [|? ? Hx Han]; subst.
  assert (Hnone : forall l,
             ~ In (row_category x, row_aspect x)
                  (map (fun r => (row_category r, row_aspect r)) l) ->
             filter (fun r => String.eqb (row_aspect r) (row_aspect x)
                              && String.eqb (row_category r) (row_category x)) l
             = []).
  { induction l as [|y l IHl]; simpl; intros H; [reflexivity|].
    destruct (String.eqb (row_aspect y) (row_aspect x)
              && String.eqb (row_category y) (row_category x)) eqn:E.
    - apply andb_true_iff in E as [E1 E2].
      apply String.eqb_eq in E1, E2. exfalso. apply H. left. congruence.
    - apply IHl. auto. }
  destruct Hin as [->|Hin].
  - rewrite !String.eqb_refl. simpl. rewrite Hnone by exact Hx. reflexivity.
  - destruct (String.eqb (row_aspect x) (row_aspect row)
              && String.eqb (row_category x) (row_category row)) eqn:E.
    + apply andb_true_iff in E as [E1 E2]. apply String.eqb_eq in E1, E2.
      exfalso. apply Hx. apply in_map_iff. exists row. split; [congruence|exact Hin].
    + apply IH; assumption.
Qed.

Lemma mean_Q_single (p : Q) : (mean_Q [p] == p)%Q.
Proof.
  unfold mean_Q. simpl. destruct p as [n d].
  unfold Qdiv, Qmult, Qinv, Qplus, inject_Z, Qeq. cbn -[Z.mul].
  rewrite !Pos.mul_1_r. ring.
Qed.

(** X24.  The pivot that [analyze_aspects] returns has one row per aspect
    and one cell per category column; the cell of an aspect and a category
    is the percentage of their row of the analysis, and 0 when they have no
    row. *)
Theorem pivot_cells
  (df : list Review) (analysis_df : list AnalysisRow) (pivot_df : PivotTable) :
  analyze_aspects (Some df) = Ok (Some (analysis_df, pivot_df)) ->
  NoDup (map fst (pivot_rows pivot_df))
  /\ forall a cells,
       In (a, cells) (pivot_rows pivot_df) ->
       "aspect" :: map fst cells = pivot_columns pivot_df
       /\ forall c v,
            In (c, v) cells ->
            (forall row, In row analysis_df -> row_aspect row = a ->
                         row_category row = c ->
                         (v == row_percentage row)%Q)
            /\ ((forall row, In row analysis_df ->
                             ~ (row_aspect row = a /\ row_category row = c)) ->
                v = 0%Q).
Proof.
  intros H. apply analyze_aspects_returns in H as [-> ->]. simpl. split.
  - rewrite map_map. simpl. rewrite map_id. apply group_keys_NoDup.
  - intros a cells Hin. apply in_map_iff in Hin as [a' [E _]].
    injection E as -> <-. split.
    + rewrite map_map. simpl. rewrite map_id. reflexivity.
    + intros c v Hv. apply in_map_iff in Hv as [c' [E _]].
      injection E as -> <-. split.
      * intros row Hrow <- <-. unfold pivot_value.
        rewrite (filter_pair_unique _ row (analysis_pairs_NoDup df) Hrow).
        simpl. apply mean_Q_single.
      * intros Hnone. unfold pivot_value.
        assert (E : filter (fun r => String.eqb (row_aspect r) a
                                     && String.eqb (row_category r) c)
                           (analysis_data df) = []).
        { apply filter_nil_iff. intros r Hr. apply andb_false_iff.
          destruct (String.eqb (row_aspect r) a) eqn:E1; [|auto].
          destruct (String.eqb (row_category r) c) eqn:E2; [|auto].
          apply String.eqb_eq in E1, E2. exfalso. apply (Hnone r Hr). auto. }
        rewrite E. reflexivity.
Qed.

Lemma pivot_cells_witness :
  exists pivot_df,
    analyze_aspects (Some example_reviews)
    = Ok (Some (analysis_data example_reviews, pivot_df))
    /\ NoDup (map fst (pivot_rows pivot_df)).
Proof.
  eexists. split; [reflexivity|].
  eapply (pivot_cells example_reviews (analysis_data example_reviews)).
  reflexivity.
Defined.

(** ** The functions on the analysis *)

Lemma df_head_prefix {A : Type} (n : Z) (l : list A) :
  exists k, df_head n l = firstn k l
            /\ Z.of_nat (List.length (df_head n l))
               = if 0 <=? n then Z.min n (Z.of_nat (List.length l))
                 else Z.max 0 (Z.of_nat (List.length l) + n).
Proof.
  unfold df_head. destruct (0 <=? n) eqn:E.
  - exists (Z.to_nat n). split; [reflexivity|].
    apply Z.leb_le in E. rewrite length_firstn. lia.
  - exists (List.length l - Z.to_nat (- n))%nat. split; [reflexivity|].
    apply Z.leb_gt in E. rewrite length_firstn. lia.
Qed.

Lemma aspect_totals_keys (rows : list AnalysisRow) :
  map fst (aspect_totals rows) = group_keys (map row_aspect rows).
Proof. unfold aspect_totals. rewrite map_map. simpl. apply map_id. Qed.

(** X25.  Any result of [get_top_aspects] is a head of the aspect totals in
    descending order: each aspect appears once with the sum of its counts
    over all rows, no aspect left out has a larger total than one kept, and
    the number kept is [top_n] capped by the number of distinct aspects; a
    negative [top_n] instead drops that many aspects from the end. *)
Theorem get_top_aspects_result
  (rows : list AnalysisRow) (top_n : Z) (out : list (string * Z)) :
  get_top_aspects (Some rows) top_n (Some out) ->
  StronglySorted (fun a b => snd b <= snd a) out
  /\ NoDup (map fst out)
  /\ Z.of_nat (List.length out)
     = (if 0 <=? top_n
        then Z.min top_n (Z.of_nat (List.length (unique (map row_aspect rows))))
        else Z.max 0 (Z.of_nat (List.length (unique (map row_aspect rows)))
                      + top_n))
  /\ (forall a t,
        In (a, t) out ->
        In a (map row_aspect rows)
        /\ t = fold_right Z.add 0
                 (map row_count
                      (filter (fun r => String.eqb (row_aspect r) a) rows)))
  /\ (forall a t b u,
        In (a, t) out -> In (b, u) (aspect_totals rows) -> ~ In (b, u) out ->
        u <= t).
Proof.
  unfold get_top_aspects. destruct rows as [|r0 rows0]; [discriminate|].
  set (rows := r0 :: rows0). intros [sorted [[Hperm Hsorted] Hout]].
  injection Hout as ->.
  destruct (df_head_prefix top_n sorted) as [k [Hk Hlen]]. rewrite Hk in *.
  assert (Hsub : forall x, In x (firstn k sorted) -> In x (aspect_totals rows)).
  { intros x Hx. apply (Permutation_in _ (Permutation_sym Hperm)).
    rewrite <- (firstn_skipn k sorted). apply in_or_app. left. exact Hx. }
  split; [apply StronglySorted_firstn; exact Hsorted|]. split; [|split; [|split]].
  - rewrite <- firstn_map. apply NoDup_firstn.
    eapply Permutation_NoDup; [apply Permutation_map; exact Hperm|].
    rewrite aspect_totals_keys. apply group_keys_NoDup.
  - rewrite Hlen. rewrite <- (Permutation_length Hperm).
    unfold aspect_totals. rewrite length_map. unfold group_keys.
    rewrite <- (Permutation_length (sort_strings_perm _)). reflexivity.
  - intros a t Hin. apply Hsub in Hin. unfold aspect_totals in Hin.
    apply in_map_iff in Hin as [a' [E Ha]]. injection E as -> <-.
    split; [apply group_keys_In; exact Ha|reflexivity].
  - intros a t b u Ha Hb Hnot.
    assert (Hb' : In (b, u) (skipn k sorted)).
    { apply (Permutation_in _ Hperm) in Hb.
      rewrite <- (firstn_skipn k sorted) in Hb.
      apply in_app_or in Hb as [Hb|Hb]; [contradiction|exact Hb]. }
    rewrite <- (firstn_skipn k sorted) in Hsorted.
    apply (StronglySorted_app_cross _ _ _ Hsorted (a, t) (b, u) Ha Hb').
Qed.

Lemma get_top_aspects_result_witness :
  StronglySorted (fun a b => snd b <= snd a) [("battery", 2); ("price", 2)]
  /\ NoDup (map fst [("battery", 2); ("price", 2)]).
Proof.
  assert (H : get_top_aspects (Some (analysis_data example_reviews)) 2
                              (Some [("battery", 2); ("price", 2)])).
  { exists [("battery", 2); ("price", 2); ("design", 1)]. split; [split|].
    - simpl. apply perm_skip. apply perm_swap.
    - repeat constructor; simpl; lia.
    - reflexivity. }
  destruct (get_top_aspects_result _ _ _ H) as [H1 [H2 _]].
  split; assumption.
Defined.

Lemma is_low_iff (p : Q) : is_low p = true <-> (p < inject_Z 5)%Q.
Proof.
  unfold is_low. rewrite negb_true_iff. split.
  - intros H. apply Qnot_le_lt. intros Hle.
    apply Qle_bool_iff in Hle. congruence.
  - intros H. destruct (Qle_bool (inject_Z 5) p) eqn:E; [|reflexivity].
    apply Qle_bool_iff in E. exfalso. apply (Qlt_not_le _ _ H E).
Qed.

Lemma NoDup_map_Permutation {A B : Type} (f : A -> B) (l l' : list A) :
  Permutation l l' -> NoDup (map f l) -> NoDup (map f l').
Proof.
  intros Hp. apply Permutation_NoDup. apply Permutation_map. exact Hp.
Qed.

Lemma NoDup_map_filter {Row Key : Type} (key : Row -> Key)
  (keep : Row -> bool) :
  forall table : list Row,
    NoDup (map key table) -> NoDup (map key (filter keep table)).
Proof.
  intros table. induction table as [|row table IH]; simpl; intros Hnd.
  - constructor.
  - apply NoDup_cons_iff in Hnd as [Hfresh Hrest].
    destruct (keep row); simpl; [|apply IH; exact Hrest].
    apply NoDup_cons; [|apply IH; exact Hrest].
    intros Hin. apply Hfresh.
    apply in_map_iff in Hin as [other [Hkey Hother]].
    apply filter_In in Hother as [Hother _].
    apply in_map_iff. exists other. split; assumption.
Qed.

(** X26.  Applied to the analysis of a collection of reviews,
    [get_low_percentage_aspects] returns [None] exactly when no review
    lists an aspect; any other result is in ascending order of percentage,
    holds no pair of category and aspect twice, and holds a row of the
    analysis exactly when its percentage is below 5. *)
Theorem get_low_percentage_aspects_result
  (df : list Review) (out : option (list AnalysisRow)) :
  get_low_percentage_aspects (Some (analysis_data df)) out ->
  match out with
  | None => forall r, In r df -> review_aspects_list r = []
  | Some l =>
      (exists r, In r df /\ review_aspects_list r <> [])
      /\ StronglySorted (fun a b => (row_percentage a <= row_percentage b)%Q) l
      /\ NoDup (map (fun r => (row_category r, row_aspect r)) l)
      /\ forall row,
           In row l
           <-> In row (analysis_data df) /\ (row_percentage row < inject_Z 5)%Q
  end.
Proof.
  unfold get_low_percentage_aspects.
  destruct (analysis_data df) as [|r0 rows0] eqn:E.
  - intros ->. apply analysis_data_nil_iff. exact E.
  - rewrite <- E. intros [sorted [[Hperm Hsorted] ->]].
    split; [|split; [exact Hsorted|split]].
    + destruct (existsb (fun r => match review_aspects_list r with
                                  | [] => false
                                  | _ => true
                                  end) df) eqn:Ex.
      * apply existsb_exists in Ex as [r [Hr Hne]]. exists r.
        split; [exact Hr|]. intros Hnil. rewrite Hnil in Hne. discriminate Hne.
      * exfalso.
        assert (Hnil : analysis_data df = []).
        { apply analysis_data_nil_iff. intros r Hr.
          destruct (review_aspects_list r) eqn:El; [reflexivity|].
          assert (Hex : existsb (fun r => match review_aspects_list r with
                                          | [] => false
                                          | _ => true
                                          end) df = true).
          { apply existsb_exists. exists r. rewrite El. auto. }
          congruence. }
        congruence.
    + eapply NoDup_map_Permutation; [exact Hperm|].
      apply NoDup_map_filter. apply analysis_pairs_NoDup.
    + intros row. split.
      * intros H. apply (Permutation_in _ (Permutation_sym Hperm)) in H.
        apply filter_In in H as [Hin Hlow]. split; [exact Hin|].
        apply analysis_data_rows in Hin as [_ [_ [_ [_ Hl]]]].
        apply is_low_iff. congruence.
      * intros [Hin Hlt]. apply (Permutation_in _ Hperm).
        apply filter_In. split; [exact Hin|].
        apply analysis_data_rows in Hin as [_ [_ [_ [_ Hl]]]].
        rewrite Hl. apply is_low_iff. exact Hlt.
Qed.

Lemma low_reviews_low_rows :
  filter row_is_low_percentage (analysis_data low_reviews)
  = [low_row "scarce" 2; low_row "rare" 1].
Proof. vm_compute. reflexivity. Qed.

Lemma get_low_percentage_aspects_result_witness :
  StronglySorted (fun a b => (row_percentage a <= row_percentage b)%Q) low_view
  /\ NoDup (map (fun r => (row_category r, row_aspect r)) low_view)
  /\ (In (low_row "rare" 1) low_view
      <-> In (low_row "rare" 1) (analysis_data low_reviews)
          /\ (row_percentage (low_row "rare" 1) < inject_Z 5)%Q).
Proof.
  assert (H : get_low_percentage_aspects
                (Some (analysis_data low_reviews)) (Some low_view)).
  { assert (Hne : exists r rs, analysis_data low_reviews = r :: rs)
      by (vm_compute; eauto).
    destruct Hne as [r [rs Hne]].
    unfold get_low_percentage_aspects. rewrite Hne, <- Hne.
    exists low_view. split; [split|reflexivity].
    - rewrite low_reviews_low_rows. apply perm_swap.
    - unfold low_view, low_row. repeat constructor.
      unfold Qle. vm_compute. discriminate. }
  destruct (get_low_percentage_aspects_result low_reviews (Some low_view) H)
    as [_ [H1 [H2 H3]]].
  split; [exact H1|]. split; [exact H2|apply H3].
Defined.

Lemma unique_of_NoDup (l : list string) : NoDup l -> unique l = l.
Proof. intros H. unfold unique. apply (add_columns_fresh l []). exact H. Qed.

Lemma category_rows_filter (df : list Review) (x c : string) :
  filter (fun r => String.eqb (row_category r) c) (category_rows df x)
  = if String.eqb x c then category_rows df x else [].
Proof.
  unfold category_rows.
  induction (category_aspect_counts (reviews_of df x)) as [|ac l IH];
    simpl; [destruct (String.eqb x c); reflexivity|].
  rewrite IH. destruct (String.eqb x c); reflexivity.
Qed.

Lemma analysis_rows_of_category (df : list Review) (c : string) :
  map row_aspect
      (filter (fun r => String.eqb (row_category r) c) (analysis_data df))
  = unique (category_occurrences df c).
Proof.
  assert (Hrows : map row_aspect (category_rows df c)
                  = unique (category_occurrences df c)).
  { unfold category_rows. rewrite map_map. simpl.
    apply category_counts_keys. }
  unfold analysis_data.
  pose proof (unique_NoDup (map review_category df)) as Hnd.
  pose proof (unique_In c (map review_category df)) as Hin.
  induction (unique (map review_category df)) as [|x cats IH].
  - simpl. destruct (category_occurrences df c) as [|a l] eqn:E;
      [reflexivity|].
    assert (Ha : In a (category_occurrences df c)) by (rewrite E; left; reflexivity).
    apply category_occurrences_In in Ha as [r [Hr [Hc _]]].
    exfalso. apply (proj2 Hin). rewrite <- Hc. apply in_map. exact Hr.
  - simpl. rewrite filter_app, map_app, category_rows_filter.
    inversion Hnd as [|? ? Hx Hcats]; subst.
    destruct (String.eqb x c) eqn:E.
    + apply String.eqb_eq in E. subst x. rewrite Hrows.
      assert (Hrest : filter (fun r => String.eqb (row_category r) c)
                             (flat_map (category_rows df) cats) = []).
      { apply filter_nil_iff. intros r Hr. apply in_flat_map in Hr as [y [Hy Hr]].
        unfold category_rows in Hr. apply in_map_iff in Hr as [ac [<- _]].
        simpl. apply String.eqb_neq. intros ->. contradiction. }
      rewrite Hrest. simpl. apply app_nil_r.
    + simpl.
      destruct (in_dec string_dec c cats) as [Hc|Hc].
      * apply IH; [exact Hcats|]. split; intros _; [|exact Hc].
        apply Hin. right. exact Hc.
      * assert (Hrest : filter (fun r => String.eqb (row_category r) c)
                               (flat_map (category_rows df) cats) = []).
        { apply filter_nil_iff. intros r Hr.
          apply in_flat_map in Hr as [y [Hy Hr]].
          unfold category_rows in Hr. apply in_map_iff in Hr as [ac [<- _]].
          simpl. apply String.eqb_neq. intros ->. contradiction. }
        rewrite Hrest. simpl.
        destruct (category_occurrences df c) as [|a l] eqn:Eo; [reflexivity|].
        assert (Ha : In a (category_occurrences df c))
          by (rewrite Eo; left; reflexivity).
        apply category_occurrences_In in Ha as [r [Hr [Hcr _]]].
        assert (Hcin : In c (x :: cats)).
        { apply Hin. rewrite <- Hcr. apply in_map. exact Hr. }
        destruct Hcin as [->|Hcin]; [|contradiction].
        rewrite String.eqb_refl in E. discriminate E.
Qed.

Lemma sum_indicator (keys : list string) (c : string) :
  NoDup keys -> In c keys ->
  fold_right Z.add 0
    (map (fun k => if String.eqb c k then 1 else 0) keys) = 1.
Proof.
  induction keys as [|k keys IH]; simpl; intros Hnd Hin; [contradiction|].
  inversion Hnd as [|? ? Hk Hkeys]; subst.
  destruct (String.eqb c k) eqn:E.
  - apply String.eqb_eq in E. subst k.
    assert (Hz : fold_right Z.add 0
                   (map (fun k => if String.eqb c k then 1 else 0) keys) = 0).
    { clear IH Hnd Hin Hkeys. induction keys as [|k keys IH]; [reflexivity|].
      simpl. destruct (String.eqb c k) eqn:E.
      - apply String.eqb_eq in E. subst k. exfalso. apply Hk. left. reflexivity.
      - rewrite IH; [reflexivity|]. intros H. apply Hk. right. exact H. }
    rewrite Hz. reflexivity.
  - destruct Hin as [->|Hin]; [rewrite String.eqb_refl in E; discriminate|].
    rewrite IH by assumption. reflexivity.
Qed.

(** Rows split by a key: the group sizes add up to the number of rows. *)
Lemma group_sizes_sum (key : AnalysisRow -> string) (rows : list AnalysisRow)
  (keys : list string) :
  NoDup keys -> (forall r, In r rows -> In (key r) keys) ->
  fold_right Z.add 0
    (map (fun k => Z.of_nat
                     (List.length (filter (fun r => String.eqb (key r) k) rows)))
         keys)
  = Z.of_nat (List.length rows).
Proof.
  intros Hnd. induction rows as [|r rows IH]; intros Hin.
  - clear Hnd Hin. induction keys as [|k keys IHk]; [reflexivity|].
    simpl in *. exact IHk.
  - assert (Hsplit : forall ks,
               fold_right Z.add 0
                 (map (fun k => Z.of_nat
                                  (List.length
                                     (filter (fun r0 => String.eqb (key r0) k)
                                             (r :: rows)))) ks)
               = fold_right Z.add 0
                   (map (fun k => if String.eqb (key r) k then 1 else 0) ks)
                 + fold_right Z.add 0
                     (map (fun k => Z.of_nat
                                      (List.length
                                         (filter (fun r0 => String.eqb (key r0) k)
                                                 rows))) ks)).
    { induction ks as [|k ks IHk]; [reflexivity|].
      cbn [map fold_right]. rewrite IHk. cbn [filter].
      destruct (String.eqb (key r) k); cbn [List.length]; lia. }
    rewrite Hsplit, sum_indicator, IH.
    + simpl List.length. lia.
    + intros r' Hr'. apply Hin. right. exact Hr'.
    + exact Hnd.
    + apply Hin. left. reflexivity.
Qed.

(** X27.  Applied to the analysis of a collection of reviews,
    [get_aspect_distribution] has one row for every category in which a
    review lists an aspect; its number is the number of distinct aspects
    listed in the reviews of the category, and the numbers add up to the
    number of rows of the analysis. *)
Theorem aspect_distribution_of_analysis
  (df : list Review) (dist : list (string * Z)) :
  get_aspect_distribution (Some (analysis_data df)) = Some dist ->
  NoDup (map fst dist)
  /\ (forall c,
        In c (map fst dist)
        <-> exists r, In r df /\ review_category r = c
                      /\ review_aspects_list r <> [])
  /\ (forall c k,
        In (c, k) dist ->
        k = Z.of_nat (List.length (unique (category_occurrences df c)))
        /\ 1 <= k)
  /\ fold_right Z.add 0 (map snd dist)
     = Z.of_nat (List.length (analysis_data df)).
Proof.
  unfold get_aspect_distribution.
  destruct (analysis_data df) as [|r0 rows0] eqn:E; [discriminate|].
  rewrite <- E. intros H. injection H as <-.
  assert (Hk : forall c,
             List.length
               (unique (map row_aspect
                            (filter (fun r => String.eqb (row_category r) c)
                                    (analysis_data df))))
             = List.length (unique (category_occurrences df c))).
  { intros c. rewrite analysis_rows_of_category.
    rewrite unique_of_NoDup by apply unique_NoDup. reflexivity. }
  split; [|split; [|split]].
  - rewrite map_map. simpl. rewrite map_id. apply group_keys_NoDup.
  - intros c. rewrite map_map. simpl. rewrite map_id, group_keys_In.
    apply analysis_categories.
  - intros c k Hin. apply in_map_iff in Hin as [c' [Ec Hc]].
    injection Ec as -> <-. rewrite Hk. split; [reflexivity|].
    apply group_keys_In, analysis_categories in Hc as [r [Hr [Hcat Hne]]].
    destruct (review_aspects_list r) as [|a l] eqn:El; [congruence|].
    assert (Ha : In a (unique (category_occurrences df c))).
    { apply unique_In. apply category_occurrences_In. exists r.
      rewrite El. simpl. auto. }
    destruct (unique (category_occurrences df c)); [destruct Ha|simpl; lia].
  - rewrite map_map. simpl.
    rewrite <- (group_sizes_sum row_category (analysis_data df)
                  (group_keys (map row_category (analysis_data df)))).
    + f_equal. apply map_ext. intros c. f_equal.
      rewrite Hk, <- analysis_rows_of_category, length_map. reflexivity.
    + apply group_keys_NoDup.
    + intros r Hr. apply group_keys_In. apply in_map. exact Hr.
Qed.

Lemma aspect_distribution_of_analysis_witness :
  NoDup (map fst [("laptop", 1); ("phone", 3)])
  /\ fold_right Z.add 0 (map snd [("laptop", 1); ("phone", 3)])
     = Z.of_nat (List.length (analysis_data example_reviews)).
Proof.
  destruct (aspect_distribution_of_analysis
              example_reviews [("laptop", 1); ("phone", 3)] eq_refl)
    as [H1 [_ [_ H2]]].
  split; assumption.
Defined.
